(** * ProjectScaffolder: generation and deployment pipeline

    A shallow embedding of the orchestration core of ProjectScaffolder,
    followed by the properties proved of it.

    Definitions:
    - [Status]: the PL/pgSQL triggers of [supabase/triggers.sql] that guard
      and drive the project status column;
    - [Js]: exceptions and completions of JavaScript code;
    - [Parser]: [parseCodeGenerationResponse] of [src/lib/ai/index.ts],
      with the regular expression and [JSON.parse] it relies on;
    - [Flow]: the datastore records, the log of external calls and the
      effect monad of the asynchronous code (exceptions, try/catch/finally,
      a clock);
    - [Vercel]: [VercelService] and [deployToVercel] of
      [src/lib/deploy/vercel.ts];
    - [GitHub]: [GitHubService] and [createAndPushToGitHub];
    - [Deploy]: [deploy] and [fullDeploymentPipeline] of
      [src/lib/deploy/index.ts];
    - [AI]: [generate] and the prompt template of [src/lib/ai/index.ts];
    - [Routes]: the [POST /api/generate] and [POST /api/deploy] handlers;
    - [Samples], [Scenarios]: concrete environments, worlds and requests;
    - [Text], [Observe], [RouteObs]: predicates on texts, on the log of a
      run and on the answers of the handlers, used to state properties;
    - [AIConfig]: the provider selection of [src/lib/ai/index.ts];
    - [Triggers]: the deployment completion trigger;
    - [Audit]: the request metadata and the paging of
      [src/lib/compliance/audit.ts];
    - [Providers]: the requests the LLM providers build from a list of
      messages.

    JavaScript strings are modelled as byte strings ([string]).  Every
    external system (datastore, HTTP, git, file system, LLM) is driven by
    an oracle [Env] indexed by the number of external calls made so far, so
    a theorem quantified over [Env] covers every behaviour of the outside
    world, including a failure at any call. *)

From Stdlib Require Import String Ascii List ZArith Bool Lia.
From stdpp Require Import base gmap strings list pretty.
Set Warnings "-register-all".
Import ListNotations.
Local Open Scope string_scope.
Local Open Scope Z_scope.

(** ** Project status triggers ([supabase/triggers.sql]) *)

Module Status.

(** [CREATE TYPE public.project_status AS ENUM (...)]. *)
Inductive ProjectStatus :=
| DRAFT | GENERATING | GENERATED | DEPLOYING | DEPLOYED | FAILED.

#[global] Instance ProjectStatus_eq_dec : EqDecision ProjectStatus.
Proof. solve_decision. Defined.

(** The cast [status::text] of an enum value is its label. *)
Definition status_text (s : ProjectStatus) : string :=
  match s with
  | DRAFT => "DRAFT"
  | GENERATING => "GENERATING"
  | GENERATED => "GENERATED"
  | DEPLOYING => "DEPLOYING"
  | DEPLOYED => "DEPLOYED"
  | FAILED => "FAILED"
  end.

(** The JSONB literal assigned to [valid_transitions]: an object whose
    members are arrays of strings, kept in the order of the source. *)
Definition valid_transitions : list (string * list string) :=
  [ ("DRAFT",      ["GENERATING"; "FAILED"]);
    ("GENERATING", ["GENERATED"; "FAILED"]);
    ("GENERATED",  ["DEPLOYING"; "DRAFT"; "FAILED"]);
    ("DEPLOYING",  ["DEPLOYED"; "FAILED"]);
    ("DEPLOYED",   ["DEPLOYING"; "DRAFT"]);
    ("FAILED",     ["DRAFT"; "GENERATING"; "DEPLOYING"]) ].

(** [obj -> key]: the member of a JSONB object, SQL NULL ([None]) when the
    key is missing. *)
Fixpoint jsonb_get (obj : list (string * list string)) (key : string)
  : option (list string) :=
  match obj with
  | [] => None
  | (k, v) :: rest => if String.eqb k key then Some v else jsonb_get rest key
  end.

(** [arr ? text]: does the string occur as a top-level array element; the
    operator is strict, so a NULL left operand gives NULL. *)
Definition jsonb_exists (arr : option (list string)) (x : string) : option bool :=
  match arr with
  | None => None
  | Some l => Some (existsb (String.eqb x) l)
  end.

(** SQL [NOT] on a three-valued boolean. *)
Definition sql_not (b : option bool) : option bool := option_map negb b.

(** The columns of [public.projects] that the triggers read or write. *)
Record project_row := {
  row_id : string;
  row_status : ProjectStatus;
  row_generated_files : option string;
  row_deployment_url : option string;
  row_version : Z
}.

(** A row trigger either returns the row to store or raises. *)
Inductive trigger_result :=
| Return (new : project_row)
| RaiseException (message : string).

(** [RAISE EXCEPTION 'Invalid project status transition from % to %']. *)
Definition invalid_transition_message (old new : ProjectStatus) : string :=
  "Invalid project status transition from " ++ status_text old
    ++ " to " ++ status_text new.

(** [public.trigger_validate_project_status()], fired
    [BEFORE UPDATE OF status ON public.projects FOR EACH ROW].  An [IF]
    whose condition is NULL does not take its branch. *)
Definition trigger_validate_project_status (OLD NEW : project_row)
  : trigger_result :=
  if decide (row_status OLD = row_status NEW) then Return NEW
  else
    match sql_not (jsonb_exists
                     (jsonb_get valid_transitions (status_text (row_status OLD)))
                     (status_text (row_status NEW))) with
    | Some true =>
        RaiseException
          (invalid_transition_message (row_status OLD) (row_status NEW))
    | _ => Return NEW
    end.

(** The legal transitions as the specification enumerates them:
    DRAFT -> GENERATING -> GENERATED -> DEPLOYING -> DEPLOYED, FAILED
    reachable from GENERATING or DEPLOYING, and FAILED able to return to
    DRAFT, GENERATING or DEPLOYING. *)
Definition spec_legal (from to : ProjectStatus) : bool :=
  match from, to with
  | DRAFT, GENERATING
  | GENERATING, GENERATED
  | GENERATED, DEPLOYING
  | DEPLOYING, DEPLOYED
  | GENERATING, FAILED
  | DEPLOYING, FAILED
  | FAILED, DRAFT
  | FAILED, GENERATING
  | FAILED, DEPLOYING => true
  | _, _ => false
  end.

(** The transitions of the trigger's table that the specification does not
    list. *)
Definition extra_legal (from to : ProjectStatus) : bool :=
  match from, to with
  | DRAFT, FAILED
  | GENERATED, DRAFT
  | GENERATED, FAILED
  | DEPLOYED, DEPLOYING
  | DEPLOYED, DRAFT => true
  | _, _ => false
  end.

(** The generation row columns read by the completion trigger. *)
Inductive GenerationStatus := GEN_PENDING | GEN_PROCESSING | GEN_COMPLETED | GEN_FAILED.

#[global] Instance GenerationStatus_eq_dec : EqDecision GenerationStatus.
Proof. solve_decision. Defined.

Record generation_row := {
  gen_project_id : string;
  gen_status : GenerationStatus;
  gen_output : option string
}.

(** SQL [COALESCE(a, b)]. *)
Definition coalesce {A} (a b : option A) : option A :=
  match a with Some _ => a | None => b end.

(** [public.trigger_generation_completed()], fired [AFTER UPDATE OF status
    ON public.code_generations]: the effect of its [UPDATE public.projects
    ... WHERE id = NEW.project_id] statements on one project row. *)
Definition trigger_generation_completed (OLD NEW : generation_row)
    (p : project_row) : project_row :=
  if decide (gen_status OLD = gen_status NEW) then p
  else
    let p1 :=
      if decide (gen_status NEW = GEN_COMPLETED) then
        if String.eqb (row_id p) (gen_project_id NEW) then
          {| row_id := row_id p;
             row_status := GENERATED;
             row_generated_files := coalesce (gen_output NEW) (row_generated_files p);
             row_deployment_url := row_deployment_url p;
             row_version := row_version p + 1 |}
        else p
      else p in
    if decide (gen_status NEW = GEN_FAILED) then
      if String.eqb (row_id p1) (gen_project_id NEW)
         && bool_decide (row_status p1 = GENERATING) then
        {| row_id := row_id p1;
           row_status := FAILED;
           row_generated_files := row_generated_files p1;
           row_deployment_url := row_deployment_url p1;
           row_version := row_version p1 |}
      else p1
    else p1.

(** A row in a given status, for concrete runs of the triggers. *)
Definition sample_row (s : ProjectStatus) : project_row :=
  {| row_id := "p1"; row_status := s; row_generated_files := None;
     row_deployment_url := None; row_version := 1 |}.

End Status.

(** ** JavaScript values and exceptions *)

Module Js.

(** What a [throw] carries.  [Error] stands for [Error] and its built-in
    subclasses ([TypeError], [SyntaxError]); [RequestError] is the error of
    the GitHub client, which carries the HTTP [status]; [ZodError] is kept
    apart because the route handlers test [instanceof z.ZodError];
    [Thrown] is a thrown value that is not an [Error] instance. *)
Inductive exn :=
| Error (message : string)
| RequestError (status : N) (message : string)
| ZodError (message : string)
| Thrown (value : string).

(** [e instanceof Error ? e.message : fallback]. *)
Definition message_or (fallback : string) (e : exn) : string :=
  match e with
  | Error m => m
  | RequestError _ m => m
  | ZodError m => m
  | Thrown _ => fallback
  end.

Definition instanceof_ZodError (e : exn) : bool :=
  match e with ZodError _ => true | _ => false end.

(** The completion of an evaluation: a value, an exception, or (only for
    the fuel-bounded polling loop) fuel exhaustion. *)
Inductive outcome (A : Type) :=
| Ok (a : A)
| Throw (e : exn)
| OutOfFuel.
Arguments Ok {A} a.
Arguments Throw {A} e.
Arguments OutOfFuel {A}.

(** The double quote character, and a JSON string literal around [s]. *)
Definition dquote : ascii := ascii_of_nat 34.
Definition quoted (s : string) : string :=
  String dquote (s ++ String dquote "").

(** [haystack.includes(needle)]. *)
Fixpoint includes (haystack needle : string) : bool :=
  String.prefix needle haystack
  || match haystack with
     | EmptyString => false
     | String _ rest => includes rest needle
     end.

End Js.

(** ** The code generation response parser ([src/lib/ai/index.ts]) *)

Module Parser.
Import Js.

(** *** Regular expressions: literals and greedy [[\s\S]*] *)

Inductive re_atom :=
| Lit (c : ascii)
| AnyStar.

Fixpoint lits (s : string) : list re_atom :=
  match s with
  | EmptyString => []
  | String c r => Lit c :: lits r
  end.

(** Backtracking match of [p] at the start of [s]; returns the matched text.
    A greedy star first tries to take one more character and only then
    falls back to the rest of the pattern. *)
Fixpoint match_here (p : list re_atom) (s : string) {struct p} : option string :=
  match p with
  | [] => Some ""
  | Lit c :: p' =>
      match s with
      | String x s' =>
          if Ascii.eqb x c then option_map (String x) (match_here p' s')
          else None
      | EmptyString => None
      end
  | AnyStar :: p' =>
      (fix star (s : string) : option string :=
         match s with
         | EmptyString => match_here p' ""
         | String x s' =>
             match star s' with
             | Some m => Some (String x m)
             | None => match_here p' s
             end
         end) s
  end.

(** [s.match(p)] for a non-global pattern: the leftmost match. *)
Fixpoint regex_match (p : list re_atom) (s : string) : option string :=
  match match_here p s with
  | Some m => Some m
  | None =>
      match s with
      | EmptyString => None
      | String _ s' => regex_match p s'
      end
  end.

(** The pattern of the source: an opening brace, anything, the quoted
    word files, anything, a closing brace. *)
Definition files_pattern : list re_atom :=
  lits "{" ++ [AnyStar] ++ lits (quoted "files") ++ [AnyStar] ++ lits "}".

(** *** JSON text (ECMA-404) as [JSON.parse] reads it *)

(** Numbers keep their lexeme: the parser under study only passes values
    through. *)
Inductive json :=
| JNull
| JBool (b : bool)
| JNumber (lexeme : string)
| JString (s : string)
| JArray (items : list json)
| JObject (members : list (string * json)).

Inductive token :=
| TLBrace | TRBrace | TLBracket | TRBracket | TColon | TComma
| TString (s : string) | TNumber (lexeme : string)
| TTrue | TFalse | TNull.

Definition is_ws (c : ascii) : bool :=
  let n := nat_of_ascii c in
  (n =? 32)%nat || (n =? 9)%nat || (n =? 10)%nat || (n =? 13)%nat.

Definition is_digit (c : ascii) : bool :=
  let n := nat_of_ascii c in (48 <=? n)%nat && (n <=? 57)%nat.

Definition hex_value (c : ascii) : option N :=
  let n := N_of_ascii c in
  if (48 <=? n)%N && (n <=? 57)%N then Some (n - 48)%N
  else if (65 <=? n)%N && (n <=? 70)%N then Some (n - 55)%N
  else if (97 <=? n)%N && (n <=? 102)%N then Some (n - 87)%N
  else None.

(** A UTF-16 code unit written [\uXXXX], as the bytes of its UTF-8 form. *)
Definition utf8_of_code_unit (n : N) : string :=
  if (n <? 128)%N then String (ascii_of_N n) ""
  else if (n <? 2048)%N then
    String (ascii_of_N (192 + n / 64))
      (String (ascii_of_N (128 + n mod 64)) "")
  else
    String (ascii_of_N (224 + n / 4096))
      (String (ascii_of_N (128 + (n / 64) mod 64))
         (String (ascii_of_N (128 + n mod 64)) "")).

Definition simple_escape (c : ascii) : option ascii :=
  let n := nat_of_ascii c in
  if (n =? 34)%nat then Some c            (* quote *)
  else if (n =? 92)%nat then Some c       (* backslash *)
  else if (n =? 47)%nat then Some c       (* slash *)
  else if (n =? 98)%nat then Some (ascii_of_nat 8)     (* b: backspace *)
  else if (n =? 102)%nat then Some (ascii_of_nat 12)   (* f: form feed *)
  else if (n =? 110)%nat then Some (ascii_of_nat 10)   (* n: line feed *)
  else if (n =? 114)%nat then Some (ascii_of_nat 13)   (* r: carriage return *)
  else if (n =? 116)%nat then Some (ascii_of_nat 9)    (* t: tab *)
  else None.

(** The characters of a string literal after its opening quote: the decoded
    contents and the text after the closing quote. *)
Fixpoint lex_string (s : string) : option (string * string) :=
  match s with
  | EmptyString => None
  | String c r =>
      if Ascii.eqb c dquote then Some ("", r)
      else if (nat_of_ascii c =? 92)%nat then
        match r with
        | EmptyString => None
        | String e r' =>
            if (nat_of_ascii e =? 117)%nat then
              match r' with
              | String h1 (String h2 (String h3 (String h4 r''))) =>
                  match hex_value h1, hex_value h2, hex_value h3, hex_value h4 with
                  | Some a, Some b, Some c', Some d =>
                      match lex_string r'' with
                      | Some (str, rest) =>
                          Some (utf8_of_code_unit (((a * 16 + b) * 16 + c') * 16 + d)%N
                                  ++ str, rest)
                      | None => None
                      end
                  | _, _, _, _ => None
                  end
              | _ => None
              end
            else
              match simple_escape e with
              | Some x =>
                  match lex_string r' with
                  | Some (str, rest) => Some (String x str, rest)
                  | None => None
                  end
              | None => None
              end
        end
      else if (nat_of_ascii c <? 32)%nat then None
      else
        match lex_string r with
        | Some (str, rest) => Some (String c str, rest)
        | None => None
        end
  end.

(** The longest prefix of digits, and what follows it. *)
Fixpoint span_digits (s : string) : string * string :=
  match s with
  | String c r =>
      if is_digit c then let (d, rest) := span_digits r in (String c d, rest)
      else ("", s)
  | EmptyString => ("", "")
  end.

(** A number lexeme: an optional minus, an integer part without a leading
    zero, an optional fraction and an optional exponent. *)
Definition lex_number (s : string) : option (string * string) :=
  let (sign, s1) :=
    match s with
    | String c r => if (nat_of_ascii c =? 45)%nat then (String c "", r) else ("", s)
    | EmptyString => ("", s)
    end in
  let (int, s2) := span_digits s1 in
  match int with
  | EmptyString => None
  | String d more =>
      if (nat_of_ascii d =? 48)%nat && negb (String.eqb more "") then None
      else
        let frac :=
          match s2 with
          | String c r =>
              if (nat_of_ascii c =? 46)%nat then
                let (f, r') := span_digits r in
                if String.eqb f "" then None else Some (String c f, r')
              else Some ("", s2)
          | EmptyString => Some ("", s2)
          end in
        match frac with
        | None => None
        | Some (f, s3) =>
            let expo :=
              match s3 with
              | String c r =>
                  if (nat_of_ascii c =? 101)%nat || (nat_of_ascii c =? 69)%nat then
                    let (sg, r1) :=
                      match r with
                      | String c2 r2 =>
                          if (nat_of_ascii c2 =? 43)%nat || (nat_of_ascii c2 =? 45)%nat
                          then (String c2 "", r2) else ("", r)
                      | EmptyString => ("", r)
                      end in
                    let (e, r') := span_digits r1 in
                    if String.eqb e "" then None
                    else Some (String c (sg ++ e), r')
                  else Some ("", s3)
              | EmptyString => Some ("", s3)
              end in
            match expo with
            | None => None
            | Some (e, s4) => Some (sign ++ int ++ f ++ e, s4)
            end
        end
  end.

(** [s] without the keyword [kw] it starts with. *)
Fixpoint strip_prefix (kw s : string) : option string :=
  match kw, s with
  | EmptyString, _ => Some s
  | String a kw', String b s' => if Ascii.eqb a b then strip_prefix kw' s' else None
  | String _ _, EmptyString => None
  end.

Fixpoint tokenize (fuel : nat) (s : string) : option (list token) :=
  match fuel with
  | O => None
  | S fuel' =>
      match s with
      | EmptyString => Some []
      | String c r =>
          let n := nat_of_ascii c in
          let continue (t : token) (rest : string) :=
            option_map (cons t) (tokenize fuel' rest) in
          if is_ws c then tokenize fuel' r
          else if (n =? 123)%nat then continue TLBrace r
          else if (n =? 125)%nat then continue TRBrace r
          else if (n =? 91)%nat then continue TLBracket r
          else if (n =? 93)%nat then continue TRBracket r
          else if (n =? 58)%nat then continue TColon r
          else if (n =? 44)%nat then continue TComma r
          else if Ascii.eqb c dquote then
            match lex_string r with
            | Some (str, rest) => continue (TString str) rest
            | None => None
            end
          else if (n =? 45)%nat || is_digit c then
            match lex_number s with
            | Some (lexeme, rest) => continue (TNumber lexeme) rest
            | None => None
            end
          else
            match strip_prefix "true" s, strip_prefix "false" s, strip_prefix "null" s with
            | Some rest, _, _ => continue TTrue rest
            | _, Some rest, _ => continue TFalse rest
            | _, _, Some rest => continue TNull rest
            | _, _, _ => None
            end
      end
  end.

(** Recursive descent over the tokens; every call consumes a token, so fuel
    equal to the number of tokens plus one is never exhausted. *)
Fixpoint parse_value (fuel : nat) (ts : list token) : option (json * list token) :=
  match fuel with
  | O => None
  | S fuel' =>
      match ts with
      | TNull :: r => Some (JNull, r)
      | TTrue :: r => Some (JBool true, r)
      | TFalse :: r => Some (JBool false, r)
      | TNumber n :: r => Some (JNumber n, r)
      | TString s :: r => Some (JString s, r)
      | TLBracket :: TRBracket :: r => Some (JArray [], r)
      | TLBracket :: r => parse_elements fuel' r []
      | TLBrace :: TRBrace :: r => Some (JObject [], r)
      | TLBrace :: r => parse_members fuel' r []
      | _ => None
      end
  end
with parse_elements (fuel : nat) (ts : list token) (acc : list json)
  : option (json * list token) :=
  match fuel with
  | O => None
  | S fuel' =>
      match parse_value fuel' ts with
      | Some (v, TComma :: r) => parse_elements fuel' r (v :: acc)
      | Some (v, TRBracket :: r) => Some (JArray (rev (v :: acc)), r)
      | _ => None
      end
  end
with parse_members (fuel : nat) (ts : list token) (acc : list (string * json))
  : option (json * list token) :=
  match fuel with
  | O => None
  | S fuel' =>
      match ts with
      | TString k :: TColon :: r =>
          match parse_value fuel' r with
          | Some (v, TComma :: r') => parse_members fuel' r' ((k, v) :: acc)
          | Some (v, TRBrace :: r') => Some (JObject (rev ((k, v) :: acc)), r')
          | _ => None
          end
      | _ => None
      end
  end.

(** [JSON.parse(text)]: [None] stands for the [SyntaxError] it throws. *)
Definition JSON_parse (text : string) : option json :=
  match tokenize (S (String.length text)) text with
  | None => None
  | Some ts =>
      match parse_value (S (List.length ts)) ts with
      | Some (v, []) => Some v
      | _ => None
      end
  end.

(** A JavaScript value read out of parsed JSON: [None] is [undefined]. *)
Definition jsval := option json.

(** Property read [v.key] on a parsed JSON value that is neither [null] nor
    [undefined]: an own property of an object (the last member of that
    name, as [JSON.parse] keeps the last duplicate), [undefined] on
    anything else. *)
Fixpoint last_member (members : list (string * json)) (key : string) : jsval :=
  match members with
  | [] => None
  | (k, v) :: rest =>
      match last_member rest key with
      | Some v' => Some v'
      | None => if String.eqb k key then Some v else None
      end
  end.

Definition get_property (v : json) (key : string) : jsval :=
  match v with
  | JObject members => last_member members key
  | _ => None
  end.

Record GeneratedFile := {
  path : jsval;
  content : jsval
}.

(** The callback of [parsed.files.map]: reading a property of [null]
    throws a [TypeError]. *)
Definition map_file (file : json) : outcome GeneratedFile :=
  match file with
  | JNull => Throw (Error "Cannot read properties of null (reading 'path')")
  | _ => Ok {| path := get_property file "path";
               content := get_property file "content" |}
  end.

Fixpoint map_files (items : list json) : outcome (list GeneratedFile) :=
  match items with
  | [] => Ok []
  | file :: rest =>
      match map_file file with
      | Ok f =>
          match map_files rest with
          | Ok fs => Ok (f :: fs)
          | Throw e => Throw e
          | OutOfFuel => OutOfFuel
          end
      | Throw e => Throw e
      | OutOfFuel => OutOfFuel
      end
  end.

(** The body of the [try] block of [parseCodeGenerationResponse]. *)
Definition parse_try (response : string) : outcome (list GeneratedFile) :=
  match regex_match files_pattern response with
  | None => Throw (Error "No valid JSON found in response")
  | Some jsonMatch =>
      match JSON_parse jsonMatch with
      | None => Throw (Error "Unexpected token in JSON")
      | Some parsed =>
          match get_property parsed "files" with
          | Some (JArray items) => map_files items
          | _ => Throw (Error "Response does not contain files array")
          end
      end
  end.

Definition parse_failure_message : string :=
  "Failed to parse generated code response".

(** [parseCodeGenerationResponse]: the [catch] logs the cause and throws a
    fresh error. *)
Definition parseCodeGenerationResponse (response : string)
  : outcome (list GeneratedFile) :=
  match parse_try response with
  | Ok files => Ok files
  | Throw _ => Throw (Error parse_failure_message)
  | OutOfFuel => OutOfFuel
  end.

(** [Array.isArray(v)] *)
Definition is_array (v : jsval) : bool :=
  match v with Some (JArray _) => true | _ => false end.

(** The response that is exactly the object with an empty files array. *)
Definition empty_files_response : string := "{" ++ quoted "files" ++ ":[]}".

End Parser.


(** ** The effect monad of the asynchronous code *)

Module Flow.
Import Js Parser.
Export Status.

(** *** Records of the datastore (the Prisma models) *)

Inductive DeploymentStatus :=
| DEP_PENDING | DEP_BUILDING | DEP_SUCCESS | DEP_FAILED | DEP_CANCELLED.

#[global] Instance DeploymentStatus_eq_dec : EqDecision DeploymentStatus.
Proof. solve_decision. Defined.

Record TechStackItem := {
  ts_name : string;
  ts_category : string;
  ts_version : option string
}.

(** A row of the project table, without its primary key: the table is the
    map from [id] to the row, so the [project.id] of a row found by
    [findUnique({ where: { id } })] is that [id]. *)
Record Project := {
  p_ownerId : string;
  p_name : string;
  p_description : option string;
  p_techStack : list TechStackItem;
  p_prompt : option string;
  p_status : ProjectStatus;
  p_generatedFiles : option (list GeneratedFile);
  p_githubRepo : option string;
  p_deploymentUrl : option string;
  p_lastDeployedAt : option Z;
  p_version : Z
}.

Record CodeGeneration := {
  cg_projectId : string;
  cg_prompt : string;
  cg_model : string;
  cg_status : GenerationStatus;
  cg_output : option (list GeneratedFile);
  cg_tokenUsage : option (Z * Z);
  cg_durationMs : option Z;
  cg_errorMessage : option string;
  cg_completedAt : option Z
}.

Record Deployment := {
  d_projectId : string;
  d_provider : string;
  d_status : DeploymentStatus;
  d_url : option string;
  d_errorMessage : option string;
  d_completedAt : option Z
}.

Inductive AuditSeverity := SEV_DEBUG | SEV_INFO | SEV_WARNING | SEV_ERROR.

Record AuditLog := {
  a_userId : option string;
  a_action : string;
  a_resource : string;
  a_resourceId : option string;
  a_newValue : list (string * string);
  a_details : list (string * string);
  a_severity : AuditSeverity;
  a_category : option string
}.

Record Datastore := {
  projects : gmap string Project;
  codeGenerations : gmap string CodeGeneration;
  deployments : gmap string Deployment;
  auditLogs : list AuditLog
}.

(** The [data] argument of [db.project.update]: a field left [None] is not
    written ([undefined] in Prisma); [upd_version_increment] is
    [version: { increment: n }]. *)
Record ProjectUpdate := {
  upd_status : option ProjectStatus;
  upd_generatedFiles : option (list GeneratedFile);
  upd_deploymentUrl : option string;
  upd_githubRepo : option string;
  upd_lastDeployedAt : option Z;
  upd_version_increment : option Z
}.

Definition status_update (s : ProjectStatus) : ProjectUpdate :=
  {| upd_status := Some s; upd_generatedFiles := None; upd_deploymentUrl := None;
     upd_githubRepo := None; upd_lastDeployedAt := None;
     upd_version_increment := None |}.

Definition or_keep {A} (new : option A) (old : A) : A :=
  match new with Some x => x | None => old end.

Definition or_keep_opt {A} (new : option A) (old : option A) : option A :=
  match new with Some x => Some x | None => old end.

Definition apply_project_update (u : ProjectUpdate) (p : Project) : Project :=
  {| p_ownerId := p_ownerId p;
     p_name := p_name p;
     p_description := p_description p;
     p_techStack := p_techStack p;
     p_prompt := p_prompt p;
     p_status := or_keep (upd_status u) (p_status p);
     p_generatedFiles := or_keep_opt (upd_generatedFiles u) (p_generatedFiles p);
     p_githubRepo := or_keep_opt (upd_githubRepo u) (p_githubRepo p);
     p_deploymentUrl := or_keep_opt (upd_deploymentUrl u) (p_deploymentUrl p);
     p_lastDeployedAt := or_keep_opt (upd_lastDeployedAt u) (p_lastDeployedAt p);
     p_version := p_version p + or_keep (upd_version_increment u) 0 |}.

(** *** Events: every call that leaves the process *)

(** The [data] of [db.codeGeneration.update] and [db.deployment.update]. *)
Record CodeGenerationUpdate := {
  cgu_status : option GenerationStatus;
  cgu_output : option (list GeneratedFile);
  cgu_tokenUsage : option (Z * Z);
  cgu_durationMs : option Z;
  cgu_errorMessage : option string;
  cgu_completedAt : option Z
}.

Definition apply_codeGeneration_update (u : CodeGenerationUpdate)
    (c : CodeGeneration) : CodeGeneration :=
  {| cg_projectId := cg_projectId c;
     cg_prompt := cg_prompt c;
     cg_model := cg_model c;
     cg_status := or_keep (cgu_status u) (cg_status c);
     cg_output := or_keep_opt (cgu_output u) (cg_output c);
     cg_tokenUsage := or_keep_opt (cgu_tokenUsage u) (cg_tokenUsage c);
     cg_durationMs := or_keep_opt (cgu_durationMs u) (cg_durationMs c);
     cg_errorMessage := or_keep_opt (cgu_errorMessage u) (cg_errorMessage c);
     cg_completedAt := or_keep_opt (cgu_completedAt u) (cg_completedAt c) |}.

Record DeploymentUpdate := {
  du_status : option DeploymentStatus;
  du_url : option string;
  du_errorMessage : option string;
  du_completedAt : option Z
}.

Definition apply_deployment_update (u : DeploymentUpdate) (d : Deployment)
  : Deployment :=
  {| d_projectId := d_projectId d;
     d_provider := d_provider d;
     d_status := or_keep (du_status u) (d_status d);
     d_url := or_keep_opt (du_url u) (d_url d);
     d_errorMessage := or_keep_opt (du_errorMessage u) (d_errorMessage d);
     d_completedAt := or_keep_opt (du_completedAt u) (d_completedAt d) |}.

Inductive db_query :=
| ProjectFindUnique (id : string)
| ProjectUpdateQ (id : string) (data : ProjectUpdate)
| CodeGenerationCreate (data : CodeGeneration)
| CodeGenerationUpdateQ (id : string) (data : CodeGenerationUpdate)
| DeploymentCreate (data : Deployment)
| DeploymentUpdateQ (id : string) (data : DeploymentUpdate)
| AuditLogCreate (data : AuditLog).

Inductive git_command :=
| SimpleGit (baseDir : string)
| GitInit
| GitAddConfig (key value : string)
| GitAdd (pathspec : string)
| GitCommit (message : string)
| GitAddRemote (name url : string)
| GitPush (remote branch : string) (options : list string)
| GitLog.

Inductive octokit_call :=
| UsersGetAuthenticated
| ReposGet (owner repo : string)
| ReposCreateForAuthenticatedUser (name : string) (description : option string)
    (private auto_init : bool).

Inductive fs_call :=
| Mkdir (path : string)
| WriteFile (path : string) (data : jsval)
| Rm (path : string).

Inductive event :=
| EvSession
| EvRequestJson
| EvDb (q : db_query)
| EvLlm (provider : string) (model : option string) (prompt : string)
| EvOctokit (c : octokit_call)
| EvFs (c : fs_call)
| EvGit (c : git_command)
| EvFetch (method endpoint : string)
| EvSleep (ms : Z).

(** One line of the log of external calls: its number, what was called,
    and the exception it threw, if any. *)
Record entry := {
  call_no : nat;
  call_event : event;
  call_thrown : option exn
}.

(** *** The outside world *)

Record SessionUser := {
  su_id : string;
  su_role : string
}.

Record GenerateResult := {
  gr_content : string;
  gr_model : string;
  gr_inputTokens : Z;
  gr_outputTokens : Z;
  gr_durationMs : Z
}.

Inductive DeploymentState := QUEUED | BUILDING | READY | ERROR | CANCELED.

#[global] Instance DeploymentState_eq_dec : EqDecision DeploymentState.
Proof. solve_decision. Defined.

Definition state_text (s : DeploymentState) : string :=
  match s with
  | QUEUED => "QUEUED"
  | BUILDING => "BUILDING"
  | READY => "READY"
  | ERROR => "ERROR"
  | CANCELED => "CANCELED"
  end.

Record VercelProject := {
  vp_id : string;
  vp_name : string
}.

Record VercelDeployment := {
  vd_id : string;
  vd_url : string;
  vd_state : DeploymentState
}.

Record HttpResponse := {
  resp_ok : bool;
  resp_status : N;
  resp_error_json : string;        (* JSON.stringify of the error payload *)
  resp_project : VercelProject;    (* the payload read as a project *)
  resp_deployment : VercelDeployment  (* the payload read as a deployment *)
}.

(** The oracle.  Call number [n] is the [n]-th external call of the run;
    [fault n ev] says whether that call, being [ev], throws, and the other
    fields give what it returns when it does not. *)
Record Env := {
  getenv : string -> option string;     (* process.env *)
  tmpdir : string;                      (* os.tmpdir() *)
  fault : nat -> event -> option exn;
  latency : nat -> N;                   (* milliseconds taken by call n *)
  llm_result : nat -> GenerateResult;
  github_login : nat -> string;
  git_latest_hash : nat -> option string;
  http_response : nat -> HttpResponse
}.

(** The state of a run.  [trace] lists the external calls, most recent
    first; [invoked] is a ghost log of the adapter entry points entered
    (what a test spy would record); [fs] is the set of existing paths. *)
Record World := {
  tick : nat;
  trace : list entry;
  invoked : list string;
  now : Z;
  fs : gset string;
  db : Datastore
}.

Definition M (A : Type) : Type := Env -> World -> outcome A * World.

Definition ret {A} (a : A) : M A := fun _ w => (Ok a, w).

Definition throw {A} (e : exn) : M A := fun _ w => (Throw e, w).

Definition bind {A B} (m : M A) (k : A -> M B) : M B :=
  fun env w =>
    match m env w with
    | (Ok a, w') => k a env w'
    | (Throw e, w') => (Throw e, w')
    | (OutOfFuel, w') => (OutOfFuel, w')
    end.

#[global] Instance M_ret : MRet M := @ret.
#[global] Instance M_bind : MBind M := fun A B k m => bind m k.

(** [try { body } catch (e) { handler e }] *)
Definition try_catch {A} (body : M A) (handler : exn -> M A) : M A :=
  fun env w =>
    match body env w with
    | (Throw e, w') => handler e env w'
    | r => r
    end.

(** [try { body } finally { cleanup }]: the cleanup runs on both
    completions of the body, and its own exception, if any, replaces the
    completion of the body. *)
Definition try_finally {A} (body : M A) (cleanup : M unit) : M A :=
  fun env w =>
    match body env w with
    | (OutOfFuel, w') => (OutOfFuel, w')
    | (r, w') =>
        match cleanup env w' with
        | (Ok _, w'') => (r, w'')
        | (Throw e, w'') => (Throw e, w'')
        | (OutOfFuel, w'') => (OutOfFuel, w'')
        end
    end.

Definition ask : M Env := fun env w => (Ok env, w).
Definition get : M World := fun _ w => (Ok w, w).

(** [Date.now()] *)
Definition Date_now : M Z := fun _ w => (Ok (now w), w).

(** [process.env[name]]: [None] is [undefined]. *)
Definition process_env (name : string) : M (option string) :=
  fun env w => (Ok (getenv env name), w).

(** Truthiness of an optional string: [undefined] and the empty string are
    falsy. *)
Definition truthy (o : option string) : option string :=
  match o with
  | Some "" | None => None
  | Some s => Some s
  end.

Definition is_truthy (o : option string) : bool :=
  match truthy o with Some _ => true | None => false end.

(** [a || b] on optional strings. *)
Definition or_string (a b : option string) : option string :=
  match truthy a with
  | Some s => Some s
  | None => b
  end.

(** The bookkeeping of one external call: it is logged, numbered, and
    takes time. *)
Definition record_call (env : Env) (ev : event) (thrown : option exn)
    (w : World) : World :=
  {| tick := S (tick w);
     trace := {| call_no := tick w; call_event := ev; call_thrown := thrown |}
                :: trace w;
     invoked := invoked w;
     now := now w + Z.of_N (latency env (tick w));
     fs := fs w;
     db := db w |}.

(** An external call that may throw; it yields its call number, at which
    the oracle holds the answer. *)
Definition call (ev : event) : M nat :=
  fun env w =>
    match fault env (tick w) ev with
    | Some e => (Throw e, record_call env ev (Some e) w)
    | None => (Ok (tick w), record_call env ev None w)
    end.

(** An external call that cannot throw. *)
Definition call_total (ev : event) : M nat :=
  fun env w => (Ok (tick w), record_call env ev None w).

Definition enter (fn : string) : M unit :=
  fun _ w =>
    (Ok tt, {| tick := tick w; trace := trace w; invoked := fn :: invoked w;
               now := now w; fs := fs w; db := db w |}).

Definition set_fs (f : gset string -> gset string) : M unit :=
  fun _ w =>
    (Ok tt, {| tick := tick w; trace := trace w; invoked := invoked w;
               now := now w; fs := f (fs w); db := db w |}).

Definition set_db (f : Datastore -> Datastore) : M unit :=
  fun _ w =>
    (Ok tt, {| tick := tick w; trace := trace w; invoked := invoked w;
               now := now w; fs := fs w; db := f (db w) |}).

Definition set_now (t : Z) : M unit :=
  fun _ w =>
    (Ok tt, {| tick := tick w; trace := trace w; invoked := invoked w;
               now := t; fs := fs w; db := db w |}).

(** [await new Promise((resolve) => setTimeout(resolve, ms))]: the timer
    fires after at least [ms] milliseconds. *)
Definition sleep (ms : Z) : M unit :=
  _ ← call_total (EvSleep ms);
  t ← Date_now;
  set_now (t + ms).

(** *** Datastore operations (the Prisma client [db]) *)

Definition not_found : exn := Error "Record to update not found.".

Definition db_project_findUnique (id : string) : M (option Project) :=
  _ ← call (EvDb (ProjectFindUnique id));
  w ← get;
  mret (projects (db w) !! id).

Definition db_project_update (id : string) (data : ProjectUpdate) : M unit :=
  _ ← call (EvDb (ProjectUpdateQ id data));
  w ← get;
  match projects (db w) !! id with
  | None => throw not_found
  | Some p =>
      set_db (fun d =>
        {| projects := <[id := apply_project_update data p]> (projects d);
           codeGenerations := codeGenerations d;
           deployments := deployments d;
           auditLogs := auditLogs d |})
  end.

(** [create] stores the row under a generated id ([@default(cuid())]):
    an id that no row of the table has. *)
Definition db_codeGeneration_create (data : CodeGeneration) : M string :=
  _ ← call (EvDb (CodeGenerationCreate data));
  w ← get;
  let id := fresh (dom (codeGenerations (db w))) in
  _ ← set_db (fun d =>
    {| projects := projects d;
       codeGenerations := <[id := data]> (codeGenerations d);
       deployments := deployments d;
       auditLogs := auditLogs d |});
  mret id.

Definition db_codeGeneration_update (id : string) (data : CodeGenerationUpdate)
  : M unit :=
  _ ← call (EvDb (CodeGenerationUpdateQ id data));
  w ← get;
  match codeGenerations (db w) !! id with
  | None => throw not_found
  | Some c =>
      set_db (fun d =>
        {| projects := projects d;
           codeGenerations :=
             <[id := apply_codeGeneration_update data c]> (codeGenerations d);
           deployments := deployments d;
           auditLogs := auditLogs d |})
  end.

Definition db_deployment_create (data : Deployment) : M string :=
  _ ← call (EvDb (DeploymentCreate data));
  w ← get;
  let id := fresh (dom (deployments (db w))) in
  _ ← set_db (fun d =>
    {| projects := projects d;
       codeGenerations := codeGenerations d;
       deployments := <[id := data]> (deployments d);
       auditLogs := auditLogs d |});
  mret id.

Definition db_deployment_update (id : string) (data : DeploymentUpdate)
  : M unit :=
  _ ← call (EvDb (DeploymentUpdateQ id data));
  w ← get;
  match deployments (db w) !! id with
  | None => throw not_found
  | Some c =>
      set_db (fun d =>
        {| projects := projects d;
           codeGenerations := codeGenerations d;
           deployments := <[id := apply_deployment_update data c]> (deployments d);
           auditLogs := auditLogs d |})
  end.

Definition db_auditLog_create (data : AuditLog) : M unit :=
  _ ← call (EvDb (AuditLogCreate data));
  set_db (fun d =>
    {| projects := projects d;
       codeGenerations := codeGenerations d;
       deployments := deployments d;
       auditLogs := data :: auditLogs d |}).

(** A pure computation that may throw, run inside the monad. *)
Definition lift {A} (o : outcome A) : M A := fun _ w => (o, w).

(** The calls a run added to the trace, oldest first. *)
Definition entries_since (w w' : World) : list entry :=
  rev (take (length (trace w') - length (trace w)) (trace w')).

Definition invoked_since (w w' : World) : list string :=
  rev (take (length (invoked w') - length (invoked w)) (invoked w')).

(** *** Observing runs *)

(** [wp m env w Q]: the run of [m] from [w] ends in a completion and a
    world that satisfy [Q]. *)
Definition wp {A} (m : M A) (env : Env) (w : World)
    (Q : outcome A -> World -> Prop) : Prop :=
  Q (m env w).1 (m env w).2.
#[global] Arguments wp : simpl never.

(** The trace [t'] is [t] with calls put in front that all satisfy [P]. *)
Definition grows (P : entry -> Prop) (t t' : list entry) : Prop :=
  exists es, t' = (es ++ t)%list /\ Forall P es.

(** The calls of the two adapters: GitHub client, file system, git,
    HTTP exchanges with the deploy target, and the timer. *)
Definition adapter_event (e : entry) : Prop :=
  match call_event e with
  | EvOctokit _ | EvFs _ | EvGit _ | EvFetch _ _ | EvSleep _ => True
  | _ => False
  end.

(** What every run of adapter code keeps: it ends, it leaves the datastore
    alone, and its external calls are adapter calls. *)
Definition adapter_frame {A} (w : World) (r : outcome A) (w' : World) : Prop :=
  r <> OutOfFuel /\ db w' = db w /\ invoked w' = invoked w
  /\ grows adapter_event (trace w) (trace w').

End Flow.

(** ** The deploy target adapter ([src/lib/deploy/vercel.ts]) *)

Module Vercel.
Import Js Flow.

Record DeploymentConfig := {
  dc_provider : string;
  dc_projectName : string;
  dc_envVariables : option (list (string * string));
  dc_buildCommand : option string;
  dc_outputDirectory : option string
}.

Record DeploymentResult := {
  dr_success : bool;
  dr_url : option string;
  dr_deploymentId : option string;
  dr_logs : option (list string);
  dr_error : option string
}.

Definition failure_result (message : string) : DeploymentResult :=
  {| dr_success := false; dr_url := None; dr_deploymentId := None;
     dr_logs := None; dr_error := Some message |}.

Record VercelService := {
  vs_token : string
}.

(** [new VercelService(token?)] *)
Definition new_VercelService (token : option string) : M VercelService :=
  envToken ← process_env "VERCEL_TOKEN";
  match truthy (or_string token envToken) with
  | Some authToken => mret {| vs_token := authToken |}
  | None => throw (Error "Vercel token not configured")
  end.

(** [VercelService.request]: one HTTP exchange, which throws when [fetch]
    or the reading of the body rejects, and otherwise gives either the
    error built from a non-ok response or the payload.  The log keeps the
    method and the endpoint of the exchange, not the request body. *)
Definition request (self : VercelService) (method endpoint : string)
  : M HttpResponse :=
  n ← call (EvFetch method endpoint);
  env ← ask;
  let response := http_response env n in
  if resp_ok response then mret response
  else
    throw (Error ("Vercel API error: " ++ pretty (resp_status response)
                    ++ " - " ++ resp_error_json response)).

(** [(error as Error).message?.includes(s)] *)
Definition message_includes (e : exn) (s : string) : bool :=
  match e with
  | Thrown _ => false
  | _ => includes (message_or "" e) s
  end.

Definition getProject (self : VercelService) (nameOrId : string)
  : M (option VercelProject) :=
  try_catch
    (r ← request self "GET" ("/v9/projects/" ++ nameOrId);
     mret (Some (resp_project r)))
    (fun error =>
       if message_includes error "404" then mret None
       else throw error).

Definition createProject (self : VercelService) (name : string)
    (buildCommand outputDirectory : option string) : M VercelProject :=
  r ← request self "POST" "/v10/projects";
  mret (resp_project r).

Definition setEnvironmentVariables (self : VercelService) (projectId : string)
    (envVars : list (string * string)) : M unit :=
  _ ← request self "POST" ("/v10/projects/" ++ projectId ++ "/env");
  mret tt.

(** [VercelService.deploy] *)
Definition deploy (self : VercelService) (projectId target : string)
  : M VercelDeployment :=
  r ← request self "POST" "/v13/deployments";
  mret (resp_deployment r).

Definition getDeployment (self : VercelService) (deploymentId : string)
  : M VercelDeployment :=
  r ← request self "GET" ("/v13/deployments/" ++ deploymentId);
  mret (resp_deployment r).

Definition is_state (s : DeploymentState) (d : VercelDeployment) : bool :=
  bool_decide (vd_state d = s).

Definition timeout_message : string := "Deployment timed out".

Definition failed_state_message (s : DeploymentState) : string :=
  "Deployment failed with state: " ++ state_text s.

(** The [while] loop of [waitForDeployment], one unit of fuel per test of
    its condition. *)
Fixpoint wait_loop (fuel : nat) (self : VercelService) (deploymentId : string)
    (startTime timeout : Z) : M VercelDeployment :=
  match fuel with
  | O => fun _ w => (OutOfFuel, w)
  | S fuel' =>
      t ← Date_now;
      if t - startTime <? timeout then
        deployment ← getDeployment self deploymentId;
        if is_state READY deployment then mret deployment
        else if is_state ERROR deployment || is_state CANCELED deployment then
          throw (Error (failed_state_message (vd_state deployment)))
        else
          _ ← sleep 5000;
          wait_loop fuel' self deploymentId startTime timeout
      else throw (Error timeout_message)
  end.

(** Enough fuel for a loop that sleeps 5000 ms per round. *)
Definition wait_fuel (timeout : Z) : nat := Z.to_nat (timeout / 5000) + 2.

Definition default_timeout : Z := 300000.

(** [waitForDeployment(deploymentId, timeout = 300000)] *)
Definition waitForDeployment (self : VercelService) (deploymentId : string)
    (timeout : option Z) : M VercelDeployment :=
  let timeout := default default_timeout timeout in
  startTime ← Date_now;
  wait_loop (wait_fuel timeout) self deploymentId startTime timeout.

Definition unknown_error : string := "Unknown error occurred".

(** [deployToVercel(config)] *)
Definition deployToVercel (config : DeploymentConfig) : M DeploymentResult :=
  _ ← enter "deployToVercel";
  try_catch
    (vercel ← new_VercelService None;
     found ← getProject vercel (dc_projectName config);
     project ← match found with
               | Some p => mret p
               | None => createProject vercel (dc_projectName config)
                           (dc_buildCommand config) (dc_outputDirectory config)
               end;
     _ ← match dc_envVariables config with
         | Some vars => setEnvironmentVariables vercel (vp_id project) vars
         | None => mret tt
         end;
     deployment ← deploy vercel (vp_id project) "production";
     finalDeployment ← waitForDeployment vercel (vd_id deployment) None;
     mret {| dr_success := true;
             dr_url := Some ("https://" ++ vd_url finalDeployment);
             dr_deploymentId := Some (vd_id finalDeployment);
             dr_logs := Some [];
             dr_error := None |})
    (fun error => mret (failure_result (message_or unknown_error error))).

(** *** The polls of a run *)

Definition poll_endpoint (deploymentId : string) : string :=
  "/v13/deployments/" ++ deploymentId.

Definition is_poll (deploymentId : string) (e : entry) : bool :=
  match call_event e with
  | EvFetch method endpoint =>
      String.eqb method "GET" && String.eqb endpoint (poll_endpoint deploymentId)
  | _ => false
  end.

(** The answer of a poll, read off its log entry: the deployment the
    status endpoint returned, or [None] when the exchange failed. *)
Definition poll_answer (env : Env) (e : entry) : option VercelDeployment :=
  match call_thrown e with
  | Some _ => None
  | None =>
      let response := http_response env (call_no e) in
      if resp_ok response then Some (resp_deployment response) else None
  end.

Definition polled (env : Env) (deploymentId : string) (es : list entry)
  : list (option VercelDeployment) :=
  map (poll_answer env) (List.filter (is_poll deploymentId) es).

Definition in_progress (o : option VercelDeployment) : Prop :=
  exists d, o = Some d /\ (vd_state d = QUEUED \/ vd_state d = BUILDING).

(** How a run of the loop ends, given the polls [pre ++ last] it made. *)
Definition wait_post (env : Env) (deploymentId : string) (startTime timeout : Z)
    (fuel : nat) (w : World) (r : outcome VercelDeployment) (w' : World) : Prop :=
  exists es pre last,
    trace w' = (es ++ trace w)%list
    /\ Forall adapter_event es
    /\ polled env deploymentId (rev es) = (pre ++ last)%list
    /\ Forall in_progress pre
    /\ db w' = db w /\ invoked w' = invoked w /\ fs w' = fs w
    /\ now w + 5000 * Z.of_nat (length pre) <= now w'
    /\ ((pre ++ last)%list <> [] ->
        5000 * (Z.of_nat (length (pre ++ last)%list) - 1) + (now w - startTime)
        < timeout)
    /\ match r with
       | Ok d => last = [Some d] /\ vd_state d = READY
       | Throw e =>
           (last = [] /\ e = Error timeout_message /\ timeout <= now w' - startTime)
           \/ (exists d, last = [Some d]
                 /\ (vd_state d = ERROR \/ vd_state d = CANCELED)
                 /\ e = Error (failed_state_message (vd_state d)))
           \/ last = [None]
       | OutOfFuel => last = [] /\ length pre = fuel
       end.

(** What every run of a deploy entry point guarantees: it returns a result
    rather than throwing, a failed result is the structured failure (an
    error message, no URL), a successful one has a URL, and the run is
    adapter code. *)
Definition structured (w : World) (r : outcome DeploymentResult) (w' : World)
  : Prop :=
  (exists x, r = Ok x
     /\ (dr_success x = false -> exists m, x = failure_result m)
     /\ (dr_success x = true -> exists u, dr_url x = Some u))
  /\ db w' = db w
  /\ grows adapter_event (trace w) (trace w').

(** *** The course of a wait *)

(** The event of a poll of the deployment. *)
Definition poll_event (deploymentId : string) : event :=
  EvFetch "GET" (poll_endpoint deploymentId).

(** [k] rounds of the loop that go on: a poll, then a sleep of 5 s. *)
Fixpoint rounds (deploymentId : string) (k : nat) : list event :=
  match k with
  | O => []
  | S k' => poll_event deploymentId :: EvSleep 5000 :: rounds deploymentId k'
  end.

(** The time a call took: its latency and, for the timer, the delay. *)
Definition duration (env : Env) (e : entry) : Z :=
  Z.of_N (latency env (call_no e))
  + match call_event e with EvSleep ms => ms | _ => 0 end.

Definition total_duration (env : Env) (es : list entry) : Z :=
  foldr (fun e t => duration env e + t) 0 es.

(** The error of an HTTP exchange that failed: what [fetch] threw, or the
    error [request] builds from a response that is not ok. *)
Definition exchange_error (env : Env) (e : entry) : option exn :=
  match call_event e with
  | EvFetch _ _ =>
      match call_thrown e with
      | Some x => Some x
      | None =>
          let response := http_response env (call_no e) in
          if resp_ok response then None
          else Some (Error ("Vercel API error: " ++ pretty (resp_status response)
                              ++ " - " ++ resp_error_json response))
      end
  | _ => None
  end.

(** *** The course of a deployment *)

(** A poll of the state of a deployment. *)
Definition is_status_poll (e : entry) : Prop :=
  exists deploymentId, call_event e = poll_event deploymentId.

(** The lookup of the project found none: the exchange failed with an
    error whose message contains 404. *)
Definition lookup_missing (env : Env) (name : string) (e : entry) : Prop :=
  call_event e = EvFetch "GET" ("/v9/projects/" ++ name)
  /\ exists err, exchange_error env e = Some err
                 /\ message_includes err "404" = true.

(** A call after which the run goes on: an exchange that did not fail, or
    the lookup that found no project; and if it is a poll, its answer is a
    state in progress. *)
Definition passed (env : Env) (name : string) (e : entry) : Prop :=
  (exchange_error env e = None \/ lookup_missing env name e)
  /\ (is_status_poll e -> in_progress (poll_answer env e)).

(** The result built from the deployment that became ready. *)
Definition success_result (d : VercelDeployment) : DeploymentResult :=
  {| dr_success := true;
     dr_url := Some ("https://" ++ vd_url d);
     dr_deploymentId := Some (vd_id d);
     dr_logs := Some [];
     dr_error := None |}.

(** The last call [e] of a run of [deployToVercel] and the result [x] it
    leads to: an exchange that failed, a poll that found a terminal
    state, or the sleep after which the time was up. *)
Definition ending (env : Env) (name : string) (e : entry)
    (x : DeploymentResult) : Prop :=
  (exists err, exchange_error env e = Some err
               /\ ~ lookup_missing env name e
               /\ x = failure_result (message_or unknown_error err))
  \/ (is_status_poll e
      /\ exists d, poll_answer env e = Some d
           /\ ((vd_state d = READY /\ x = success_result d)
               \/ ((vd_state d = ERROR \/ vd_state d = CANCELED)
                   /\ x = failure_result (failed_state_message (vd_state d)))))
  \/ (call_event e = EvSleep 5000 /\ x = failure_result timeout_message).

(** The calls [es] of a run of [deployToVercel], most recent first, and
    its result. *)
Definition vercel_shape (env : Env) (config : DeploymentConfig)
    (x : DeploymentResult) (es : list entry) : Prop :=
  (es = [] /\ x = failure_result "Vercel token not configured")
  \/ (exists e pre, es = e :: pre
        /\ Forall (passed env (dc_projectName config)) pre
        /\ ending env (dc_projectName config) e x).

End Vercel.

(** ** The source host adapter ([GitHubService], [createAndPushToGitHub]) *)

Module GitHub.
Import Js Parser Flow.

Record GitHubService := {
  gh_token : string
}.

(** [new GitHubService(token?)] *)
Definition new_GitHubService (token : option string) : M GitHubService :=
  envToken ← process_env "GITHUB_TOKEN";
  match truthy (or_string token envToken) with
  | Some authToken => mret {| gh_token := authToken |}
  | None => throw (Error "GitHub token not configured")
  end.

(** [getAuthenticatedUser()], of which only [login] is read. *)
Definition getAuthenticatedUser (self : GitHubService) : M string :=
  n ← call (EvOctokit UsersGetAuthenticated);
  env ← ask;
  mret (github_login env n).

Definition createRepository (self : GitHubService) (name : string)
    (description : option string) (isPrivate autoInit : option bool) : M unit :=
  _ ← call (EvOctokit (ReposCreateForAuthenticatedUser name description
                         (default true isPrivate) (default false autoInit)));
  mret tt.

(** [repoExists]: a 404 of the lookup means no, any other error is
    rethrown. *)
Definition repoExists (self : GitHubService) (owner repo : string) : M bool :=
  try_catch
    (_ ← call (EvOctokit (ReposGet owner repo)); mret true)
    (fun error =>
       match error with
       | RequestError 404 _ => mret false
       | _ => throw error
       end).

(** [s.split(sep)] for a one-character separator. *)
Fixpoint split (sep : ascii) (s : string) : list string :=
  match s with
  | EmptyString => [""]
  | String c r =>
      if Ascii.eqb c sep then "" :: split sep r
      else
        match split sep r with
        | h :: t => String c h :: t
        | [] => [String c ""]
        end
  end.

Definition slash : ascii := ascii_of_nat 47.

(** [p.split("/").slice(0, -1).join("/")] *)
Definition parent_of (p : string) : string :=
  String.concat "/" (removelast (split slash p)).

(** [path.join(a, b)], without the normalisation of dot segments. *)
Definition join (a b : string) : string :=
  if String.eqb b "" then a else a ++ "/" ++ b.

(** Is [p] the directory [dir] or a path below it. *)
Definition under (dir p : string) : bool :=
  String.eqb p dir || String.prefix (dir ++ "/") p.

Definition mkdir (path : string) : M unit :=
  _ ← call (EvFs (Mkdir path));
  set_fs (fun paths => {[path]} ∪ paths).

Definition writeFile (path : string) (data : jsval) : M unit :=
  _ ← call (EvFs (WriteFile path data));
  set_fs (fun paths => {[path]} ∪ paths).

(** [rm(path, { recursive: true, force: true })]: when it succeeds, the
    path and everything below it are gone.  [force] only silences a path
    that does not exist, so the call can still throw (a permission, a busy
    file); the paths are then left as they were (what a failed removal has
    already removed is not modelled). *)
Definition rm (path : string) : M unit :=
  _ ← call (EvFs (Rm path));
  set_fs (filter (fun p => under path p = false)).

Definition git (c : git_command) : M nat := call (EvGit c).

(** One round of the [for (const file of files)] loop.  [path.join] and
    [split] throw a [TypeError] on a path that is not a string. *)
Definition write_file (tempDir : string) (file : GeneratedFile) : M unit :=
  match path file with
  | Some (JString p) =>
      let filePath := join tempDir p in
      let dirPath := join tempDir (parent_of p) in
      _ ← (if negb (String.eqb dirPath tempDir) then mkdir dirPath else mret tt);
      writeFile filePath (content file)
  | _ => throw (Error "The path argument must be of type string")
  end.

Fixpoint write_files (tempDir : string) (files : list GeneratedFile) : M unit :=
  match files with
  | [] => mret tt
  | file :: rest =>
      _ ← write_file tempDir file;
      write_files tempDir rest
  end.

Record PushResult := {
  commitSha : string;
  pr_url : string
}.

(** [`${process.env.GITHUB_TOKEN}`] *)
Definition template_text (o : option string) : string :=
  default "undefined" o.

(** [GitHubService.pushFiles(config, options)] *)
Definition pushFiles (self : GitHubService) (owner repo : string)
    (branch : option string) (files : list GeneratedFile)
    (commitMessage : string) : M PushResult :=
  let branch := default "main" branch in
  env ← ask;
  t ← Date_now;
  let tempDir := join (tmpdir env) ("project-scaffolder-" ++ pretty t) in
  try_finally
    (_ ← mkdir tempDir;
     _ ← git (SimpleGit tempDir);
     _ ← git GitInit;
     _ ← git (GitAddConfig "user.email" "project-scaffolder@example.com");
     _ ← git (GitAddConfig "user.name" "Project Scaffolder");
     _ ← write_files tempDir files;
     _ ← git (GitAdd ".");
     _ ← git (GitCommit commitMessage);
     token ← process_env "GITHUB_TOKEN";
     let remoteUrl := "https://" ++ template_text token ++ "@github.com/"
                        ++ owner ++ "/" ++ repo ++ ".git" in
     _ ← git (GitAddRemote "origin" remoteUrl);
     _ ← try_catch
           (git (GitPush "origin" branch ["--set-upstream"]))
           (fun _ => git (GitPush "origin" branch ["--set-upstream"; "--force"]));
     n ← git GitLog;
     mret {| commitSha := default "" (truthy (git_latest_hash env n));
             pr_url := "https://github.com/" ++ owner ++ "/" ++ repo |})
    (rm tempDir).

Record GitHubResult := {
  ghr_success : bool;
  ghr_repoUrl : option string;
  ghr_error : option string
}.

Definition unknown_error : string := "Unknown error occurred".

(** [createAndPushToGitHub(options)] *)
Definition createAndPushToGitHub (repoName : string) (description : option string)
    (files : list GeneratedFile) (isPrivate : option bool) : M GitHubResult :=
  _ ← enter "createAndPushToGitHub";
  try_catch
    (github ← new_GitHubService None;
     login ← getAuthenticatedUser github;
     exists_ ← repoExists github login repoName;
     _ ← (if negb exists_ then
            createRepository github repoName description
              (Some (default true isPrivate)) (Some false)
          else mret tt);
     result ← pushFiles github login repoName None files
                "Initial commit from Project Scaffolder";
     mret {| ghr_success := true;
             ghr_repoUrl := Some (pr_url result);
             ghr_error := None |})
    (fun error =>
       mret {| ghr_success := false;
               ghr_repoUrl := None;
               ghr_error := Some (message_or unknown_error error) |}).

(** The temporary directory of an invocation that starts in world [w]. *)
Definition tempDir_of (env : Env) (w : World) : string :=
  join (tmpdir env) ("project-scaffolder-" ++ pretty (now w)).

End GitHub.

(** ** The deployment pipeline ([src/lib/deploy/index.ts]) *)

Module Deploy.
Import Js Parser Flow.

(** [getConfiguredProviders()] of the deploy module. *)
Definition getConfiguredProviders : M (list string) :=
  vercel ← process_env "VERCEL_TOKEN";
  netlify ← process_env "NETLIFY_TOKEN";
  github ← process_env "GITHUB_TOKEN";
  mret ((if is_truthy vercel then ["vercel"] else [])
          ++ (if is_truthy netlify then ["netlify"] else [])
          ++ (if is_truthy github then ["github-pages"] else []))%list.

Record DeployOptions := {
  do_provider : string;
  do_projectName : string;
  do_files : list GeneratedFile;
  do_envVariables : option (list (string * string));
  do_buildCommand : option string;
  do_outputDirectory : option string
}.

(** [deploy(options)]: the [switch] on the provider name. *)
Definition deploy (options : DeployOptions) : M Vercel.DeploymentResult :=
  _ ← enter "deploy";
  let provider := do_provider options in
  if String.eqb provider "vercel" then
    Vercel.deployToVercel
      {| Vercel.dc_provider := "vercel";
         Vercel.dc_projectName := do_projectName options;
         Vercel.dc_envVariables := do_envVariables options;
         Vercel.dc_buildCommand := do_buildCommand options;
         Vercel.dc_outputDirectory := do_outputDirectory options |}
  else if String.eqb provider "netlify" then
    mret (Vercel.failure_result "Netlify deployment not yet implemented")
  else if String.eqb provider "github-pages" then
    mret (Vercel.failure_result "GitHub Pages deployment not yet implemented")
  else
    mret (Vercel.failure_result ("Unknown deployment provider: " ++ provider)).

Record PipelineOptions := {
  po_projectName : string;
  po_description : option string;
  po_files : list GeneratedFile;
  po_deployProvider : string;
  po_envVariables : option (list (string * string));
  po_isPrivate : option bool
}.

Record PipelineResult := {
  success : bool;
  githubUrl : option string;
  deploymentUrl : option string;
  error : option string
}.

(** [fullDeploymentPipeline(options)] *)
Definition fullDeploymentPipeline (options : PipelineOptions) : M PipelineResult :=
  githubResult ← GitHub.createAndPushToGitHub (po_projectName options)
                   (po_description options) (po_files options)
                   (po_isPrivate options);
  if negb (GitHub.ghr_success githubResult) then
    mret {| success := false;
            githubUrl := None;
            deploymentUrl := None;
            error := Some ("GitHub setup failed: "
                             ++ GitHub.template_text (GitHub.ghr_error githubResult)) |}
  else
    deployResult ← deploy {| do_provider := po_deployProvider options;
                             do_projectName := po_projectName options;
                             do_files := po_files options;
                             do_envVariables := po_envVariables options;
                             do_buildCommand := None;
                             do_outputDirectory := None |};
    mret {| success := Vercel.dr_success deployResult;
            githubUrl := GitHub.ghr_repoUrl githubResult;
            deploymentUrl := Vercel.dr_url deployResult;
            error := Vercel.dr_error deployResult |}.

End Deploy.

(** ** The LLM provider adapter ([src/lib/ai/index.ts]) *)

Module AI.
Import Js Parser Flow.

(** The credential each provider reads when it is constructed. *)
Definition credential_variable (provider : string) : option string :=
  if String.eqb provider "anthropic" then Some "ANTHROPIC_API_KEY"
  else if String.eqb provider "openai" then Some "OPENAI_API_KEY"
  else if String.eqb provider "gemini" then Some "GOOGLE_AI_API_KEY"
  else None.

(** [getLLMProvider(provider)]: the provider object is represented by its
    name and by whether its client was built, which the constructor decides
    from the credential in the environment (the environment does not change
    during a run, so the lazily built singleton and a fresh object
    agree). *)
Definition getLLMProvider (provider : string) : M (string * bool) :=
  match credential_variable provider with
  | Some variable =>
      key ← process_env variable;
      mret (provider, is_truthy key)
  | None => throw (Error ("Unknown LLM provider: " ++ provider))
  end.

Definition getDefaultProvider : M (string * bool) :=
  configured ← process_env "DEFAULT_LLM_PROVIDER";
  getLLMProvider (default "anthropic" (truthy configured)).

(** [generate(prompt, options)] *)
Definition generate (prompt : string) (provider model : option string)
  : M GenerateResult :=
  p ← match truthy provider with
      | Some name => getLLMProvider name
      | None => getDefaultProvider
      end;
  let '(name, isConfigured) := p in
  if negb isConfigured then
    throw (Error ("Provider " ++ name ++ " is not configured"))
  else
    n ← call (EvLlm name model prompt);
    env ← ask;
    mret (llm_result env n).

(** [createCodeGenerationPrompt(projectDescription, techStack)] *)
Definition createCodeGenerationPrompt (projectDescription : string)
    (techStack : list string) (additionalInstructions : option string) : string :=
  "You are an expert software architect and developer. Generate a complete, production-ready project based on the following requirements.

## Project Description
" ++ projectDescription ++ "

## Technology Stack
" ++ String.concat ", " techStack ++ "

## Requirements
1. Generate all necessary files with complete, working code
2. Include proper error handling and input validation
3. Follow best practices for the chosen technologies
4. Include necessary configuration files (package.json, tsconfig.json, etc.)
5. Add appropriate comments and documentation
6. Ensure the code is secure and follows OWASP guidelines

" ++ match truthy additionalInstructions with
     | Some text => "## Additional Instructions
" ++ text
     | None => ""
     end ++ "

## Output Format
Respond with a JSON object containing a " ++ quoted "files" ++ " array. Each file should have:
- " ++ quoted "path" ++ ": The relative file path (e.g., " ++ quoted "src/index.ts" ++ ")
- " ++ quoted "content" ++ ": The complete file content as a string

Example:
{
  " ++ quoted "files" ++ ": [
    { " ++ quoted "path" ++ ": " ++ quoted "package.json" ++ ", "
  ++ quoted "content" ++ ": " ++ quoted "{...}" ++ " },
    { " ++ quoted "path" ++ ": " ++ quoted "src/index.ts" ++ ", "
  ++ quoted "content" ++ ": " ++ quoted "..." ++ " }
  ]
}

Generate the project now:".

End AI.

(** ** The route handlers ([POST /api/generate], [POST /api/deploy]) *)

Module Routes.
Import Js Parser Flow.

Inductive Body :=
| RespError (error : string) (message : option string)
| RespGenerated (generationId : string) (files : list GeneratedFile)
    (inputTokens outputTokens durationMs : Z)
| RespDeployed (deploymentId : string) (deploymentUrl githubUrl : option string).

(** [NextResponse.json(body, { status })] *)
Record Response := {
  status_code : nat;
  body : Body
}.

Definition json_error (error : string) (status : nat) : Response :=
  {| status_code := status; body := RespError error None |}.

(** What the request carries: the session [getServerSession] resolves to
    and the body [request.json()] yields. *)
Record Request (B : Type) := {
  req_session : option SessionUser;
  req_body : B
}.
Arguments req_session {B} _.
Arguments req_body {B} _.

Definition one_of (allowed : list string) (s : string) : bool :=
  existsb (String.eqb s) allowed.

(** A member of an object literal whose value may be [undefined]: such a
    member is dropped when the object is stored as JSON. *)
Definition member (key : string) (value : option string) : list (string * string) :=
  match value with
  | Some v => [(key, v)]
  | None => []
  end.

(** *** Audit helpers ([src/lib/compliance/audit.ts]) *)

Definition createAuditLog (data : AuditLog) : M unit :=
  db_auditLog_create data.

Definition audit_create (userId resource resourceId : string)
    (newValue : list (string * string)) : M unit :=
  createAuditLog
    {| a_userId := Some userId; a_action := "CREATE"; a_resource := resource;
       a_resourceId := Some resourceId; a_newValue := newValue; a_details := [];
       a_severity := SEV_INFO; a_category := Some "data_access" |}.

Definition audit_error (userId resource action error : string)
    (details : list (string * string)) : M unit :=
  createAuditLog
    {| a_userId := Some userId; a_action := action; a_resource := resource;
       a_resourceId := None; a_newValue := [];
       a_details := (details ++ [("error", error)])%list;
       a_severity := SEV_ERROR; a_category := Some "system" |}.

(** [project.ownerId !== session.user.id && session.user.role === "USER"] *)
Definition forbidden (project : Project) (user : SessionUser) : bool :=
  negb (String.eqb (p_ownerId project) (su_id user))
  && String.eqb (su_role user) "USER".

Definition unknown_error : string := "Unknown error".

(** *** [POST /api/generate] *)

Record GenerateBody := {
  gb_projectId : string;
  gb_prompt : option string;
  gb_provider : option string;
  gb_model : option string
}.

(** [generateSchema.parse(body)] *)
Definition generateSchema_parse (b : GenerateBody) : M GenerateBody :=
  let prompt_ok :=
    match gb_prompt b with
    | Some p => (1 <=? Z.of_nat (String.length p))
                && (Z.of_nat (String.length p) <=? 10000)
    | None => true
    end in
  let provider_ok :=
    match gb_provider b with
    | Some p => one_of ["anthropic"; "openai"; "gemini"] p
    | None => true
    end in
  if prompt_ok && provider_ok then mret b
  else throw (ZodError "Invalid input").

Definition newline : string := String (ascii_of_nat 10) "".

Definition text_or_empty (o : option string) : string := default "" (truthy o).

Definition POST_generate (request : Request GenerateBody) : M Response :=
  try_catch
    (_ ← call EvSession;
     match req_session request with
     | None => mret (json_error "Unauthorized" 401)
     | Some user =>
         _ ← call EvRequestJson;
         data ← generateSchema_parse (req_body request);
         let projectId := gb_projectId data in
         found ← db_project_findUnique projectId;
         match found with
         | None => mret (json_error "Project not found" 404)
         | Some project =>
             if forbidden project user then mret (json_error "Forbidden" 403)
             else
               _ ← db_project_update (projectId) (status_update GENERATING);
               let prompt :=
                 text_or_empty (or_string (gb_prompt data) (p_prompt project)) in
               codeGenId ← db_codeGeneration_create
                 {| cg_projectId := projectId;
                    cg_prompt := prompt;
                    cg_model := default "claude-sonnet-4-20250514"
                                  (truthy (gb_model data));
                    cg_status := GEN_PROCESSING;
                    cg_output := None; cg_tokenUsage := None;
                    cg_durationMs := None; cg_errorMessage := None;
                    cg_completedAt := None |};
               try_catch
                 (let techStack := map ts_name (p_techStack project) in
                  let fullPrompt :=
                    AI.createCodeGenerationPrompt
                      (p_name project ++ newline ++ newline
                         ++ text_or_empty (p_description project)
                         ++ newline ++ newline ++ prompt)
                      techStack None in
                  result ← AI.generate fullPrompt (gb_provider data) (gb_model data);
                  files ← lift (parseCodeGenerationResponse (gr_content result));
                  completedAt ← Date_now;
                  _ ← db_codeGeneration_update codeGenId
                        {| cgu_status := Some GEN_COMPLETED;
                           cgu_output := Some files;
                           cgu_tokenUsage :=
                             Some (gr_inputTokens result, gr_outputTokens result);
                           cgu_durationMs := Some (gr_durationMs result);
                           cgu_errorMessage := None;
                           cgu_completedAt := Some completedAt |};
                  _ ← db_project_update (projectId)
                        {| upd_status := Some GENERATED;
                           upd_generatedFiles := Some files;
                           upd_deploymentUrl := None; upd_githubRepo := None;
                           upd_lastDeployedAt := None;
                           upd_version_increment := None |};
                  _ ← audit_create (su_id user) "CodeGeneration" codeGenId
                        [("projectId", projectId);
                         ("model", gr_model result);
                         ("filesGenerated", pretty (List.length files))];
                  mret {| status_code := 200;
                          body := RespGenerated codeGenId files
                                    (gr_inputTokens result) (gr_outputTokens result)
                                    (gr_durationMs result) |})
                 (fun genError =>
                    _ ← db_codeGeneration_update codeGenId
                          {| cgu_status := Some GEN_FAILED;
                             cgu_output := None; cgu_tokenUsage := None;
                             cgu_durationMs := None;
                             cgu_errorMessage :=
                               Some (message_or unknown_error genError);
                             cgu_completedAt := None |};
                    _ ← db_project_update (projectId) (status_update FAILED);
                    _ ← audit_error (su_id user) "CodeGeneration" "GENERATE"
                          (message_or unknown_error genError)
                          [("projectId", projectId); ("codeGenId", codeGenId)];
                    throw genError)
         end
     end)
    (fun error =>
       if instanceof_ZodError error then
         mret (json_error "Invalid request body" 400)
       else
         mret {| status_code := 500;
                 body := RespError "Failed to generate code"
                           (Some (message_or unknown_error error)) |}).

(** *** [POST /api/deploy] *)

Record DeployBody := {
  dpb_projectId : string;
  dpb_provider : string;
  dpb_envVariables : option (list (string * string));
  dpb_createGitHubRepo : option bool;
  dpb_isPrivate : option bool
}.

Record DeployData := {
  dd_projectId : string;
  dd_provider : string;
  dd_envVariables : option (list (string * string));
  dd_createGitHubRepo : bool;
  dd_isPrivate : bool
}.

(** [deploySchema.parse(body)] *)
Definition deploySchema_parse (b : DeployBody) : M DeployData :=
  if one_of ["vercel"; "netlify"; "github-pages"] (dpb_provider b) then
    mret {| dd_projectId := dpb_projectId b;
            dd_provider := dpb_provider b;
            dd_envVariables := dpb_envVariables b;
            dd_createGitHubRepo := default true (dpb_createGitHubRepo b);
            dd_isPrivate := default true (dpb_isPrivate b) |}
  else throw (ZodError "Invalid enum value").

(** [name.toLowerCase().replace(/[^a-z0-9-]/g, "-")], exact on ASCII
    names. *)
Definition slug_char (c : ascii) : ascii :=
  let n := nat_of_ascii c in
  if (65 <=? n)%nat && (n <=? 90)%nat then ascii_of_nat (n + 32)
  else if ((97 <=? n)%nat && (n <=? 122)%nat)
          || ((48 <=? n)%nat && (n <=? 57)%nat) || (n =? 45)%nat then c
  else ascii_of_nat 45.

Fixpoint slug (name : string) : string :=
  match name with
  | EmptyString => EmptyString
  | String c r => String (slug_char c) (slug r)
  end.

(** [!project.generatedFiles || project.status !== "GENERATED"] *)
Definition not_deployable (project : Project) : bool :=
  match p_generatedFiles project with
  | None => true
  | Some _ => negb (bool_decide (p_status project = GENERATED))
  end.

Definition POST_deploy (request : Request DeployBody) : M Response :=
  try_catch
    (_ ← call EvSession;
     match req_session request with
     | None => mret (json_error "Unauthorized" 401)
     | Some user =>
         _ ← call EvRequestJson;
         data ← deploySchema_parse (req_body request);
         configuredProviders ← Deploy.getConfiguredProviders;
         if negb (one_of configuredProviders (dd_provider data)) then
           mret (json_error ("Provider " ++ dd_provider data ++ " is not configured") 400)
         else
           let projectId := dd_projectId data in
           found ← db_project_findUnique projectId;
           match found with
           | None => mret (json_error "Project not found" 404)
           | Some project =>
               if forbidden project user then mret (json_error "Forbidden" 403)
               else if not_deployable project then
                 mret (json_error
                         "Project must have generated code before deployment" 400)
               else
                 _ ← db_project_update (projectId) (status_update DEPLOYING);
                 deploymentId ← db_deployment_create
                   {| d_projectId := projectId;
                      d_provider := dd_provider data;
                      d_status := DEP_PENDING;
                      d_url := None; d_errorMessage := None;
                      d_completedAt := None |};
                 try_catch
                   (_ ← db_deployment_update deploymentId
                          {| du_status := Some DEP_BUILDING; du_url := None;
                             du_errorMessage := None; du_completedAt := None |};
                    let files := default [] (p_generatedFiles project) in
                    result ← Deploy.fullDeploymentPipeline
                      {| Deploy.po_projectName := slug (p_name project);
                         Deploy.po_description := truthy (p_description project);
                         Deploy.po_files := files;
                         Deploy.po_deployProvider := dd_provider data;
                         Deploy.po_envVariables := dd_envVariables data;
                         Deploy.po_isPrivate := Some (dd_isPrivate data) |};
                    if Deploy.success result then
                      completedAt ← Date_now;
                      _ ← db_deployment_update deploymentId
                            {| du_status := Some DEP_SUCCESS;
                               du_url := Deploy.deploymentUrl result;
                               du_errorMessage := None;
                               du_completedAt := Some completedAt |};
                      lastDeployedAt ← Date_now;
                      _ ← db_project_update (projectId)
                            {| upd_status := Some DEPLOYED;
                               upd_generatedFiles := None;
                               upd_deploymentUrl := Deploy.deploymentUrl result;
                               upd_githubRepo := Deploy.githubUrl result;
                               upd_lastDeployedAt := Some lastDeployedAt;
                               upd_version_increment := None |};
                      _ ← audit_create (su_id user) "Deployment" deploymentId
                            ([("projectId", projectId);
                              ("provider", dd_provider data)]
                               ++ member "url" (Deploy.deploymentUrl result)
                               ++ member "githubUrl" (Deploy.githubUrl result))%list;
                      mret {| status_code := 200;
                              body := RespDeployed deploymentId
                                        (Deploy.deploymentUrl result)
                                        (Deploy.githubUrl result) |}
                    else
                      throw (Error (default "Deployment failed"
                                      (truthy (Deploy.error result)))))
                   (fun deployError =>
                      completedAt ← Date_now;
                      _ ← db_deployment_update deploymentId
                            {| du_status := Some DEP_FAILED; du_url := None;
                               du_errorMessage :=
                                 Some (message_or unknown_error deployError);
                               du_completedAt := Some completedAt |};
                      _ ← db_project_update (projectId) (status_update FAILED);
                      _ ← audit_error (su_id user) "Deployment" "DEPLOY"
                            (message_or unknown_error deployError)
                            [("projectId", projectId);
                             ("deploymentId", deploymentId)];
                      throw deployError)
           end
     end)
    (fun error =>
       if instanceof_ZodError error then
         mret (json_error "Invalid request body" 400)
       else
         mret {| status_code := 500;
                 body := RespError "Failed to deploy"
                           (Some (message_or unknown_error error)) |}).

(** *** Observations on the runs of the handlers *)

(** The calls of the deploy route that come before its guard. *)
Definition before_guard (projectId : string) (e : entry) : Prop :=
  call_event e = EvSession \/ call_event e = EvRequestJson
  \/ call_event e = EvDb (ProjectFindUnique projectId).

(** The entry of a successful [db.project.update] that set only the
    status. *)
Definition wrote_status (projectId : string) (s : ProjectStatus) (e : entry)
  : Prop :=
  call_event e = EvDb (ProjectUpdateQ projectId (status_update s))
  /\ call_thrown e = None.

(** The datastore writes on which the failure handling of the flows itself
    depends: the creation of the CodeGeneration or Deployment row that the
    handler later updates, and the handler's own writes of FAILED. *)
Definition handler_write (q : db_query) : bool :=
  match q with
  | CodeGenerationCreate _ | DeploymentCreate _ => true
  | CodeGenerationUpdateQ _ u => bool_decide (cgu_status u = Some GEN_FAILED)
  | DeploymentUpdateQ _ u => bool_decide (du_status u = Some DEP_FAILED)
  | ProjectUpdateQ _ u => bool_decide (upd_status u = Some FAILED)
  | _ => false
  end.

Definition handler_writes_succeed (env : Env) : Prop :=
  forall n q, handler_write q = true -> fault env n (EvDb q) = None.

Definition status_of (w : World) (projectId : string) : option ProjectStatus :=
  p_status <$> projects (db w) !! projectId.

Definition version_of (w : World) (projectId : string) : option Z :=
  p_version <$> projects (db w) !! projectId.

End Routes.


(** ** Concrete environments and worlds *)

Module Samples.
Import Js Parser Flow.

(** An outside world in which nothing fails, with no credential set. *)
Definition no_tokens : Env :=
  {| getenv := fun _ => None;
     tmpdir := "/tmp";
     fault := fun _ _ => None;
     latency := fun _ => 0%N;
     llm_result := fun _ =>
       {| gr_content := "{" ++ quoted "files" ++ ":[{" ++ quoted "path"
                          ++ ":" ++ quoted "index.js" ++ "," ++ quoted "content"
                          ++ ":" ++ quoted "..." ++ "}]}";
          gr_model := "claude-sonnet-4-20250514";
          gr_inputTokens := 120; gr_outputTokens := 30;
          gr_durationMs := 900 |};
     github_login := fun _ => "octocat";
     git_latest_hash := fun _ => None;
     http_response := fun _ =>
       {| resp_ok := true; resp_status := 200%N; resp_error_json := "{}";
          resp_project := {| vp_id := "prj_1"; vp_name := "app" |};
          resp_deployment := {| vd_id := "dpl_1"; vd_url := "app.vercel.app";
                                vd_state := READY |} |} |}.

(** The same world with the given variables set. *)
Definition with_env (vars : list (string * string)) (env : Env) : Env :=
  {| getenv := fun name =>
       match List.find (fun kv => String.eqb (fst kv) name) vars with
       | Some kv => Some (snd kv)
       | None => getenv env name
       end;
     tmpdir := tmpdir env; fault := fault env; latency := latency env;
     llm_result := llm_result env; github_login := github_login env;
     git_latest_hash := git_latest_hash env;
     http_response := http_response env |}.

(** The same world in which the calls selected by [failing] throw. *)
Definition with_fault (failing : event -> bool) (e : exn) (env : Env) : Env :=
  {| getenv := getenv env; tmpdir := tmpdir env;
     fault := fun n ev => if failing ev then Some e else fault env n ev;
     latency := latency env;
     llm_result := llm_result env; github_login := github_login env;
     git_latest_hash := git_latest_hash env;
     http_response := http_response env |}.

Definition todo_project (s : ProjectStatus) (files : option (list GeneratedFile))
  : Project :=
  {| p_ownerId := "u1"; p_name := "Todo App"; p_description := None;
     p_techStack := [ {| ts_name := "React"; ts_category := "frontend";
                         ts_version := None |} ];
     p_prompt := Some "Build a todo app";
     p_status := s; p_generatedFiles := files;
     p_githubRepo := None; p_deploymentUrl := None; p_lastDeployedAt := None;
     p_version := 1 |}.

Definition empty_world : World :=
  {| tick := 0; trace := []; invoked := []; now := 0; fs := ∅;
     db := {| projects := ∅; codeGenerations := ∅; deployments := ∅;
              auditLogs := [] |} |}.

(** A world whose datastore holds the one project [p1]. *)
Definition world_with (p : Project) : World :=
  {| tick := 0; trace := []; invoked := []; now := 1700000000000; fs := ∅;
     db := {| projects := {[ "p1" := p ]}; codeGenerations := ∅;
              deployments := ∅; auditLogs := [] |} |}.

Definition owner : SessionUser := {| su_id := "u1"; su_role := "USER" |}.

Definition sample_options : Deploy.PipelineOptions :=
  {| Deploy.po_projectName := "app"; Deploy.po_description := None;
     Deploy.po_files := []; Deploy.po_deployProvider := "vercel";
     Deploy.po_envVariables := None; Deploy.po_isPrivate := Some true |}.

Definition generate_request : Routes.Request Routes.GenerateBody :=
  {| Routes.req_session := Some owner;
     Routes.req_body :=
       {| Routes.gb_projectId := "p1"; Routes.gb_prompt := None;
          Routes.gb_provider := None; Routes.gb_model := None |} |}.

Definition deploy_request : Routes.Request Routes.DeployBody :=
  {| Routes.req_session := Some owner;
     Routes.req_body :=
       {| Routes.dpb_projectId := "p1"; Routes.dpb_provider := "vercel";
          Routes.dpb_envVariables := None; Routes.dpb_createGitHubRepo := None;
          Routes.dpb_isPrivate := None |} |}.

Definition is_codeGeneration_create (ev : event) : bool :=
  match ev with EvDb (CodeGenerationCreate _) => true | _ => false end.

Definition is_llm (ev : event) : bool :=
  match ev with EvLlm _ _ _ => true | _ => false end.

(** The worlds and environments of the concrete runs below. *)
Definition draft_world : World := world_with (todo_project DRAFT None).

Definition vercel_env : Env := with_env [("VERCEL_TOKEN", "t")] no_tokens.

Definition anthropic_env : Env := with_env [("ANTHROPIC_API_KEY", "sk")] no_tokens.

(** The datastore refuses the creation of the CodeGeneration row. *)
Definition create_fails_env : Env :=
  with_fault is_codeGeneration_create (Error "Can't reach database server")
    anthropic_env.

(** The LLM backend fails. *)
Definition llm_fails_env : Env :=
  with_fault is_llm (Error "529 overloaded_error") anthropic_env.

Definition is_llm_or_failed_write (ev : event) : bool :=
  match ev with
  | EvLlm _ _ _ => true
  | EvDb (ProjectUpdateQ _ u) => bool_decide (upd_status u = Some FAILED)
  | _ => false
  end.

(** The LLM backend fails, and so does the handler's write of FAILED to the
    project. *)
Definition handler_fails_env : Env :=
  with_fault is_llm_or_failed_write (Error "Connection terminated unexpectedly")
    anthropic_env.

(** A project with generated files, ready to deploy. *)
Definition generated_world : World :=
  world_with (todo_project GENERATED
                (Some [ {| path := Some (JString "index.js");
                           content := Some (JString "...") |} ])).

(** Both tokens set and every call taking 100 ms; the status endpoint
    answers BUILDING to the polls of a deploy request (calls 22 and 24 of
    the run) and READY from call 26 on. *)
Definition ready_after_two_polls : Env :=
  let base := with_env [("VERCEL_TOKEN", "t"); ("GITHUB_TOKEN", "g")] no_tokens in
  {| getenv := getenv base; tmpdir := tmpdir base; fault := fault base;
     latency := fun _ => 100%N;
     llm_result := llm_result base; github_login := github_login base;
     git_latest_hash := fun _ => Some "abc123";
     http_response := fun n =>
       {| resp_ok := true; resp_status := 200%N; resp_error_json := "{}";
          resp_project := {| vp_id := "prj_1"; vp_name := "todo-app" |};
          resp_deployment :=
            {| vd_id := "dpl_1"; vd_url := "todo-app.vercel.app";
               vd_state := if (n <? 26)%nat then BUILDING else READY |} |} |}.

(** The status endpoint never leaves BUILDING. *)
Definition never_ready : Env :=
  {| getenv := getenv vercel_env; tmpdir := tmpdir vercel_env;
     fault := fault vercel_env; latency := latency vercel_env;
     llm_result := llm_result vercel_env; github_login := github_login vercel_env;
     git_latest_hash := git_latest_hash vercel_env;
     http_response := fun n =>
       {| resp_ok := true; resp_status := 200%N; resp_error_json := "{}";
          resp_project := {| vp_id := "prj_1"; vp_name := "todo-app" |};
          resp_deployment :=
            {| vd_id := "dpl_1"; vd_url := "todo-app.vercel.app";
               vd_state := BUILDING |} |} |}.

(** The push is rejected, plain and forced. *)
Definition is_push (ev : event) : bool :=
  match ev with EvGit (GitPush _ _ _) => true | _ => false end.

Definition push_fails_env : Env :=
  with_fault is_push (Error "remote: Permission denied")
    (with_env [("GITHUB_TOKEN", "g")] no_tokens).

(** Every call succeeds but the removal of the temporary directory. *)
Definition is_rm (ev : event) : bool :=
  match ev with EvFs (Rm _) => true | _ => false end.

Definition rm_fails_env : Env :=
  with_fault is_rm (Error "EBUSY: resource busy or locked, rmdir")
    (with_env [("GITHUB_TOKEN", "g")] no_tokens).

End Samples.

(** ** Text helpers for the properties of the parser and of the paths *)

Module Text.
Import Js Parser.

(** Does the character occur in the string. *)
Fixpoint occurs (c : ascii) (s : string) : bool :=
  match s with
  | EmptyString => false
  | String x r => Ascii.eqb x c || occurs c r
  end.

Definition open_brace : ascii := ascii_of_nat 123.
Definition close_brace : ascii := ascii_of_nat 125.

(** A pattern whose last atom is the literal closing brace. *)
Fixpoint closes (p : list re_atom) : bool :=
  match p with
  | [] => false
  | a :: p' =>
      match p' with
      | [] => match a with Lit c => Ascii.eqb c close_brace | AnyStar => false end
      | _ :: _ => closes p'
      end
  end.

(** [value === null] *)
Definition is_null (v : json) : bool :=
  match v with JNull => true | _ => false end.

(** The entry [{ path: file.path, content: file.content }] of a value that
    is not [null]. *)
Definition entry_of (file : json) : GeneratedFile :=
  {| path := get_property file "path";
     content := get_property file "content" |}.

End Text.

(** ** Provider selection ([src/lib/ai/index.ts]) *)

Module AIConfig.
Import Js Parser Flow.

(** [getConfiguredProviders()] of the LLM module. *)
Definition getConfiguredProviders : M (list string) :=
  anthropic ← process_env "ANTHROPIC_API_KEY";
  openai ← process_env "OPENAI_API_KEY";
  gemini ← process_env "GOOGLE_AI_API_KEY";
  mret ((if is_truthy anthropic then ["anthropic"] else [])
          ++ (if is_truthy openai then ["openai"] else [])
          ++ (if is_truthy gemini then ["gemini"] else []))%list.

(** The provider name [generate] resolves: [options.provider] when it is
    truthy, else [process.env.DEFAULT_LLM_PROVIDER] when that is truthy,
    else anthropic. *)
Definition chosen_provider (env : Env) (provider : option string) : string :=
  default (default "anthropic" (truthy (getenv env "DEFAULT_LLM_PROVIDER")))
    (truthy provider).

End AIConfig.

(** ** What a run did, read off its log *)

Module Observe.
Import Js Parser Flow.

(** The calls of the file system, and those of the file system and git. *)
Definition fs_event (e : entry) : Prop :=
  match call_event e with EvFs _ => True | _ => False end.

Definition local_event (e : entry) : Prop :=
  match call_event e with EvFs _ | EvGit _ => True | _ => False end.

(** The pushes among the calls: the branch and options of each, and what
    it threw. *)
Definition push_attempt (e : entry)
  : option (string * list string * option exn) :=
  match call_event e with
  | EvGit (GitPush _ branch options) => Some (branch, options, call_thrown e)
  | _ => None
  end.

Definition push_attempts (es : list entry)
  : list (string * list string * option exn) :=
  omap push_attempt es.

(** The calls of the GitHub client, each with what it threw. *)
Definition octokit_attempt (e : entry) : option (octokit_call * option exn) :=
  match call_event e with
  | EvOctokit c => Some (c, call_thrown e)
  | _ => None
  end.

Definition octokit_calls (es : list entry)
  : list (octokit_call * option exn) :=
  omap octokit_attempt es.

(** The HTTP exchanges, each with its method, its endpoint and whether it
    gave a payload (it did not throw and the response was ok). *)
Definition exchange (env : Env) (e : entry) : option (string * string * bool) :=
  match call_event e with
  | EvFetch method endpoint =>
      Some (method, endpoint,
            match call_thrown e with
            | Some _ => false
            | None => resp_ok (http_response env (call_no e))
            end)
  | _ => None
  end.

Definition exchanges (env : Env) (es : list entry)
  : list (string * string * bool) :=
  omap (exchange env) es.

(** The calls of the wait loop: requests with the method GET, and the
    timer. *)
Definition poll_or_sleep (e : entry) : Prop :=
  match call_event e with
  | EvFetch method _ => method = "GET"
  | EvSleep _ => True
  | _ => False
  end.

(** What holds of the exchanges of a run of [deployToVercel]: a project is
    created only after its lookup gave no project, and every POST is the
    creation of the project, the setting of the environment variables
    (only if the configuration has some) or the deployment. *)
Definition vercel_calls (config : Vercel.DeploymentConfig)
    (xs : list (string * string * bool)) : Prop :=
  (forall ok, In ("POST", "/v10/projects", ok) xs ->
     In ("GET", "/v9/projects/" ++ Vercel.dc_projectName config, false) xs)
  /\ (forall endpoint ok, In ("POST", endpoint, ok) xs ->
        endpoint = "/v10/projects" \/ endpoint = "/v13/deployments"
        \/ (exists id, endpoint = "/v10/projects/" ++ id ++ "/env"
                       /\ Vercel.dc_envVariables config <> None)).

(** The options of the plain and of the forced push. *)
Definition up : list string := ["--set-upstream"].
Definition force : list string := ["--set-upstream"; "--force"].

(** What the removal of the temporary directory threw, if the last call
    of the run is that removal and it threw. *)
Definition removal_thrown (es : list entry) : option exn :=
  match last es with
  | Some e =>
      match call_event e with
      | EvFs (Rm _) => call_thrown e
      | _ => None
      end
  | None => None
  end.

(** The pushes of a run of [pushFiles], most recent first, with what the
    removal of the temporary directory threw. *)
Definition push_shape (b : string) (r : outcome GitHub.PushResult)
    (removal : option exn)
    (pa : list (string * list string * option exn)) : Prop :=
  (pa = [] /\ exists e, r = Throw e)
  \/ pa = [(b, up, None)]
  \/ (exists e1, pa = [(b, force, None); (b, up, Some e1)])
  \/ (exists e1 e2, pa = [(b, force, Some e2); (b, up, Some e1)]
                    /\ r = Throw (default e2 removal)).

(** The failure [createAndPushToGitHub] returns for an error message. *)
Definition github_failure (message : string) : GitHub.GitHubResult :=
  {| GitHub.ghr_success := false; GitHub.ghr_repoUrl := None;
     GitHub.ghr_error := Some message |}.

(** Its result once the push was reached: the repository URL of the
    login, or the failure of the push. *)
Definition pushed (login repoName : string) (x : GitHub.GitHubResult) : Prop :=
  x = {| GitHub.ghr_success := true;
         GitHub.ghr_repoUrl :=
           Some ("https://github.com/" ++ login ++ "/" ++ repoName);
         GitHub.ghr_error := None |}
  \/ exists m, x = github_failure m.

(** The calls of [createAndPushToGitHub] to the GitHub client, most recent
    first, with the result each sequence leads to. *)
Definition github_shape (repoName : string) (description : option string)
    (isPrivate : option bool) (x : GitHub.GitHubResult)
    (calls : list (octokit_call * option exn)) : Prop :=
  let create := ReposCreateForAuthenticatedUser repoName description
                  (default true isPrivate) false in
  (calls = [] /\ x = github_failure "GitHub token not configured")
  \/ (exists e, calls = [(UsersGetAuthenticated, Some e)]
                /\ x = github_failure (message_or GitHub.unknown_error e))
  \/ (exists login, calls = [(ReposGet login repoName, None);
                             (UsersGetAuthenticated, None)]
                    /\ pushed login repoName x)
  \/ (exists login e, calls = [(ReposGet login repoName, Some e);
                               (UsersGetAuthenticated, None)]
                      /\ x = github_failure (message_or GitHub.unknown_error e))
  \/ (exists login m, calls = [(create, None);
                               (ReposGet login repoName,
                                Some (RequestError 404 m));
                               (UsersGetAuthenticated, None)]
                      /\ pushed login repoName x)
  \/ (exists login m e, calls = [(create, Some e);
                                 (ReposGet login repoName,
                                  Some (RequestError 404 m));
                                 (UsersGetAuthenticated, None)]
                        /\ x = github_failure (message_or GitHub.unknown_error e)).

End Observe.

(** ** Further concrete worlds *)

Module Scenarios.
Import Js Parser Flow Samples.

Definition is_repos_get (ev : event) : bool :=
  match ev with EvOctokit (ReposGet _ _) => true | _ => false end.

(** The token is set and the repository does not exist yet. *)
Definition repo_missing_env : Env :=
  with_fault is_repos_get (RequestError 404 "Not Found")
    (with_env [("GITHUB_TOKEN", "g")] no_tokens).

End Scenarios.

(** ** Observations on the answers of the handlers *)

Module RouteObs.
Import Js Parser Flow Routes.

(** The status codes the handlers answer with. *)
Definition known_status (n : nat) : Prop :=
  In n [200; 400; 401; 403; 404; 500]%nat.

(** The requester is signed in, the project exists, and the requester owns
    it or has a role other than USER. *)
Definition may_access {B} (request : Request B) (w : World) (id : string)
  : Prop :=
  exists user p,
    req_session request = Some user
    /\ projects (db w) !! id = Some p
    /\ (p_ownerId p = su_id user \/ su_role user <> "USER").

(** What the generation flow leaves of a project row as it was: all but
    the status and the generated files. *)
Definition kept_by_generate (p p' : Project) : Prop :=
  p_ownerId p' = p_ownerId p /\ p_name p' = p_name p
  /\ p_description p' = p_description p /\ p_techStack p' = p_techStack p
  /\ p_prompt p' = p_prompt p /\ p_githubRepo p' = p_githubRepo p
  /\ p_deploymentUrl p' = p_deploymentUrl p
  /\ p_lastDeployedAt p' = p_lastDeployedAt p
  /\ p_version p' = p_version p.

(** What the deployment flow leaves of a project row as it was: all but
    the status, the two URLs and the time of the last deployment. *)
Definition kept_by_deploy (p p' : Project) : Prop :=
  p_ownerId p' = p_ownerId p /\ p_name p' = p_name p
  /\ p_description p' = p_description p /\ p_techStack p' = p_techStack p
  /\ p_prompt p' = p_prompt p /\ p_generatedFiles p' = p_generatedFiles p
  /\ p_version p' = p_version p.

(** The state a generation answered with status 200 leaves behind. *)
Definition generation_stored (id : string) (w w' : World) (resp : Response)
  : Prop :=
  exists gid files inputTokens outputTokens durationMs p' c,
    body resp = RespGenerated gid files inputTokens outputTokens durationMs
    /\ projects (db w') !! id = Some p'
    /\ p_status p' = GENERATED
    /\ p_generatedFiles p' = Some files
    /\ codeGenerations (db w) !! gid = None
    /\ codeGenerations (db w') !! gid = Some c
    /\ cg_projectId c = id
    /\ cg_status c = GEN_COMPLETED
    /\ cg_output c = Some files
    /\ cg_tokenUsage c = Some (inputTokens, outputTokens)
    /\ cg_durationMs c = Some durationMs
    /\ cg_errorMessage c = None.

(** The state a failed generation leaves behind, once its row exists.  The
    message of the answer is the recorded one, unless the answer is the
    400 of a validation error or the audit entry of the failure could not
    be written (the answer then carries the error of that write). *)
Definition generation_failure_recorded (id : string) (w w' : World)
    (resp : Response) : Prop :=
  exists p' gid c m,
    projects (db w') !! id = Some p'
    /\ p_status p' = FAILED
    /\ codeGenerations (db w) !! gid = None
    /\ codeGenerations (db w') !! gid = Some c
    /\ cg_projectId c = id
    /\ cg_status c = GEN_FAILED
    /\ cg_errorMessage c = Some m
    /\ (body resp = RespError "Failed to generate code" (Some m)
        \/ body resp = RespError "Invalid request body" None
        \/ auditLogs (db w') = auditLogs (db w)).

(** The state a deployment answered with status 200 leaves behind. *)
Definition deployment_stored (id : string) (w w' : World) (resp : Response)
  : Prop :=
  exists did url repo p' d deployedAt completedAt,
    body resp = RespDeployed did (Some url) (Some repo)
    /\ projects (db w') !! id = Some p'
    /\ p_status p' = DEPLOYED
    /\ p_deploymentUrl p' = Some url
    /\ p_githubRepo p' = Some repo
    /\ p_lastDeployedAt p' = Some deployedAt
    /\ deployments (db w) !! did = None
    /\ deployments (db w') !! did = Some d
    /\ d_projectId d = id
    /\ d_status d = DEP_SUCCESS
    /\ d_url d = Some url
    /\ d_completedAt d = Some completedAt
    /\ d_errorMessage d = None.

(** The state a failed deployment leaves behind, once its row exists. *)
Definition deployment_failure_recorded (id : string) (w w' : World)
    (resp : Response) : Prop :=
  exists p' did d m completedAt,
    projects (db w') !! id = Some p'
    /\ p_status p' = FAILED
    /\ deployments (db w) !! did = None
    /\ deployments (db w') !! did = Some d
    /\ d_projectId d = id
    /\ d_status d = DEP_FAILED
    /\ d_errorMessage d = Some m
    /\ d_completedAt d = Some completedAt
    /\ (body resp = RespError "Failed to deploy" (Some m)
        \/ body resp = RespError "Invalid request body" None
        \/ auditLogs (db w') = auditLogs (db w)).

(** The characters the pattern [[^a-z0-9-]] lets through. *)
Definition is_name_char (c : ascii) : bool :=
  let n := nat_of_ascii c in
  ((97 <=? n)%nat && (n <=? 122)%nat)
  || ((48 <=? n)%nat && (n <=? 57)%nat) || (n =? 45)%nat.

Fixpoint all_chars (P : ascii -> bool) (s : string) : bool :=
  match s with
  | EmptyString => true
  | String c r => P c && all_chars P r
  end.

(** The environment variable [getConfiguredProviders] of the deploy module
    reads for a provider. *)
Definition token_variable (provider : string) : option string :=
  if String.eqb provider "vercel" then Some "VERCEL_TOKEN"
  else if String.eqb provider "netlify" then Some "NETLIFY_TOKEN"
  else if String.eqb provider "github-pages" then Some "GITHUB_TOKEN"
  else None.

End RouteObs.

(** ** The deployment completion trigger ([supabase/triggers.sql]) *)

Module Triggers.
Import Status Flow.

(** The columns of [public.deployments] the trigger reads; [status] and
    [project_id] are NOT NULL. *)
Record deployment_row := {
  dep_project_id : string;
  dep_status : DeploymentStatus;
  dep_url : option string
}.

(** A project row together with the two timestamps the trigger writes. *)
Record project_times := {
  pt_row : project_row;
  pt_last_deployed_at : option Z;
  pt_updated_at : Z
}.

(** [public.trigger_deployment_completed()], fired [AFTER UPDATE OF status
    ON public.deployments]: the effect of its two [UPDATE public.projects]
    statements on one project row, at time [NOW()]. *)
Definition trigger_deployment_completed (NOW : Z) (OLD NEW : deployment_row)
    (p : project_times) : project_times :=
  if decide (dep_status OLD = dep_status NEW) then p
  else
    let p1 :=
      if decide (dep_status NEW = DEP_SUCCESS) then
        if String.eqb (row_id (pt_row p)) (dep_project_id NEW) then
          {| pt_row :=
               {| row_id := row_id (pt_row p);
                  row_status := DEPLOYED;
                  row_generated_files := row_generated_files (pt_row p);
                  row_deployment_url :=
                    coalesce (dep_url NEW) (row_deployment_url (pt_row p));
                  row_version := row_version (pt_row p) |};
             pt_last_deployed_at := Some NOW;
             pt_updated_at := NOW |}
        else p
      else p in
    if decide (dep_status NEW = DEP_FAILED) then
      if String.eqb (row_id (pt_row p1)) (dep_project_id NEW)
         && bool_decide (row_status (pt_row p1) = DEPLOYING) then
        {| pt_row :=
             {| row_id := row_id (pt_row p1);
                row_status := FAILED;
                row_generated_files := row_generated_files (pt_row p1);
                row_deployment_url := row_deployment_url (pt_row p1);
                row_version := row_version (pt_row p1) |};
           pt_last_deployed_at := pt_last_deployed_at p1;
           pt_updated_at := NOW |}
      else p1
    else p1.

(** Does the generation row go to COMPLETED, for this project. *)
Definition completes (OLD NEW : generation_row) (p : project_row) : bool :=
  negb (bool_decide (gen_status OLD = gen_status NEW))
  && bool_decide (gen_status NEW = GEN_COMPLETED)
  && String.eqb (row_id p) (gen_project_id NEW).

(** Does the deployment row go to SUCCESS, for this project. *)
Definition succeeds (OLD NEW : deployment_row) (p : project_row) : bool :=
  negb (bool_decide (dep_status OLD = dep_status NEW))
  && bool_decide (dep_status NEW = DEP_SUCCESS)
  && String.eqb (row_id p) (dep_project_id NEW).

(** Does the deployment row go to FAILED, for this project. *)
Definition fails (OLD NEW : deployment_row) (p : project_row) : bool :=
  negb (bool_decide (dep_status OLD = dep_status NEW))
  && bool_decide (dep_status NEW = DEP_FAILED)
  && String.eqb (row_id p) (dep_project_id NEW).

End Triggers.

(** ** Request metadata and paging of the audit log
       ([src/lib/compliance/audit.ts]) *)

Module Audit.
Import Js Flow.











End Audit.

(** ** What the providers send ([src/lib/ai/anthropic.ts], [openai.ts],
       [gemini.ts]) *)

Module Providers.
Import Js Flow.

Inductive Role := RoleUser | RoleAssistant | RoleSystem.

#[global] Instance Role_eq_dec : EqDecision Role.
Proof. solve_decision. Defined.

Record LLMMessage := {
  m_role : Role;
  m_content : string
}.

Definition is_system (m : LLMMessage) : bool :=
  bool_decide (m_role m = RoleSystem).

Definition is_user (m : LLMMessage) : bool :=
  bool_decide (m_role m = RoleUser).

(** *** Anthropic *)

(** [messages.find((m) => m.role === "system")?.content] *)
Definition systemMessage (messages : list LLMMessage) : option string :=
  option_map m_content (List.find is_system messages).

(** [options?.systemPrompt || systemMessage] *)
Definition anthropic_system (systemPrompt : option string)
    (messages : list LLMMessage) : option string :=
  or_string systemPrompt (systemMessage messages).

(** [messages.filter((m) => m.role !== "system").map(...)] *)
Definition anthropic_messages (messages : list LLMMessage) : list LLMMessage :=
  map (fun m => {| m_role := m_role m; m_content := m_content m |})
    (List.filter (fun m => negb (is_system m)) messages).

(** *** OpenAI *)

(** The [openaiMessages] array: the system prompt of the options first,
    if it is truthy, then every message. *)
Definition openai_messages (systemPrompt : option string)
    (messages : list LLMMessage) : list LLMMessage :=
  (match truthy systemPrompt with
   | Some prompt => [ {| m_role := RoleSystem; m_content := prompt |} ]
   | None => []
   end
   ++ map (fun m => {| m_role := m_role m; m_content := m_content m |}) messages)%list.

(** *** Gemini *)

(** An entry of the chat history: the role is [model] or [user]. *)
Record Content := {
  c_role : string;
  c_text : string
}.

Definition gemini_content (m : LLMMessage) : Content :=
  {| c_role := if bool_decide (m_role m = RoleAssistant) then "model" else "user";
     c_text := m_content m |}.

(** The [for (const msg of messages)] loop: a system message replaces the
    system instruction, any other message is pushed to the history. *)
Fixpoint gemini_loop (messages : list LLMMessage) (history : list Content)
    (systemInstruction : option string) : list Content * option string :=
  match messages with
  | [] => (history, systemInstruction)
  | msg :: rest =>
      if is_system msg then gemini_loop rest history (Some (m_content msg))
      else gemini_loop rest (history ++ [gemini_content msg])%list systemInstruction
  end.

(** The chat the provider starts and the message it sends to it. *)
Record GeminiChat := {
  chat_history : list Content;
  chat_systemInstruction : option string;
  chat_prompt : string
}.

(** The part of [GeminiProvider.generateChat] between the creation of the
    model and [chat.sendMessage]. *)
Definition gemini_chat (systemPrompt : option string)
    (messages : list LLMMessage) : outcome GeminiChat :=
  let '(history, systemInstruction) := gemini_loop messages [] systemPrompt in
  match last (List.filter is_user messages) with
  | None => Throw (Error "No user message provided")
  | Some lastUserMessage =>
      Ok {| chat_history := removelast history;
            chat_systemInstruction := systemInstruction;
            chat_prompt := m_content lastUserMessage |}
  end.

(** The provider object: its client exists when [GOOGLE_AI_API_KEY] was
    truthy at construction. *)
Record GeminiProvider := {
  gp_client : option string
}.

(** [new GeminiProvider()], given the value of the variable. *)
Definition new_GeminiProvider (key : option string) : GeminiProvider :=
  {| gp_client := truthy key |}.

(** [getClient()] *)
Definition getClient (self : GeminiProvider) : outcome string :=
  match gp_client self with
  | Some client => Ok client
  | None => Throw (Error "Google AI API key not configured")
  end.

(** [GeminiProvider.generateChat] up to [chat.sendMessage]: the client is
    asked for first, then the chat is built. *)
Definition generateChat_request (self : GeminiProvider)
    (systemPrompt : option string) (messages : list LLMMessage)
  : outcome GeminiChat :=
  match getClient self with
  | Ok _ => gemini_chat systemPrompt messages
  | Throw e => Throw e
  | OutOfFuel => OutOfFuel
  end.

(** The conversation: the messages that are not system messages. *)
Definition conversation (messages : list LLMMessage) : list LLMMessage :=
  List.filter (fun m => negb (is_system m)) messages.

End Providers.

(** * Properties *)

(** ** Reasoning about runs *)

Module FlowFacts.
Import Js Parser Flow.

Lemma wp_mono {A} (m : M A) env w (Q Q' : outcome A -> World -> Prop) :
  wp m env w Q -> (forall r w', Q r w' -> Q' r w') -> wp m env w Q'.
Proof. unfold wp. auto. Qed.

Lemma wp_ret {A} (a : A) env w (Q : outcome A -> World -> Prop) :
  Q (Ok a) w -> wp (mret a) env w Q.
Proof. done. Qed.

Lemma wp_throw {A} (e : exn) env w (Q : outcome A -> World -> Prop) :
  Q (Throw e) w -> wp (throw e) env w Q.
Proof. done. Qed.

Lemma wp_lift {A} (o : outcome A) env w (Q : outcome A -> World -> Prop) :
  Q o w -> wp (lift o) env w Q.
Proof. done. Qed.

Lemma wp_bind {A B} (m : M A) (k : A -> M B) env w
    (Q : outcome B -> World -> Prop) :
  wp m env w (fun r w' =>
    match r with
    | Ok a => wp (k a) env w' Q
    | Throw e => Q (Throw e) w'
    | OutOfFuel => Q OutOfFuel w'
    end) ->
  wp (m ≫= k) env w Q.
Proof.
  unfold wp, mbind, M_bind, bind.
  destruct (m env w) as [[a|e|] w']; simpl; done.
Qed.

Lemma wp_try_catch {A} (body : M A) (handler : exn -> M A) env w
    (Q : outcome A -> World -> Prop) :
  wp body env w (fun r w' =>
    match r with
    | Throw e => wp (handler e) env w' Q
    | _ => Q r w'
    end) ->
  wp (try_catch body handler) env w Q.
Proof.
  unfold wp, try_catch.
  destruct (body env w) as [[a|e|] w']; simpl; done.
Qed.

Lemma wp_try_finally {A} (body : M A) (cleanup : M unit) env w
    (Q : outcome A -> World -> Prop) :
  wp body env w (fun r w' =>
    match r with
    | OutOfFuel => Q OutOfFuel w'
    | _ =>
        wp cleanup env w' (fun rc w'' =>
          match rc with
          | Ok _ => Q r w''
          | Throw e => Q (Throw e) w''
          | OutOfFuel => Q OutOfFuel w''
          end)
    end) ->
  wp (try_finally body cleanup) env w Q.
Proof.
  unfold wp, try_finally.
  destruct (body env w) as [[a|e|] w']; simpl; [| |done];
    destruct (cleanup env w') as [[[]|e'|] w'']; simpl; done.
Qed.

Lemma wp_call (ev : event) env w (Q : outcome nat -> World -> Prop) :
  match fault env (tick w) ev with
  | Some e => Q (Throw e) (record_call env ev (Some e) w)
  | None => Q (Ok (tick w)) (record_call env ev None w)
  end ->
  wp (call ev) env w Q.
Proof. unfold wp, call. destruct (fault env (tick w) ev); done. Qed.

(** The primitives of the monad. *)
Lemma wp_Date_now env w (Q : outcome Z -> World -> Prop) :
  Q (Ok (now w)) w -> wp Date_now env w Q.
Proof. done. Qed.

Lemma wp_ask env w (Q : outcome Env -> World -> Prop) :
  Q (Ok env) w -> wp ask env w Q.
Proof. done. Qed.

Lemma wp_get env w (Q : outcome World -> World -> Prop) :
  Q (Ok w) w -> wp get env w Q.
Proof. done. Qed.

Lemma wp_process_env name env w (Q : outcome (option string) -> World -> Prop) :
  Q (Ok (getenv env name)) w -> wp (process_env name) env w Q.
Proof. done. Qed.

Lemma wp_enter fn env w (Q : outcome unit -> World -> Prop) :
  Q (Ok tt) {| tick := tick w; trace := trace w; invoked := fn :: invoked w;
               now := now w; fs := fs w; db := db w |} ->
  wp (enter fn) env w Q.
Proof. done. Qed.

Lemma wp_set_fs f env w (Q : outcome unit -> World -> Prop) :
  Q (Ok tt) {| tick := tick w; trace := trace w; invoked := invoked w;
               now := now w; fs := f (fs w); db := db w |} ->
  wp (set_fs f) env w Q.
Proof. done. Qed.

Lemma wp_set_db f env w (Q : outcome unit -> World -> Prop) :
  Q (Ok tt) {| tick := tick w; trace := trace w; invoked := invoked w;
               now := now w; fs := fs w; db := f (db w) |} ->
  wp (set_db f) env w Q.
Proof. done. Qed.

Lemma wp_set_now t env w (Q : outcome unit -> World -> Prop) :
  Q (Ok tt) {| tick := tick w; trace := trace w; invoked := invoked w;
               now := t; fs := fs w; db := db w |} ->
  wp (set_now t) env w Q.
Proof. done. Qed.

Lemma wp_call_total ev env w (Q : outcome nat -> World -> Prop) :
  Q (Ok (tick w)) (record_call env ev None w) -> wp (call_total ev) env w Q.
Proof. done. Qed.

Ltac wp_head :=
  lazymatch goal with
  | |- wp (mbind _ _) _ _ _ => apply wp_bind
  | |- wp (mret _) _ _ _ => apply wp_ret
  | |- wp (throw _) _ _ _ => apply wp_throw
  | |- wp (lift _) _ _ _ => apply wp_lift
  | |- wp (try_catch _ _) _ _ _ => apply wp_try_catch
  | |- wp (try_finally _ _) _ _ _ => apply wp_try_finally
  | |- wp (call _) _ _ _ => apply wp_call
  | |- wp Date_now _ _ _ => apply wp_Date_now
  | |- wp ask _ _ _ => apply wp_ask
  | |- wp get _ _ _ => apply wp_get
  | |- wp (process_env _) _ _ _ => apply wp_process_env
  | |- wp (enter _) _ _ _ => apply wp_enter
  | |- wp (set_fs _) _ _ _ => apply wp_set_fs
  | |- wp (set_db _) _ _ _ => apply wp_set_db
  | |- wp (set_now _) _ _ _ => apply wp_set_now
  | |- wp (call_total _) _ _ _ => apply wp_call_total
  end.

(** Split on a test or an oracle answer, unless its value is known. *)
Ltac wp_case x :=
  first [ lazymatch goal with H : x = _ |- _ => rewrite H end
        | destruct x eqn:? ].

Ltac wp_split :=
  lazymatch goal with
  | |- wp (if ?b then _ else _) _ _ _ => wp_case b
  | |- wp (match ?x with _ => _ end) _ _ _ => wp_case x
  | |- match ?x with _ => _ end => wp_case x
  end.

Ltac wp_simpl :=
  cbn beta iota delta [tick trace invoked now fs db record_call
                       projects codeGenerations deployments auditLogs
                       Routes.dd_projectId Routes.dd_provider
                       Routes.dd_envVariables Routes.dd_isPrivate];
  rewrite ?lookup_insert_eq.

Ltac wp_simpl_in_all :=
  cbn beta iota delta [tick trace invoked now fs db record_call
                       projects codeGenerations deployments auditLogs
                       Routes.dd_projectId Routes.dd_provider
                       Routes.dd_envVariables Routes.dd_isPrivate] in *.

(** Run to the end: let [known] handle the calls it has a lemma for, apply
    the rule of the head construct, and split on every test and every
    oracle answer met on the way. *)
Ltac wp_go_with known :=
  repeat first [ known | progress wp_simpl | wp_head | wp_split ].

Ltac wp_go := wp_go_with fail.

(** *** Traces *)

Lemma grows_refl P t : grows P t t.
Proof. by exists []. Qed.

Lemma grows_cons P e t t' : P e -> grows P t t' -> grows P t (e :: t').
Proof. intros He (es & -> & Hes). exists (e :: es). split; [done|]. by constructor. Qed.

Lemma grows_trans P t1 t2 t3 : grows P t1 t2 -> grows P t2 t3 -> grows P t1 t3.
Proof.
  intros (es1 & -> & H1) (es2 & -> & H2). exists (es2 ++ es1)%list.
  split; [by rewrite app_assoc|]. by apply Forall_app.
Qed.

Lemma grows_mono (P P' : entry -> Prop) t t' :
  (forall e, P e -> P' e) -> grows P t t' -> grows P' t t'.
Proof.
  intros HP (es & -> & Hes). exists es. split; [done|].
  eapply Forall_impl; eauto.
Qed.

Lemma entries_since_app w w' es :
  trace w' = (es ++ trace w)%list -> entries_since w w' = rev es.
Proof.
  intros H. unfold entries_since. rewrite H, length_app.
  replace (length es + length (trace w) - length (trace w))%nat
    with (length es) by lia.
  by rewrite take_app_length.
Qed.

Lemma invoked_since_app w w' fns :
  invoked w' = (fns ++ invoked w)%list -> invoked_since w w' = rev fns.
Proof.
  intros H. unfold invoked_since. rewrite H, length_app.
  replace (length fns + length (invoked w) - length (invoked w))%nat
    with (length fns) by lia.
  by rewrite take_app_length.
Qed.

Lemma grows_entries_since P w w' :
  grows P (trace w) (trace w') -> Forall P (entries_since w w').
Proof.
  intros (es & Htr & Hes). rewrite (entries_since_app _ _ _ Htr).
  by apply Forall_rev.
Qed.

(** Prove that a trace grew by calls satisfying the predicate: peel the
    calls made directly (each checked by [entry]) and chain the facts
    known about the calls made by others. *)
Ltac grows_with entry :=
  wp_simpl_in_all;
  repeat first
    [ eassumption
    | apply grows_refl
    | apply grows_cons; [entry|]
    | lazymatch goal with
      | H : grows _ _ ?t |- grows _ _ ?t => eapply grows_trans; [|exact H]
      end ].

Ltac adapter_grows := grows_with ltac:(exact I).

End FlowFacts.

(** ** Runs and their logs *)

Module TraceFacts.
Import Js Parser Flow FlowFacts Observe.

Lemma trace_here (t : list entry) : t = ([] ++ t)%list.
Proof. done. Qed.

Lemma trace_cons (e : entry) l es t :
  l = (es ++ t)%list -> e :: l = ((e :: es) ++ t)%list.
Proof. by intros ->. Qed.

Lemma trace_app (es' : list entry) l es t :
  l = (es ++ t)%list -> (es' ++ l)%list = ((es' ++ es) ++ t)%list.
Proof. intros ->. by rewrite app_assoc. Qed.

(** Write a trace as the calls added in front of the trace it grew
    from. *)
Ltac trace_split :=
  repeat lazymatch goal with
         | |- _ :: _ = _ => eapply trace_cons
         | |- (_ ++ _)%list = _ => eapply trace_app
         | |- _ => apply trace_here
         end.

Lemma omap_rev {A B} (f : A -> option B) l : omap f (rev l) = rev (omap f l).
Proof.
  induction l as [|x l IH]; [done|]. simpl. rewrite omap_app, IH. simpl.
  destruct (f x); simpl; by rewrite ?app_nil_r.
Qed.

Lemma fs_is_local e : fs_event e -> local_event e.
Proof. unfold fs_event, local_event. by destruct (call_event e) as [| | | | |[]| | |]. Qed.

Lemma local_is_adapter e : local_event e -> adapter_event e.
Proof. unfold adapter_event, local_event. by destruct (call_event e) as [| | | | |[]| | |]. Qed.

Lemma omap_cons_eq {A B} (f : A -> option B) x l :
  omap f (x :: l)
  = match f x with Some y => y :: omap f l | None => omap f l end.
Proof. reflexivity. Qed.

Lemma omap_none {A B} (f : A -> option B) (P : A -> Prop) l :
  (forall x, P x -> f x = None) -> Forall P l -> omap f l = [].
Proof.
  intros Hf. induction 1 as [|x l Hx _ IH]; [done|].
  by rewrite omap_cons_eq, (Hf x Hx).
Qed.

Lemma push_attempts_cons e es :
  push_attempts (e :: es)
  = match push_attempt e with
    | Some a => a :: push_attempts es
    | None => push_attempts es
    end.
Proof. reflexivity. Qed.

Lemma push_attempts_app es es' :
  push_attempts (es ++ es') = (push_attempts es ++ push_attempts es')%list.
Proof. apply omap_app. Qed.

Lemma octokit_calls_cons e es :
  octokit_calls (e :: es)
  = match octokit_attempt e with
    | Some a => a :: octokit_calls es
    | None => octokit_calls es
    end.
Proof. reflexivity. Qed.

Lemma octokit_calls_app es es' :
  octokit_calls (es ++ es') = (octokit_calls es ++ octokit_calls es')%list.
Proof. apply omap_app. Qed.

Lemma push_attempts_fs es : Forall fs_event es -> push_attempts es = [].
Proof.
  apply omap_none. intros e. unfold fs_event, push_attempt.
  by destruct (call_event e).
Qed.

Lemma octokit_calls_local es : Forall local_event es -> octokit_calls es = [].
Proof.
  apply omap_none. intros e. unfold local_event, octokit_attempt.
  by destruct (call_event e).
Qed.

(** Try the alternatives of a disjunction from left to right. *)
Ltac pick tac :=
  first [ solve [tac] | left; solve [tac] | right; pick tac ].

End TraceFacts.

(** ** The status triggers *)

Module StatusFacts.
Import Status.

(** C1, as stated, fails: the trigger accepts DRAFT -> FAILED, a change of
    status that is not among the transitions the specification enumerates
    (and likewise GENERATED -> DRAFT, GENERATED -> FAILED,
    DEPLOYED -> DEPLOYING and DEPLOYED -> DRAFT). *)
Lemma validate_accepts_unlisted_transition :
  DRAFT <> FAILED
  /\ spec_legal DRAFT FAILED = false
  /\ trigger_validate_project_status (sample_row DRAFT) (sample_row FAILED)
     = Return (sample_row FAILED).
Proof. split; [discriminate|]. split; reflexivity. Qed.

(** C1 (amended): the trigger returns the new row exactly for the no-op
    updates, the transitions the specification enumerates and the five
    further transitions of its table (DRAFT -> FAILED, GENERATED -> DRAFT,
    GENERATED -> FAILED, DEPLOYED -> DEPLOYING, DEPLOYED -> DRAFT); on every
    other pair it raises the exception whose message names both the old and
    the new status. *)
Theorem validate_project_status_table (OLD NEW : project_row) :
  trigger_validate_project_status OLD NEW =
    if bool_decide (row_status OLD = row_status NEW)
       || spec_legal (row_status OLD) (row_status NEW)
       || extra_legal (row_status OLD) (row_status NEW)
    then Return NEW
    else RaiseException
           ("Invalid project status transition from "
              ++ status_text (row_status OLD) ++ " to "
              ++ status_text (row_status NEW)).
Proof.
  unfold trigger_validate_project_status.
  destruct (row_status OLD), (row_status NEW); reflexivity.
Qed.

(** The database-side path of generation completion: when a generation row
    becomes COMPLETED, the completion trigger sets its project to GENERATED
    and bumps the version by exactly one. *)
Lemma generation_completed_increments_version OLD NEW p :
  gen_status OLD <> GEN_COMPLETED ->
  gen_status NEW = GEN_COMPLETED ->
  row_id p = gen_project_id NEW ->
  row_version (trigger_generation_completed OLD NEW p) = row_version p + 1
  /\ row_status (trigger_generation_completed OLD NEW p) = GENERATED.
Proof.
  intros Hold Hnew Hid. unfold trigger_generation_completed.
  rewrite Hnew. destruct (decide (gen_status OLD = GEN_COMPLETED)) as [|_]; [done|].
  simpl. rewrite Hid, String.eqb_refl. simpl. done.
Qed.

End StatusFacts.

(** ** The response parser *)

Module ParserFacts.
Import Js Parser.

(** The text is the twelve characters of the empty file list. *)
Lemma empty_files_response_chars :
  map nat_of_ascii (list_ascii_of_string empty_files_response)
  = [123; 34; 102; 105; 108; 101; 115; 34; 58; 91; 93; 125]%nat.
Proof. reflexivity. Qed.

(** C7: the response that is exactly the object with an empty files array
    parses to the empty list; no error is raised. *)
Theorem parse_empty_files :
  parseCodeGenerationResponse empty_files_response = Ok [].
Proof. vm_compute. reflexivity. Qed.

Lemma map_files_returns items : map_files items <> OutOfFuel.
Proof.
  induction items as [|x xs IH]; simpl; [congruence|].
  destruct x; simpl; try congruence; destruct (map_files xs); congruence.
Qed.

(** The parser always ends: it has no loop to run out of fuel. *)
Lemma parse_returns response : parseCodeGenerationResponse response <> OutOfFuel.
Proof.
  unfold parseCodeGenerationResponse, parse_try.
  destruct (regex_match files_pattern response) as [m|]; [|congruence].
  destruct (JSON_parse m) as [v|]; [|congruence].
  destruct (get_property v "files") as [[| | | |items|]|]; try congruence.
  pose proof (map_files_returns items).
  destruct (map_files items); congruence.
Qed.

(** C8: whatever makes the parser fail (no brace-delimited text around the
    quoted word files, text that is not JSON, a files member that is not an
    array), it throws the one error "Failed to parse generated code
    response"; an exception of the parser is never anything else, so the
    cause is not part of it. *)
Theorem parse_failures_collapse (response : string) :
  (regex_match files_pattern response = None ->
     parseCodeGenerationResponse response
     = Throw (Error "Failed to parse generated code response"))
  /\ (forall jsonMatch,
        regex_match files_pattern response = Some jsonMatch ->
        JSON_parse jsonMatch = None ->
        parseCodeGenerationResponse response
        = Throw (Error "Failed to parse generated code response"))
  /\ (forall jsonMatch parsed,
        regex_match files_pattern response = Some jsonMatch ->
        JSON_parse jsonMatch = Some parsed ->
        is_array (get_property parsed "files") = false ->
        parseCodeGenerationResponse response
        = Throw (Error "Failed to parse generated code response"))
  /\ (forall e,
        parseCodeGenerationResponse response = Throw e ->
        e = Error "Failed to parse generated code response")
  /\ parseCodeGenerationResponse response <> OutOfFuel.
Proof.
  unfold parseCodeGenerationResponse, parse_try, parse_failure_message.
  repeat split.
  - intros ->. reflexivity.
  - intros m -> ->. reflexivity.
  - intros m v -> -> Harr.
    destruct (get_property v "files") as [[]|]; try reflexivity; discriminate.
  - intros e.
    destruct (regex_match files_pattern response) as [m|]; [|congruence].
    destruct (JSON_parse m) as [v|]; [|congruence].
    destruct (get_property v "files") as [[| | | |items|]|]; try congruence.
    destruct (map_files items); congruence.
  - apply (parse_returns response).
Qed.

(** The three causes, each on a concrete response. *)
Example parse_no_json :
  parse_try "I could not generate the project."
  = Throw (Error "No valid JSON found in response")
  /\ parseCodeGenerationResponse "I could not generate the project."
     = Throw (Error "Failed to parse generated code response").
Proof. split; vm_compute; reflexivity. Qed.

Example parse_invalid_json :
  parse_try ("{" ++ quoted "files" ++ ":[}")
  = Throw (Error "Unexpected token in JSON")
  /\ parseCodeGenerationResponse ("{" ++ quoted "files" ++ ":[}")
     = Throw (Error "Failed to parse generated code response").
Proof. split; vm_compute; reflexivity. Qed.

Example parse_files_not_array :
  parse_try ("{" ++ quoted "files" ++ ":{}}")
  = Throw (Error "Response does not contain files array")
  /\ parseCodeGenerationResponse ("{" ++ quoted "files" ++ ":{}}")
     = Throw (Error "Failed to parse generated code response").
Proof. split; vm_compute; reflexivity. Qed.

(** Prose around the object is skipped, and the files are passed through
    verbatim. *)
Example parse_with_prose :
  parseCodeGenerationResponse
    ("Here is the project: {" ++ quoted "files" ++ ":[{" ++ quoted "path"
       ++ ":" ++ quoted "index.js" ++ "," ++ quoted "content" ++ ":"
       ++ quoted "..." ++ "}]}")
  = Ok [ {| path := Some (JString "index.js");
            content := Some (JString "...") |} ].
Proof. vm_compute. reflexivity. Qed.

End ParserFacts.

(** ** The source host adapter *)

Module GitHubFacts.
Import Js Parser Flow FlowFacts GitHub.

(** Close a goal [adapter_frame w r w'] at the end of a run. *)
Ltac frame_done :=
  unfold adapter_frame in *; wp_simpl_in_all;
  split; [done|]; split; [congruence|]; split; [congruence|]; adapter_grows.

Lemma write_files_frame tempDir files env w :
  wp (write_files tempDir files) env w (adapter_frame w).
Proof.
  revert w. induction files as [|file rest IH]; intros w; simpl.
  - wp_go. frame_done.
  - unfold write_file, mkdir, writeFile.
    wp_go_with ltac:(idtac; lazymatch goal with
                     | |- wp (write_files _ _) _ _ _ =>
                         eapply wp_mono; [apply IH|]; intros ? ? (? & ? & ? & ?)
                     end);
      frame_done.
Qed.

Lemma rm_spec dir env w (Q : outcome unit -> World -> Prop) :
  (forall w', (forall p, under dir p = true -> p ∉ fs w') ->
              trace w' = {| call_no := tick w; call_event := EvFs (Rm dir);
                            call_thrown := None |} :: trace w ->
              db w' = db w -> invoked w' = invoked w ->
              Q (Ok tt) w') ->
  (forall e w', trace w' = {| call_no := tick w; call_event := EvFs (Rm dir);
                              call_thrown := Some e |} :: trace w ->
                db w' = db w -> invoked w' = invoked w -> fs w' = fs w ->
                Q (Throw e) w') ->
  wp (rm dir) env w Q.
Proof.
  intros HQ HT. unfold rm. wp_go.
  - by apply HT.
  - apply HQ; simpl; eauto.
    intros p Hp [Hf _]%elem_of_filter. congruence.
Qed.

Lemma pushFiles_spec self owner repo branch files msg env w :
  wp (pushFiles self owner repo branch files msg) env w (fun r w' =>
    adapter_frame w r w'
    /\ exists n t,
         head (trace w')
         = Some {| call_no := n; call_event := EvFs (Rm (tempDir_of env w));
                   call_thrown := t |}
         /\ match t with
            | None => forall p, under (tempDir_of env w) p = true -> p ∉ fs w'
            | Some e => r = Throw e
            end).
Proof.
  unfold pushFiles, tempDir_of.
  apply wp_bind, wp_ask; cbn beta iota.
  apply wp_bind, wp_Date_now; cbn beta iota.
  apply wp_try_finally.
  eapply (wp_mono _ _ _ (adapter_frame w)).
  { unfold mkdir, git.
    wp_go_with ltac:(idtac; lazymatch goal with
                     | |- wp (write_files _ _) _ _ _ =>
                         eapply wp_mono; [apply write_files_frame|];
                         intros ? ? (? & ? & ? & ?)
                     end);
      frame_done. }
  intros r w' (Hr & Hdb & Hinv & Htr).
  destruct r; [| |done]; apply rm_spec.
  all: try (intros w'' Hgone Htr' Hdb' Hinv').
  all: try (intros e' w'' Htr' Hdb' Hinv' Hfs').
  all: (split; [|eexists _, _; rewrite Htr'; split; [reflexivity|done]]).
  all: (split; [done|]); (split; [congruence|]); (split; [congruence|]).
  all: rewrite Htr'; apply grows_cons; done.
Qed.

(** C9: on every exit path of [pushFiles], whether the push succeeds or
    a step throws, the removal of the temporary directory is attempted, as
    the last external call of the run.  When that removal succeeds,
    neither the directory nor anything below it exists when the call
    returns.  When the removal itself throws, [pushFiles] throws the error
    of the removal, in place of the result or the error of the push, and
    the directory is not known to be gone. *)
Theorem pushFiles_removes_temp_dir_if_rm_succeeds (self : GitHubService)
    (owner repo : string) (branch : option string) (files : list GeneratedFile)
    (commitMessage : string) (env : Env) (w : World) :
  let run := pushFiles self owner repo branch files commitMessage env w in
  let tempDir := tempDir_of env w in
  fst run <> OutOfFuel
  /\ exists n t,
       head (trace (snd run))
       = Some {| call_no := n; call_event := EvFs (Rm tempDir);
                 call_thrown := t |}
       /\ match t with
          | None =>
              (tempDir ∉ fs (snd run))
              /\ (forall p, under tempDir p = true -> p ∉ fs (snd run))
          | Some e => fst run = Throw e
          end.
Proof.
  cbv zeta.
  pose proof (pushFiles_spec self owner repo branch files commitMessage env w)
    as ((Hr & _) & n & t & Hlast & Ht).
  split; [done|]. exists n, t. split; [done|].
  destruct t as [e|]; [done|]. split; [|done].
  apply Ht. unfold under. by rewrite String.eqb_refl.
Qed.

(** C9, as stated, fails when the removal fails.  Every step of the push
    succeeds, the removal of the directory throws, [pushFiles] throws that
    error, and the directory and the file written into it are still there
    when the call returns. *)
Lemma pushFiles_can_leave_temp_dir :
  fst (pushFiles {| gh_token := "g" |} "octocat" "todo-app" None
         [ {| path := Some (JString "index.js");
              content := Some (JString "...") |} ]
         "Initial commit" Samples.rm_fails_env Samples.empty_world)
  = Throw (Error "EBUSY: resource busy or locked, rmdir")
  /\ tempDir_of Samples.rm_fails_env Samples.empty_world
     = "/tmp/project-scaffolder-0"
  /\ "/tmp/project-scaffolder-0"
     ∈ fs (snd (pushFiles {| gh_token := "g" |} "octocat" "todo-app" None
                  [ {| path := Some (JString "index.js");
                       content := Some (JString "...") |} ]
                  "Initial commit" Samples.rm_fails_env Samples.empty_world))
  /\ "/tmp/project-scaffolder-0/index.js"
     ∈ fs (snd (pushFiles {| gh_token := "g" |} "octocat" "todo-app" None
                  [ {| path := Some (JString "index.js");
                       content := Some (JString "...") |} ]
                  "Initial commit" Samples.rm_fails_env Samples.empty_world)).
Proof.
  split; [vm_compute; reflexivity|]. split; [vm_compute; reflexivity|].
  split; (eapply (bool_decide_unpack _); vm_compute; exact I).
Qed.

(** A rejected push: the directory was made, the push threw twice, and the
    directory is gone when the call returns. *)
Example pushFiles_cleans_up_after_rejected_push :
  let run := pushFiles {| gh_token := "g" |} "octocat" "todo-app" None
               [ {| path := Some (JString "src/index.js");
                    content := Some (JString "...") |} ]
               "Initial commit" Samples.push_fails_env Samples.empty_world in
  fst run = Throw (Error "remote: Permission denied")
  /\ map call_event (filter (fun e => bool_decide (call_thrown e = None))
                       (entries_since Samples.empty_world (snd run)))
     = [ EvFs (Mkdir "/tmp/project-scaffolder-0");
         EvGit (SimpleGit "/tmp/project-scaffolder-0");
         EvGit GitInit;
         EvGit (GitAddConfig "user.email" "project-scaffolder@example.com");
         EvGit (GitAddConfig "user.name" "Project Scaffolder");
         EvFs (Mkdir "/tmp/project-scaffolder-0/src");
         EvFs (WriteFile "/tmp/project-scaffolder-0/src/index.js"
                 (Some (JString "...")));
         EvGit (GitAdd ".");
         EvGit (GitCommit "Initial commit");
         EvGit (GitAddRemote "origin" "https://g@github.com/octocat/todo-app.git");
         EvFs (Rm "/tmp/project-scaffolder-0") ]
  /\ elements (fs (snd run)) = [].
Proof. cbv zeta. repeat split; vm_compute; reflexivity. Qed.

(** The source host phase always returns a result; a failed one has no
    repository URL and carries an error message. *)
Lemma createAndPushToGitHub_spec repoName description files isPrivate env w :
  wp (createAndPushToGitHub repoName description files isPrivate) env w
     (fun r w' =>
        (exists x, r = Ok x
           /\ (ghr_success x = false ->
               ghr_repoUrl x = None /\ exists m, ghr_error x = Some m))
        /\ db w' = db w
        /\ invoked w' = "createAndPushToGitHub" :: invoked w
        /\ grows adapter_event (trace w) (trace w')).
Proof.
  unfold createAndPushToGitHub.
  apply wp_bind, wp_enter. cbn beta iota. apply wp_try_catch.
  eapply (wp_mono _ _ _ (fun r w' =>
            r <> OutOfFuel /\ (forall x, r = Ok x -> ghr_success x = true)
            /\ db w' = db w
            /\ invoked w' = "createAndPushToGitHub" :: invoked w
            /\ grows adapter_event (trace w) (trace w'))).
  { unfold new_GitHubService, getAuthenticatedUser, repoExists, createRepository.
    wp_go_with ltac:(idtac; lazymatch goal with
                     | |- wp (pushFiles _ _ _ _ _ _) _ _ _ =>
                         eapply wp_mono; [apply pushFiles_spec|];
                         intros ? ? ((? & ? & ? & ?) & _)
                     end);
      wp_simpl_in_all;
      (split; [done|]); (split; [by intros ? [= <-]|]);
      (split; [congruence|]); (split; [congruence|]); adapter_grows. }
  intros r w' (Hr & Hok & Hdb & Hinv & Htr).
  destruct r as [x|e|]; [| |done].
  - split; [|done]. exists x. split; [done|]. rewrite (Hok x eq_refl). done.
  - apply wp_ret. split; [|done]. eexists. split; [done|]. simpl. eauto.
Qed.

End GitHubFacts.

(** ** The deploy target adapter *)

Module VercelFacts.
Import Js Parser Flow FlowFacts TraceFacts Vercel.

Lemma polled_cons_poll env id e es :
  is_poll id e = true ->
  polled env id (e :: es) = poll_answer env e :: polled env id es.
Proof. unfold polled. simpl. by intros ->. Qed.

Lemma polled_cons_other env id e es :
  is_poll id e = false -> polled env id (e :: es) = polled env id es.
Proof. unfold polled. simpl. by intros ->. Qed.

Lemma is_poll_fetch id n t :
  is_poll id {| call_no := n; call_event := EvFetch "GET" (poll_endpoint id);
                call_thrown := t |} = true.
Proof. unfold is_poll. simpl. by rewrite String.eqb_refl. Qed.

(** One poll: a single exchange with the status endpoint. *)
Lemma getDeployment_spec self id env w (Q : outcome VercelDeployment -> World -> Prop) :
  let ev := EvFetch "GET" (poll_endpoint id) in
  let t := fault env (tick w) ev in
  let resp := http_response env (tick w) in
  Q (match t with
     | Some e => Throw e
     | None =>
         if resp_ok resp then Ok (resp_deployment resp)
         else Throw (Error ("Vercel API error: " ++ pretty (resp_status resp)
                              ++ " - " ++ resp_error_json resp))
     end)
    (record_call env ev t w) ->
  wp (getDeployment self id) env w Q.
Proof.
  cbv zeta. unfold getDeployment, request, poll_endpoint. intros HQ.
  wp_go; rewrite ?Heqo, ?Heqb in HQ; exact HQ.
Qed.

Lemma sleep_spec ms env w (Q : outcome unit -> World -> Prop) :
  (forall w', trace w' = {| call_no := tick w; call_event := EvSleep ms;
                            call_thrown := None |} :: trace w ->
              now w' = now w + Z.of_N (latency env (tick w)) + ms ->
              tick w' = S (tick w) ->
              db w' = db w -> invoked w' = invoked w -> fs w' = fs w ->
              Q (Ok tt) w') ->
  wp (sleep ms) env w Q.
Proof. intros HQ. unfold sleep. wp_go. by apply HQ. Qed.

(** The invariant of the polling loop. *)
Lemma wait_loop_spec self id startTime timeout env fuel w :
  wp (wait_loop fuel self id startTime timeout) env w
     (wait_post env id startTime timeout fuel w).
Proof.
  revert w. induction fuel as [|fuel IH]; intros w.
  - unfold wp, wait_post. simpl. exists [], [], [].
    repeat split; try done; simpl; lia.
  - simpl. apply wp_bind, wp_Date_now. cbn beta iota.
    destruct (now w - startTime <? timeout) eqn:Hlt.
    2:{ apply wp_throw. apply Z.ltb_ge in Hlt.
        exists [], [], []. repeat split; try done; try (simpl; lia).
        left. repeat split; try done. }
    apply Z.ltb_lt in Hlt.
    apply wp_bind, getDeployment_spec. cbv zeta.
    set (ev := EvFetch "GET" (poll_endpoint id)).
    assert (Hlat : 0 <= Z.of_N (latency env (tick w))) by lia.
    assert (Hone : forall t o,
      poll_answer env {| call_no := tick w; call_event := ev; call_thrown := t |} = o ->
      polled env id (rev [ {| call_no := tick w; call_event := ev; call_thrown := t |} ])
      = [o]).
    { intros t o <-. simpl. rewrite polled_cons_poll by apply is_poll_fetch. done. }
    assert (Hev : forall t, Forall adapter_event
              [ {| call_no := tick w; call_event := ev; call_thrown := t |} ]).
    { intros t. by repeat constructor. }
    destruct (fault env (tick w) ev) as [e|] eqn:Ht.
    { eexists [_], [], [None]. simpl app.
      split; [done|]. split; [by apply Hev|]. split; [by apply Hone|].
      repeat split; try done; try (simpl; lia). by right; right. }
    assert (Hans : forall d,
      resp_ok (http_response env (tick w)) = true ->
      d = resp_deployment (http_response env (tick w)) ->
      poll_answer env {| call_no := tick w; call_event := ev; call_thrown := None |}
      = Some d).
    { intros d Hok ->. unfold poll_answer. simpl. by rewrite Hok. }
    destruct (resp_ok (http_response env (tick w))) eqn:Hok.
    2:{ eexists [_], [], [None]. simpl app.
        split; [done|]. split; [by apply Hev|].
        split; [apply Hone; unfold poll_answer; simpl; by rewrite Hok|].
        repeat split; try done; try (simpl; lia). by right; right. }
    set (d := resp_deployment (http_response env (tick w))).
    unfold is_state.
    destruct (bool_decide (vd_state d = READY)) eqn:Hready.
    { apply bool_decide_eq_true in Hready. apply wp_ret.
      eexists [_], [], [Some d]. simpl app.
      split; [done|]. split; [by apply Hev|]. split; [by apply Hone, Hans|].
      repeat split; try done; simpl; lia. }
    apply bool_decide_eq_false in Hready.
    destruct (bool_decide (vd_state d = ERROR) || bool_decide (vd_state d = CANCELED))
      eqn:Hbad.
    { apply wp_throw.
      eexists [_], [], [Some d]. simpl app.
      split; [done|]. split; [by apply Hev|]. split; [by apply Hone, Hans|].
      repeat split; try done; try (simpl; lia).
      right; left. exists d. repeat split; try done.
      apply orb_true_iff in Hbad as [H|H]; apply bool_decide_eq_true in H; auto. }
    apply orb_false_iff in Hbad as [Herr Hcan].
    apply bool_decide_eq_false in Herr, Hcan.
    apply wp_bind, sleep_spec. intros w2 Htr Hnow _ Hdb Hinv Hfs.
    eapply wp_mono; [apply IH|].
    intros r w3 (es & pre & last & Htr3 & Hes & Hpolls & Hpre & Hdb3 & Hinv3 & Hfs3
                 & Htime & Hbound & Hr).
    simpl in Htr, Hnow, Hdb, Hinv, Hfs.
    eexists (es ++ [_; _])%list, (Some d :: pre), last.
    split. { rewrite Htr3, Htr. by rewrite <- app_assoc. }
    split. { apply Forall_app. split; [done|]. by repeat constructor. }
    split.
    { rewrite rev_app_distr. simpl rev. simpl app.
      rewrite polled_cons_poll by apply is_poll_fetch.
      rewrite polled_cons_other by done.
      rewrite Hpolls. by rewrite (Hans d). }
    split.
    { constructor; [|done]. exists d. split; [done|].
      destruct (vd_state d); tauto. }
    split; [congruence|]. split; [congruence|]. split; [congruence|].
    split. { simpl length. lia. }
    split.
    { intros _. simpl length.
      destruct (pre ++ last)%list as [|x l] eqn:Hpl.
      - simpl. lia.
      - assert (Hne : x :: l <> []) by done.
        specialize (Hbound Hne). simpl length in *. lia. }
    destruct r as [d'|e'|]; [done| |].
    + destruct Hr as [(? & ? & ?)|[?|?]]; [left|right; left|right; right];
        repeat split; done.
    + destruct Hr as [? Hlen]. split; [done|]. simpl. by rewrite Hlen.
Qed.

(** The fuel of [waitForDeployment] outlasts the timeout. *)
Lemma wait_fuel_enough timeout :
  timeout <= 5000 * (Z.of_nat (wait_fuel timeout) - 1).
Proof.
  unfold wait_fuel. destruct (Z.le_gt_cases 0 timeout) as [Hpos|Hneg].
  - rewrite Nat2Z.inj_add, Z2Nat.id by (apply Z.div_pos; lia).
    pose proof (Z.mul_succ_div_gt timeout 5000 ltac:(lia)). lia.
  - lia.
Qed.

Lemma waitForDeployment_spec self id timeout env w :
  wp (waitForDeployment self id timeout) env w (fun r w' =>
    r <> OutOfFuel
    /\ wait_post env id (now w) (default default_timeout timeout)
         (wait_fuel (default default_timeout timeout)) w r w').
Proof.
  unfold waitForDeployment. apply wp_bind, wp_Date_now. cbn beta iota.
  eapply wp_mono; [apply wait_loop_spec|].
  intros r w' Hpost. split; [|done].
  destruct Hpost as (es & pre & last & _ & _ & _ & _ & _ & _ & _ & _ & Hbound & Hr).
  intros ->. destruct Hr as [-> Hlen]. rewrite app_nil_r in Hbound.
  pose proof (wait_fuel_enough (default default_timeout timeout)) as Hfuel.
  assert (Hne : pre <> []).
  { intros ->. unfold wait_fuel in Hlen. simpl in Hlen. lia. }
  specialize (Hbound Hne). rewrite Hlen in Hbound. lia.
Qed.

Lemma total_duration_app env es es' :
  total_duration env (es ++ es')
  = total_duration env es + total_duration env es'.
Proof. induction es as [|e es IH]; simpl; lia. Qed.

(** The course of the polling loop: [k] rounds that go on, then the poll
    that ends it, or no further poll when the time is up. *)
Lemma wait_loop_run fuel self id startTime timeout env w :
  wp (wait_loop fuel self id startTime timeout) env w (fun r w' =>
    exists k body final,
      trace w' = (rev (body ++ final) ++ trace w)%list
      /\ map call_event body = rounds id k
      /\ Forall in_progress (polled env id body)
      /\ length (polled env id (body ++ final)) = (k + length final)%nat
      /\ now w' = now w + total_duration env (body ++ final)
      /\ ((k + length final)%nat <> 0%nat ->
          5000 * (Z.of_nat (k + length final) - 1) + (now w - startTime)
          < timeout)
      /\ (forall before e after,
            (body ++ final)%list = (before ++ e :: after)%list ->
            call_event e = poll_event id ->
            now w - startTime + total_duration env before < timeout)
      /\ match r with
         | Ok d =>
             exists e, final = [e] /\ call_event e = poll_event id
                       /\ poll_answer env e = Some d /\ vd_state d = READY
         | Throw x =>
             (final = [] /\ x = Error timeout_message
              /\ timeout <= now w' - startTime)
             \/ (exists e, final = [e] /\ call_event e = poll_event id
                   /\ ((exists d, poll_answer env e = Some d
                          /\ (vd_state d = ERROR \/ vd_state d = CANCELED)
                          /\ x = Error (failed_state_message (vd_state d)))
                       \/ exchange_error env e = Some x))
         | OutOfFuel => True
         end).
Proof.
  revert w. induction fuel as [|fuel IH]; intros w.
  - unfold wp. simpl. exists 0%nat, [], []. simpl.
    repeat split; try done; try lia.
    intros before e after H. by destruct before.
  - simpl. apply wp_bind, wp_Date_now. cbn beta iota.
    destruct (now w - startTime <? timeout) eqn:Hlt.
    2:{ apply wp_throw. apply Z.ltb_ge in Hlt.
        exists 0%nat, [], []. simpl. repeat split; try done; try lia.
        - intros before e after H. by destruct before.
        - left. repeat split; try done. }
    apply Z.ltb_lt in Hlt.
    apply wp_bind, getDeployment_spec. cbv zeta.
    fold (poll_event id).
    pose (e0 := fun t => {| call_no := tick w; call_event := poll_event id;
                            call_thrown := t |}).
    assert (Hend : forall t (Q : Prop),
      Q ->
      trace (record_call env (poll_event id) t w)
      = (rev ([] ++ [e0 t]) ++ trace w)%list
      /\ map call_event [] = rounds id 0
      /\ Forall in_progress (polled env id [])
      /\ length (polled env id ([] ++ [e0 t])) = (0 + length [e0 t])%nat
      /\ now (record_call env (poll_event id) t w)
         = now w + total_duration env ([] ++ [e0 t])
      /\ ((0 + length [e0 t])%nat <> 0%nat ->
          5000 * (Z.of_nat (0 + length [e0 t]) - 1) + (now w - startTime)
          < timeout)
      /\ (forall before e after,
            ([] ++ [e0 t])%list = (before ++ e :: after)%list ->
            call_event e = poll_event id ->
            now w - startTime + total_duration env before < timeout)
      /\ Q).
    { intros t Q HQ. unfold e0. simpl app.
      split; [done|]. split; [done|]. split; [constructor|].
      split. { rewrite polled_cons_poll by apply is_poll_fetch. done. }
      split. { simpl. unfold duration. simpl. lia. }
      split; [simpl; lia|]. split; [|done].
      intros before e after H _. destruct before as [|b before].
      - simpl. lia.
      - injection H as _ H. by destruct before. }
    destruct (fault env (tick w) (poll_event id)) as [x|] eqn:Ht.
    { exists 0%nat, [], [e0 (Some x)]. apply Hend.
      right. eexists. split; [done|]. split; [done|]. right.
      unfold exchange_error. done. }
    destruct (resp_ok (http_response env (tick w))) eqn:Hok.
    2:{ exists 0%nat, [], [e0 None]. apply Hend.
        right. eexists. split; [done|]. split; [done|]. right.
        unfold exchange_error. simpl. by rewrite Hok. }
    set (d := resp_deployment (http_response env (tick w))).
    assert (Hans : poll_answer env {| call_no := tick w;
                                      call_event := poll_event id;
                                      call_thrown := None |} = Some d).
    { unfold poll_answer. simpl. by rewrite Hok. }
    unfold is_state.
    destruct (bool_decide (vd_state d = READY)) eqn:Hready.
    { apply bool_decide_eq_true in Hready. apply wp_ret.
      exists 0%nat, [], [e0 None]. apply Hend. eauto. }
    apply bool_decide_eq_false in Hready.
    destruct (bool_decide (vd_state d = ERROR) || bool_decide (vd_state d = CANCELED))
      eqn:Hbad.
    { apply wp_throw. exists 0%nat, [], [e0 None]. apply Hend.
      right. eexists. split; [done|]. split; [done|]. left.
      exists d. split; [done|]. split; [|done].
      apply orb_true_iff in Hbad as [H|H]; apply bool_decide_eq_true in H; auto. }
    apply orb_false_iff in Hbad as [Herr Hcan].
    apply bool_decide_eq_false in Herr, Hcan.
    apply wp_bind, sleep_spec. intros w2 Htr Hnow Htick Hdb Hinv Hfs.
    eapply wp_mono; [apply IH|].
    intros r w3 (k & body & final & Htr3 & Hev & Hpre & Hlen & Hnow3 & Hk
                 & Hstart & Hr).
    simpl in Htr, Hnow, Htick.
    clear Hend. clear e0.
    set (e0 := {| call_no := tick w; call_event := poll_event id;
                  call_thrown := None |}) in *.
    set (s0 := {| call_no := S (tick w); call_event := EvSleep 5000;
                  call_thrown := None |}) in *.
    assert (Hd0 : duration env e0 = Z.of_N (latency env (tick w))).
    { unfold duration. simpl. lia. }
    assert (Hs0 : duration env s0 = Z.of_N (latency env (S (tick w))) + 5000).
    { unfold duration. simpl. lia. }
    exists (S k), (e0 :: s0 :: body), final.
    split. { rewrite Htr3, Htr. simpl. by rewrite <- !app_assoc. }
    split. { simpl. by rewrite Hev. }
    split.
    { rewrite polled_cons_poll by apply is_poll_fetch.
      rewrite polled_cons_other by done. constructor; [|done].
      rewrite Hans. exists d. split; [done|]. destruct (vd_state d); tauto. }
    split.
    { simpl app. rewrite polled_cons_poll by apply is_poll_fetch.
      rewrite polled_cons_other by done. simpl. by rewrite Hlen. }
    split. { simpl. rewrite Hnow3, Hnow, Hd0, Hs0. lia. }
    split.
    { intros _. destruct (k + length final)%nat as [|n] eqn:Hn.
      - replace (S k + length final)%nat with 1%nat by lia. simpl. lia.
      - assert (Hne : S n <> 0%nat) by done. specialize (Hk Hne).
        rewrite Hnow in Hk. replace (S k + length final)%nat with (S (S n)) by lia.
        lia. }
    split.
    { intros before e after H He. destruct before as [|b0 before].
      - simpl. lia.
      - injection H as <- H. destruct before as [|b1 before].
        + injection H as <- _. discriminate He.
        + injection H as <- H. specialize (Hstart _ _ _ H He).
          simpl. rewrite Hd0, Hs0. lia. }
    destruct r as [d'|x|]; [done| |done].
    destruct Hr as [(? & ? & ?)|?]; [left|right]; done.
Qed.


(** A wait, seen from the code around it. *)
Ltac known_wait := idtac;
  lazymatch goal with
  | |- wp (waitForDeployment _ _ _) _ _ _ =>
      eapply wp_mono; [apply waitForDeployment_spec|];
      let es := fresh "es" in
      let Htr := fresh "Htr" in
      intros ? ? [? (es & ? & ? & Htr & ? & _ & _ & ? & _)]
  end.

Lemma grows_of_app P (t t' es : list entry) :
  t' = (es ++ t)%list -> Forall P es -> grows P t t'.
Proof. intros -> H. by exists es. Qed.

Lemma deployToVercel_structured config env w :
  wp (deployToVercel config) env w (structured w).
Proof.
  unfold deployToVercel, new_VercelService, getProject, createProject,
    setEnvironmentVariables, Vercel.deploy, request.
  apply wp_bind, wp_enter. cbn beta iota.
  apply wp_try_catch.
  eapply (wp_mono _ _ _ (fun r w' =>
            r <> OutOfFuel
            /\ (forall x, r = Ok x ->
                  dr_success x = true /\ exists u, dr_url x = Some u)
            /\ db w' = db w
            /\ grows adapter_event (trace w) (trace w'))).
  { wp_go_with known_wait; wp_simpl_in_all;
      try match goal with
          | Htr : trace ?w' = (?es ++ _)%list, Hes : Forall adapter_event ?es |- _ =>
              pose proof (grows_of_app _ _ _ _ Htr Hes)
          end;
      (split; [done|]); (split; [try done; intros ? [= <-]; simpl; eauto|]);
      (split; [congruence|]); adapter_grows. }
  intros r w' (Hfuel & Hok & Hdb & Htr).
  destruct r as [x|e|]; [| |done].
  - split; [|done]. exists x. destruct (Hok x eq_refl) as [Hs Hu].
    repeat split; [congruence|done].
  - apply wp_ret. split; [|done]. eexists. split; [done|].
    split; [eauto|discriminate].
Qed.

(** *** How a wait ends *)

Lemma is_poll_of_event id e : call_event e = poll_event id -> is_poll id e = true.
Proof.
  intros H. unfold is_poll. rewrite H. unfold poll_event.
  by rewrite !String.eqb_refl.
Qed.

Lemma status_poll_not_lookup env name e :
  is_status_poll e -> ~ lookup_missing env name e.
Proof.
  intros [id H] [Hev _]. rewrite Hev in H. unfold poll_event, poll_endpoint in H.
  discriminate H.
Qed.

Lemma waitForDeployment_unfold self id timeout env w :
  waitForDeployment self id timeout env w
  = wait_loop (wait_fuel (default default_timeout timeout)) self id (now w)
      (default default_timeout timeout) env w.
Proof. reflexivity. Qed.

Lemma answered_poll_no_error env id e d :
  call_event e = poll_event id -> poll_answer env e = Some d ->
  exchange_error env e = None.
Proof.
  unfold poll_answer, exchange_error. intros -> H. simpl.
  destruct (call_thrown e); [done|].
  by destruct (resp_ok (http_response env (call_no e))).
Qed.

Lemma rounds_passed env name id k body :
  map call_event body = rounds id k ->
  Forall in_progress (polled env id body) ->
  Forall (passed env name) body.
Proof.
  revert body. induction k as [|k IH]; intros body Hev Hpolls.
  - destruct body; [constructor|discriminate Hev].
  - destruct body as [|e [|s body]]; try discriminate Hev.
    simpl in Hev. injection Hev as He Hs Hev.
    rewrite polled_cons_poll in Hpolls by by apply is_poll_of_event.
    rewrite polled_cons_other in Hpolls by (unfold is_poll; by rewrite Hs).
    apply Forall_cons in Hpolls as [(d & Hd & Hstate) Hpolls].
    constructor; [|constructor; [|by apply IH]].
    + split.
      * left. by eapply answered_poll_no_error.
      * intros _. by exists d.
    + split.
      * left. unfold exchange_error. by rewrite Hs.
      * intros [id' H]. rewrite Hs in H. discriminate H.
Qed.

Lemma rounds_end id k body :
  map call_event body = rounds id (S k) ->
  exists pre s, body = (pre ++ [s])%list /\ call_event s = EvSleep 5000.
Proof.
  revert body. induction k as [|k IH]; intros body Hev.
  - destruct body as [|e [|s [|? ?]]]; try discriminate Hev.
    injection Hev as _ Hs. by exists [e], s.
  - destruct body as [|e [|s body]]; try discriminate Hev.
    change (rounds id (S (S k))) with (poll_event id :: EvSleep 5000 :: rounds id (S k)) in Hev.
    simpl map in Hev. injection Hev as _ _ Hev.
    destruct (IH body Hev) as (pre & s' & -> & Hs').
    by exists (e :: s :: pre), s'.
Qed.

(** How a wait with the default timeout ends, seen from [deployToVercel]:
    the last call and the calls before it. *)
Lemma waitForDeployment_ends self id env name w :
  wp (waitForDeployment self id None) env w (fun r w' =>
    exists e pre,
      trace w' = (e :: pre ++ trace w)%list
      /\ db w' = db w
      /\ Forall (passed env name) pre
      /\ match r with
         | Ok d =>
             is_status_poll e /\ poll_answer env e = Some d
             /\ vd_state d = READY
         | Throw x =>
             (call_event e = EvSleep 5000 /\ x = Error timeout_message)
             \/ (is_status_poll e
                 /\ exists d, poll_answer env e = Some d
                      /\ (vd_state d = ERROR \/ vd_state d = CANCELED)
                      /\ x = Error (failed_state_message (vd_state d)))
             \/ (is_status_poll e /\ exchange_error env e = Some x)
         | OutOfFuel => False
         end).
Proof.
  pose proof (waitForDeployment_spec self id None env w) as [Hfuel Hpost].
  destruct Hpost as (_ & _ & _ & _ & _ & _ & _ & Hdb & _).
  pose proof (wait_loop_run (wait_fuel (default default_timeout None)) self id
                (now w) (default default_timeout None) env w) as Hloop.
  unfold wp in *. rewrite <- !waitForDeployment_unfold in Hloop.
  destruct (waitForDeployment self id None env w) as [r w'].
  simpl fst in *. simpl snd in *.
  destruct Hloop as (k & body & final & Htr & Hev & Hpre & _ & Hnow & _ & _ & Hend).
  pose proof (rounds_passed env name id k body Hev Hpre) as Hpassed.
  destruct r as [d|x|]; [| |done].
  - destruct Hend as (e & -> & He & Hd & Hready).
    exists e, (rev body). rewrite Htr, rev_app_distr. simpl.
    split; [done|]. split; [done|]. split; [by apply Forall_rev|].
    split; [by exists id|done].
  - destruct Hend as [(-> & -> & Hup)|(e & -> & He & Hx)].
    + rewrite app_nil_r in *. destruct k as [|k].
      { destruct body; [|discriminate Hev]. simpl in Hnow, Hup.
        unfold default_timeout in Hup. lia. }
      destruct (rounds_end id k body Hev) as (pre & s & -> & Hs).
      exists s, (rev pre). rewrite Htr, rev_app_distr. simpl.
      split; [done|]. split; [done|].
      apply Forall_app in Hpassed as [Hpassed _].
      split; [by apply Forall_rev|]. by left.
    + exists e, (rev body). rewrite Htr, rev_app_distr. simpl.
      split; [done|]. split; [done|]. split; [by apply Forall_rev|].
      assert (Hp : is_status_poll e) by by exists id.
      destruct Hx as [(d & Hd & Hs & ->)|Hx]; right; [left|right]; eauto.
Qed.

(** *** The course of a deployment *)

(** The error of an exchange, read off its log entry. *)
Ltac exchange_error_of :=
  unfold exchange_error; cbn [call_event call_thrown call_no];
  repeat match goal with H : resp_ok _ = _ |- _ => rewrite H end;
  reflexivity.

Ltac passed_entry :=
  split;
  [ first [ left; exchange_error_of
          | right; split; [reflexivity|];
            eexists; split; [exchange_error_of|assumption] ]
  | let Hp := fresh in
    intros [? Hp]; cbn [call_event] in Hp;
    unfold poll_event, poll_endpoint in Hp; discriminate Hp ].

Ltac all_passed :=
  repeat first [ apply Forall_nil_2
               | apply Forall_app_2; [assumption|]
               | apply Forall_cons_2; [passed_entry|] ].

Ltac not_lookup :=
  let Hev := fresh in let Herr := fresh in let H404 := fresh in
  intros (Hev & ? & Herr & H404);
  first [ discriminate Hev
        | unfold exchange_error in Herr;
          cbn [call_event call_thrown call_no] in Herr;
          repeat match goal with
                 | H : resp_ok _ = _ |- _ => rewrite H in Herr
                 end;
          injection Herr as <-; congruence ].

Ltac ending_entry :=
  lazymatch goal with
  | Hend : _ \/ _ |- _ =>
      destruct Hend as [[? ->]|[(? & ? & ? & ? & ->)|[? ?]]];
      [ right; right; split; [assumption|reflexivity]
      | right; left; split; [assumption|];
        eexists; split; [eassumption|]; right; split; [assumption|reflexivity]
      | left; eexists; split; [eassumption|];
        split; [by apply status_poll_not_lookup|reflexivity] ]
  | Hend : _ /\ _ |- _ =>
      destruct Hend as (? & ? & ?);
      right; left; split; [assumption|];
      eexists; split; [eassumption|]; left; split; [assumption|reflexivity]
  | |- _ =>
      left; eexists; split; [exchange_error_of|];
      split; [not_lookup|reflexivity]
  end.

Lemma deployToVercel_run config env w :
  wp (deployToVercel config) env w (fun r w' =>
    exists x es, r = Ok x
      /\ trace w' = (es ++ trace w)%list
      /\ db w' = db w
      /\ vercel_shape env config x es).
Proof.
  unfold deployToVercel, new_VercelService, getProject, createProject,
    setEnvironmentVariables, Vercel.deploy, request.
  wp_go_with ltac:(idtac; lazymatch goal with
                   | |- wp (waitForDeployment _ _ _) _ _ _ =>
                       eapply wp_mono;
                       [apply (waitForDeployment_ends _ _ _ (dc_projectName config))|];
                       let Hr := fresh "Hend" in
                       intros ? ? (? & ? & ? & ? & ? & Hr)
                   end).
  all: wp_simpl_in_all.
  all: try done.
  all: repeat match goal with
              | H : trace ?w1 = _ |- context [trace ?w1] => rewrite H
              end.
  all: eexists _, _; split; [reflexivity|]; split; [trace_split|].
  all: split; [first [done | congruence]|].
  all: unfold vercel_shape.
  all: first [ left; split; reflexivity
             | right; eexists _, _; split; [reflexivity|];
               split; [all_passed|ending_entry] ].
Qed.

End VercelFacts.

(** ** The deploy entry points and the pipeline *)

Module DeployFacts.
Import Js Parser Flow FlowFacts GitHub GitHubFacts Vercel VercelFacts Deploy Samples.

Lemma deploy_structured options env w :
  wp (Deploy.deploy options) env w (structured w).
Proof.
  unfold Deploy.deploy. apply wp_bind, wp_enter. cbn beta iota.
  destruct (String.eqb (do_provider options) "vercel").
  { eapply wp_mono; [apply deployToVercel_structured|]. by intros r w' H. }
  repeat (lazymatch goal with
          | |- wp (if ?b then _ else _) _ _ _ => destruct b
          end);
    apply wp_ret; (split; [|split; [done|apply grows_refl]]);
    eexists; (split; [done|]); (split; [eauto|discriminate]).
Qed.







(** The failures the claim names, each returned and not thrown: a missing
    token (found before any external call), an HTTP error, a terminal state
    other than READY. *)
Lemma deployToVercel_without_token config env w :
  getenv env "VERCEL_TOKEN" = None ->
  fst (deployToVercel config env w)
  = Ok (failure_result "Vercel token not configured")
  /\ trace (snd (deployToVercel config env w)) = trace w.
Proof.
  intros H. unfold deployToVercel, new_VercelService, mbind, M_bind, bind,
    try_catch, enter, process_env. simpl. rewrite H. done.
Qed.

(** A deployment that never leaves BUILDING: sixty polls, then the timeout
    error, returned as a failure. *)
Example deployToVercel_times_out :
  let run := deployToVercel
               {| dc_provider := "vercel"; dc_projectName := "todo-app";
                  dc_envVariables := None; dc_buildCommand := None;
                  dc_outputDirectory := None |}
               never_ready empty_world in
  fst run = Ok (failure_result "Deployment timed out")
  /\ length (polled never_ready "dpl_1" (entries_since empty_world (snd run)))
     = 60%nat
  /\ now (snd run) = 300000.
Proof. cbv zeta. repeat split; vm_compute; reflexivity. Qed.

(** C4: when the source host phase of the pipeline fails, the pipeline
    returns at once: its result has [success = false], no deployment URL,
    and the error of phase 1 behind the prefix "GitHub setup failed: "; the
    world is the one phase 1 left, and neither [deploy] nor [deployToVercel]
    was entered. *)
Theorem pipeline_stops_after_failed_source_host (options : PipelineOptions)
    (env : Env) (w : World) (gh : GitHubResult) :
  let phase1 := createAndPushToGitHub (po_projectName options)
                  (po_description options) (po_files options)
                  (po_isPrivate options) env w in
  let run := fullDeploymentPipeline options env w in
  fst phase1 = Ok gh ->
  ghr_success gh = false ->
  (exists m,
     ghr_error gh = Some m
     /\ fst run = Ok {| success := false; githubUrl := None;
                        deploymentUrl := None;
                        error := Some ("GitHub setup failed: " ++ m) |})
  /\ snd run = snd phase1
  /\ ~ In "deploy" (invoked_since w (snd run))
  /\ ~ In "deployToVercel" (invoked_since w (snd run)).
Proof.
  cbv zeta. intros Hgh Hfail.
  pose proof (createAndPushToGitHub_spec (po_projectName options)
                (po_description options) (po_files options)
                (po_isPrivate options) env w) as Hspec.
  unfold wp in Hspec. unfold fullDeploymentPipeline, mbind, M_bind, bind.
  destruct (createAndPushToGitHub _ _ _ _ env w) as [r w1].
  simpl in Hgh. subst r. simpl in Hspec. rewrite Hfail. simpl.
  destruct Hspec as ((x & [= <-] & Hx) & _ & Hinv & _).
  destruct (Hx Hfail) as (_ & m & Hm).
  split; [exists m; by rewrite Hm|]. split; [done|].
  rewrite (invoked_since_app w w1 ["createAndPushToGitHub"]) by done.
  simpl. split; intros [H|[]]; discriminate.
Qed.

(** Without a GitHub token phase 1 fails, and the pipeline stops there. *)
Lemma pipeline_stops_without_github_token :
  fst (fullDeploymentPipeline sample_options no_tokens empty_world)
  = Ok {| success := false; githubUrl := None; deploymentUrl := None;
          error := Some "GitHub setup failed: GitHub token not configured" |}
  /\ ~ In "deploy"
         (invoked_since empty_world
            (snd (fullDeploymentPipeline sample_options no_tokens empty_world))).
Proof.
  destruct (pipeline_stops_after_failed_source_host sample_options no_tokens
              empty_world
              {| ghr_success := false; ghr_repoUrl := None;
                 ghr_error := Some "GitHub token not configured" |}
              eq_refl eq_refl) as ((m & Hm & Hrun) & _ & Hdeploy & _).
  injection Hm as <-. split; [exact Hrun | exact Hdeploy].
Defined.

(** The pipeline always returns a result, never touches the datastore,
    and makes adapter calls only. *)
Lemma fullDeploymentPipeline_frame options env w :
  wp (fullDeploymentPipeline options) env w
     (fun r w' => (exists x, r = Ok x) /\ db w' = db w
                  /\ grows adapter_event (trace w) (trace w')).
Proof.
  unfold fullDeploymentPipeline.
  apply wp_bind. eapply wp_mono; [apply createAndPushToGitHub_spec|].
  intros r w1 ((gh & -> & _) & Hdb1 & _ & Htr1). cbn beta iota.
  destruct (negb (ghr_success gh)).
  { apply wp_ret. eauto. }
  apply wp_bind. eapply wp_mono; [apply deploy_structured|].
  intros r w2 ((x & -> & _) & Hdb2 & Htr2). cbn beta iota.
  apply wp_ret. split; [eauto|]. split; [congruence|].
  by eapply grows_trans.
Qed.

End DeployFacts.

(** ** The route handlers *)

Module RoutesFacts.
Import Js Parser Flow FlowFacts GitHub Vercel Deploy DeployFacts Routes Samples.

Lemma not_deployable_false p :
  not_deployable p = false ->
  p_status p = GENERATED /\ exists files, p_generatedFiles p = Some files.
Proof.
  unfold not_deployable. destruct (p_generatedFiles p); [|done].
  intros H%negb_false_iff%bool_decide_eq_true. eauto.
Qed.

Lemma POST_deploy_guard request env w :
  (forall p, projects (db w) !! dpb_projectId (req_body request) = Some p ->
             p_status p <> GENERATED \/ p_generatedFiles p = None) ->
  wp (POST_deploy request) env w (fun r w' =>
    (exists resp error message,
       r = Ok resp /\ body resp = RespError error message
       /\ (400 <= status_code resp)%nat)
    /\ db w' = db w /\ invoked w' = invoked w /\ fs w' = fs w
    /\ grows (before_guard (dpb_projectId (req_body request)))
         (trace w) (trace w')).
Proof.
  intros Hguard.
  unfold POST_deploy, deploySchema_parse, getConfiguredProviders,
    db_project_findUnique.
  wp_go_with ltac:(idtac; lazymatch goal with
                   | H : not_deployable ?p = false, Hp : _ !! _ = Some ?p |- _ =>
                       exfalso; apply not_deployable_false in H as [? [? ?]];
                       first [ destruct (Hguard p Hp) | destruct (Hguard p eq_refl) ];
                       congruence
                   end).
  all: (split; [eexists _, _, _; split; [done|]; split; [done|]; simpl; lia|]).
  all: repeat (split; [done|]).
  all: grows_with ltac:(unfold before_guard; simpl; auto).
Qed.

(** C5: a deployment request on a project that is not in GENERATED status,
    or that has no generated files, is answered with an error response
    (status 400 or above); the run enters no adapter, leaves the datastore
    as it was (so no Deployment row is created and the project is not
    moved to DEPLOYING), does not touch the file system, and its only
    external calls are the session lookup, the reading of the body and the
    lookup of the project. *)
Theorem deploy_rejected_unless_generated (request : Request DeployBody)
    (env : Env) (w : World) :
  (forall p, projects (db w) !! dpb_projectId (req_body request) = Some p ->
             p_status p <> GENERATED \/ p_generatedFiles p = None) ->
  let run := POST_deploy request env w in
  (exists resp error message,
     fst run = Ok resp /\ body resp = RespError error message
     /\ (400 <= status_code resp)%nat)
  /\ db (snd run) = db w
  /\ invoked_since w (snd run) = []
  /\ fs (snd run) = fs w
  /\ Forall (before_guard (dpb_projectId (req_body request)))
       (entries_since w (snd run)).
Proof.
  intros Hguard. cbv zeta.
  pose proof (POST_deploy_guard request env w Hguard) as H. unfold wp in H.
  destruct H as (Hresp & Hdb & Hinv & Hfs & Htr).
  split; [done|]. split; [done|].
  split. { by rewrite (invoked_since_app w _ []). }
  split; [done|]. by apply grows_entries_since.
Qed.

(** A project still in DRAFT is refused with status 400, even with the
    provider configured. *)
Lemma deploy_of_draft_rejected :
  (exists resp error message,
     fst (POST_deploy deploy_request vercel_env draft_world) = Ok resp
     /\ body resp = RespError error message /\ (400 <= status_code resp)%nat)
  /\ db (snd (POST_deploy deploy_request vercel_env draft_world)) = db draft_world
  /\ invoked_since draft_world
       (snd (POST_deploy deploy_request vercel_env draft_world)) = [].
Proof.
  destruct (deploy_rejected_unless_generated deploy_request vercel_env draft_world)
    as (Hresp & Hdb & Hinv & _).
  - intros p Hp. vm_compute in Hp. injection Hp as <-. left. discriminate.
  - split; [exact Hresp|]. split; [exact Hdb | exact Hinv].
Defined.

(** *** Terminal status *)

(** A failure handler's own write cannot be the call that threw, and the
    parser cannot run out of fuel. *)
Ltac handler_ok Hprot := idtac;
  lazymatch goal with
  | H : parseCodeGenerationResponse ?r = OutOfFuel |- _ =>
      exfalso; exact (ParserFacts.parse_returns r H)
  | H : fault _ _ (EvDb ?q) = Some _ |- _ =>
      rewrite (Hprot _ q) in H by (vm_compute; reflexivity); discriminate
  end.

Ltac not_wrote :=
  let H := fresh in
  intros [H ?]; first [ discriminate | simpl in H; congruence ].

Ltac status_done :=
  unfold status_of; wp_simpl; simpl; auto.

Lemma POST_generate_terminal request env w :
  handler_writes_succeed env ->
  wp (POST_generate request) env w (fun r w' =>
    let id := gb_projectId (req_body request) in
    (exists resp, r = Ok resp)
    /\ (grows (fun e => ~ wrote_status id GENERATING e) (trace w) (trace w')
        \/ status_of w' id = Some GENERATED \/ status_of w' id = Some FAILED)).
Proof.
  intros Hprot.
  unfold POST_generate, generateSchema_parse, db_project_findUnique,
    db_project_update, db_codeGeneration_create, db_codeGeneration_update,
    audit_create, audit_error, createAuditLog, db_auditLog_create,
    AI.generate, AI.getDefaultProvider, AI.getLLMProvider.
  wp_go_with ltac:(handler_ok Hprot).
  all: cbv zeta; (split; [eauto|]).
  all: first [ left; solve [grows_with not_wrote]
             | right; solve [status_done] ].
Qed.

Lemma adapter_not_wrote id s e : adapter_event e -> ~ wrote_status id s e.
Proof.
  unfold adapter_event, wrote_status. intros He [Hev _].
  rewrite Hev in He. done.
Qed.

Ltac known_pipeline := idtac;
  lazymatch goal with
  | |- wp (fullDeploymentPipeline _) _ _ _ =>
      eapply wp_mono; [apply fullDeploymentPipeline_frame|];
      let H := fresh "Hpipe" in
      intros ? ? ((? & ->) & ? & H);
      eapply grows_mono in H; [|intros ?; apply adapter_not_wrote]
  | H : db ?w' = _ |- context [db ?w'] => rewrite H
  end.

Lemma POST_deploy_terminal request env w :
  handler_writes_succeed env ->
  wp (POST_deploy request) env w (fun r w' =>
    let id := dpb_projectId (req_body request) in
    (exists resp, r = Ok resp)
    /\ (grows (fun e => ~ wrote_status id DEPLOYING e) (trace w) (trace w')
        \/ status_of w' id = Some DEPLOYED \/ status_of w' id = Some FAILED)).
Proof.
  intros Hprot.
  unfold POST_deploy, deploySchema_parse, getConfiguredProviders,
    db_project_findUnique, db_project_update, db_deployment_create,
    db_deployment_update, audit_create, audit_error, createAuditLog,
    db_auditLog_create.
  wp_go_with ltac:(first [handler_ok Hprot | known_pipeline]).
  all: cbv zeta; (split; [eauto|]).
  all: first [ left; solve [grows_with not_wrote]
             | right; solve [status_done] ].
Qed.

(** C3, as stated, fails, in two ways.  When the datastore refuses the
    creation of the CodeGeneration row, the handler has already written
    GENERATING and the error is thrown before the inner try block is
    entered.  When the LLM call fails and the handler's own write of FAILED
    to the project fails too, the catch block cannot record the failure.
    Either run ends with a 500 response and the project in GENERATING. *)
Lemma generate_can_end_in_generating :
  ((exists e,
      In e (entries_since draft_world
              (snd (POST_generate generate_request create_fails_env draft_world)))
      /\ wrote_status "p1" GENERATING e)
   /\ fst (POST_generate generate_request create_fails_env draft_world)
      = Ok {| status_code := 500;
              body := RespError "Failed to generate code"
                        (Some "Can't reach database server") |}
   /\ status_of (snd (POST_generate generate_request create_fails_env draft_world))
        "p1" = Some GENERATING)
  /\ ((exists e,
         In e (entries_since draft_world
                 (snd (POST_generate generate_request handler_fails_env draft_world)))
         /\ wrote_status "p1" GENERATING e)
      /\ fst (POST_generate generate_request handler_fails_env draft_world)
         = Ok {| status_code := 500;
                 body := RespError "Failed to generate code"
                           (Some "Connection terminated unexpectedly") |}
      /\ status_of (snd (POST_generate generate_request handler_fails_env draft_world))
           "p1" = Some GENERATING).
Proof.
  split; (split; [|split; vm_compute; reflexivity]);
    exists {| call_no := 3;
              call_event := EvDb (ProjectUpdateQ "p1" (status_update GENERATING));
              call_thrown := None |};
    (split; [vm_compute; tauto | split; reflexivity]).
Qed.

(** C3 (amended): provided the datastore writes that the failure handling
    itself consists of succeed (the creation of the CodeGeneration or
    Deployment row, and the handler's writes of FAILED to that row and to
    the project), both flows return a response, and a run that wrote
    GENERATING (DEPLOYING) to the project of the request leaves that
    project in GENERATED (DEPLOYED) or FAILED, whatever else throws: the
    LLM call, the parser, the pipeline, the success-path writes, or the
    audit log. *)
Theorem flows_end_in_terminal_status (generate : Request GenerateBody)
    (deploy : Request DeployBody) (env : Env) (w : World) :
  handler_writes_succeed env ->
  ((exists resp, fst (POST_generate generate env w) = Ok resp)
   /\ forall e,
        In e (entries_since w (snd (POST_generate generate env w))) ->
        wrote_status (gb_projectId (req_body generate)) GENERATING e ->
        status_of (snd (POST_generate generate env w))
          (gb_projectId (req_body generate)) = Some GENERATED
        \/ status_of (snd (POST_generate generate env w))
             (gb_projectId (req_body generate)) = Some FAILED)
  /\ ((exists resp, fst (POST_deploy deploy env w) = Ok resp)
      /\ forall e,
           In e (entries_since w (snd (POST_deploy deploy env w))) ->
           wrote_status (dpb_projectId (req_body deploy)) DEPLOYING e ->
           status_of (snd (POST_deploy deploy env w))
             (dpb_projectId (req_body deploy)) = Some DEPLOYED
           \/ status_of (snd (POST_deploy deploy env w))
                (dpb_projectId (req_body deploy)) = Some FAILED).
Proof.
  intros Hprot. split.
  - destruct (POST_generate_terminal generate env w Hprot) as [Hresp Hend].
    split; [done|]. intros e He Hwrote.
    destruct Hend as [Hnone|Hend]; [|done].
    apply grows_entries_since in Hnone. rewrite Forall_forall in Hnone.
    apply list_elem_of_In in He. by destruct (Hnone e He).
  - destruct (POST_deploy_terminal deploy env w Hprot) as [Hresp Hend].
    split; [done|]. intros e He Hwrote.
    destruct Hend as [Hnone|Hend]; [|done].
    apply grows_entries_since in Hnone. rewrite Forall_forall in Hnone.
    apply list_elem_of_In in He. by destruct (Hnone e He).
Qed.

(** When the LLM backend fails after GENERATING was written, the run ends
    with the project in FAILED. *)
Lemma generate_fails_cleanly_when_llm_fails :
  status_of (snd (POST_generate generate_request llm_fails_env draft_world)) "p1"
  = Some GENERATED
  \/ status_of (snd (POST_generate generate_request llm_fails_env draft_world)) "p1"
     = Some FAILED.
Proof.
  assert (Hprot : handler_writes_succeed llm_fails_env).
  { intros n q _. reflexivity. }
  destruct (flows_end_in_terminal_status generate_request deploy_request
              llm_fails_env draft_world Hprot) as [[_ Hgenerate] _].
  apply (Hgenerate {| call_no := 3;
                      call_event := EvDb (ProjectUpdateQ "p1" (status_update GENERATING));
                      call_thrown := None |}).
  - vm_compute. tauto.
  - split; reflexivity.
Defined.

Example generate_llm_failure_run :
  status_of (snd (POST_generate generate_request llm_fails_env draft_world)) "p1"
  = Some FAILED
  /\ fst (POST_generate generate_request llm_fails_env draft_world)
     = Ok {| status_code := 500;
             body := RespError "Failed to generate code"
                       (Some "529 overloaded_error") |}.
Proof. split; vm_compute; reflexivity. Qed.

(** The deployment scenario of the specification: two polls answer
    BUILDING, the third READY; the Deployment ends in SUCCESS and the
    project in DEPLOYED with its URLs and the time of deployment set. *)
Example deploy_succeeds_after_two_polls :
  let run := POST_deploy deploy_request ready_after_two_polls generated_world in
  fst run = Ok {| status_code := 200;
                  body := RespDeployed "0" (Some "https://todo-app.vercel.app")
                            (Some "https://github.com/octocat/todo-app") |}
  /\ map (fmap vd_state)
       (Vercel.polled ready_after_two_polls "dpl_1"
          (entries_since generated_world (snd run)))
     = [Some BUILDING; Some BUILDING; Some READY]
  /\ d_status <$> deployments (db (snd run)) !! "0" = Some DEP_SUCCESS
  /\ status_of (snd run) "p1" = Some DEPLOYED
  /\ (p_deploymentUrl <$> projects (db (snd run)) !! "p1")
     = Some (Some "https://todo-app.vercel.app")
  /\ (p_lastDeployedAt <$> projects (db (snd run)) !! "p1")
     = Some (Some 1700000012800)
  /\ invoked_since generated_world (snd run)
     = ["createAndPushToGitHub"; "deploy"; "deployToVercel"].
Proof. cbv zeta. repeat split; vm_compute; reflexivity. Qed.

(** *** The version counter *)

(** C2 fails on the code: a run of the generation flow in which everything
    succeeds (response 200, CodeGeneration COMPLETED, project GENERATED,
    one audit entry CREATE) leaves the version of the project at 1, where
    the claim, the data dictionary and the completion trigger of the
    database all say 2. *)
Theorem generate_success_keeps_version :
  fst (POST_generate generate_request anthropic_env draft_world)
  = Ok {| status_code := 200;
          body := RespGenerated "0"
                    [ {| path := Some (JString "index.js");
                         content := Some (JString "...") |} ]
                    120 30 900 |}
  /\ status_of (snd (POST_generate generate_request anthropic_env draft_world)) "p1"
     = Some GENERATED
  /\ cg_status <$> codeGenerations
       (db (snd (POST_generate generate_request anthropic_env draft_world))) !! "0"
     = Some GEN_COMPLETED
  /\ map a_action
       (auditLogs (db (snd (POST_generate generate_request anthropic_env draft_world))))
     = ["CREATE"]
  /\ version_of draft_world "p1" = Some 1
  /\ version_of (snd (POST_generate generate_request anthropic_env draft_world)) "p1"
     = Some 1.
Proof. repeat split; vm_compute; reflexivity. Qed.

(** It is not a matter of the input: no run of the generation flow, on any
    request and in any environment, changes the version of any project. *)
Lemma POST_generate_keeps_versions request env w id :
  version_of (snd (POST_generate request env w)) id = version_of w id.
Proof.
  change (wp (POST_generate request) env w
            (fun _ w' => version_of w' id = version_of w id)).
  unfold POST_generate, generateSchema_parse, db_project_findUnique,
    db_project_update, db_codeGeneration_create, db_codeGeneration_update,
    audit_create, audit_error, createAuditLog, db_auditLog_create,
    AI.generate, AI.getDefaultProvider, AI.getLLMProvider.
  wp_go.
  all: unfold version_of; wp_simpl.
  all: destruct (decide (id = gb_projectId (req_body request))) as [->|Hne];
    rewrite ?lookup_insert_eq, ?lookup_insert_ne by done;
    repeat match goal with H : _ !! _ = _ |- _ => rewrite H end;
    simpl; try done; f_equal; lia.
Qed.

End RoutesFacts.

(** ** More on the response parser *)

Module RegexFacts.
Import Js Parser Text.

Lemma match_here_star_nil p : match_here (AnyStar :: p) "" = match_here p "".
Proof. reflexivity. Qed.

Lemma match_here_star_cons p x s :
  match_here (AnyStar :: p) (String x s)
  = match match_here (AnyStar :: p) s with
    | Some m => Some (String x m)
    | None => match_here p (String x s)
    end.
Proof. reflexivity. Qed.

Lemma match_here_lit c p s :
  match_here (Lit c :: p) s
  = match s with
    | String x s' =>
        if Ascii.eqb x c then option_map (String x) (match_here p s') else None
    | EmptyString => None
    end.
Proof. reflexivity. Qed.

Lemma append_nil (s : string) : "" ++ s = s.
Proof. reflexivity. Qed.

Lemma append_cons x (t s : string) : String x t ++ s = String x (t ++ s).
Proof. reflexivity. Qed.

Lemma closes_cons a b p : closes (a :: b :: p) = closes (b :: p).
Proof. reflexivity. Qed.

Lemma closes_last a : closes [a] = true -> a = Lit close_brace.
Proof.
  destruct a as [c|]; [|done]. cbn [closes].
  by intros ->%Ascii.eqb_eq.
Qed.

Lemma occurs_cons c x s :
  occurs c (String x s) = false -> Ascii.eqb x c = false /\ occurs c s = false.
Proof. cbn [occurs]. apply orb_false_elim. Qed.

(** A pattern that ends with the closing brace matches nothing in a text
    without closing brace. *)
Lemma match_here_closes_none p :
  closes p = true ->
  forall post, occurs close_brace post = false -> match_here p post = None.
Proof.
  induction p as [|a p IH]; [done|].
  destruct p as [|b p].
  - intros ->%closes_last post Hpost. rewrite match_here_lit.
    destruct post as [|y post]; [done|].
    apply occurs_cons in Hpost as [-> _]. done.
  - rewrite closes_cons. intros Hp. specialize (IH Hp). destruct a as [c|].
    + intros post Hpost. rewrite match_here_lit.
      destruct post as [|y post]; [done|].
      apply occurs_cons in Hpost as [_ Hpost].
      destruct (Ascii.eqb y c); [|done]. by rewrite IH.
    + induction post as [|y post IHpost]; intros Hpost.
      * rewrite match_here_star_nil. by apply IH.
      * rewrite match_here_star_cons.
        pose proof Hpost as [_ Hpost']%occurs_cons.
        rewrite (IHpost Hpost'). by apply IH.
Qed.

(** Text without a closing brace, put after the subject, changes no
    match of such a pattern. *)
Lemma match_here_closes_app p post :
  closes p = true -> occurs close_brace post = false ->
  forall t, match_here p (t ++ post) = match_here p t.
Proof.
  intros Hp Hpost. induction p as [|a p IH]; [done|].
  destruct p as [|b p].
  - apply closes_last in Hp as ->.
    intros [|x t]; rewrite ?append_nil, ?append_cons, !match_here_lit.
    + destruct post as [|y post]; [done|].
      apply occurs_cons in Hpost as [-> _]. done.
    + destruct (Ascii.eqb x close_brace); done.
  - rewrite closes_cons in Hp. specialize (IH Hp). destruct a as [c|].
    + intros [|x t]; rewrite ?append_nil, ?append_cons, !match_here_lit.
      * destruct post as [|y post]; [done|].
        apply occurs_cons in Hpost as [_ Hpost].
        destruct (Ascii.eqb y c); [|done].
        by rewrite (match_here_closes_none _ Hp).
      * destruct (Ascii.eqb x c); [|done]. by rewrite IH.
    + induction t as [|x t IHt]; rewrite ?append_nil, ?append_cons.
      * rewrite (match_here_closes_none (AnyStar :: b :: p)) by done.
        symmetry. by apply (match_here_closes_none (AnyStar :: b :: p)).
      * rewrite !match_here_star_cons, IHt.
        by rewrite <- (IH (String x t)).
Qed.

Lemma regex_match_unfold p s :
  regex_match p s
  = match match_here p s with
    | Some m => Some m
    | None =>
        match s with
        | EmptyString => None
        | String _ s' => regex_match p s'
        end
    end.
Proof. destruct s; reflexivity. Qed.

Lemma regex_match_closes_app p post :
  closes p = true -> occurs close_brace post = false ->
  forall t, regex_match p (t ++ post) = regex_match p t.
Proof.
  intros Hp Hpost. induction t as [|x t IHt]; rewrite ?append_nil, ?append_cons.
  - rewrite (regex_match_unfold p ""), (match_here_closes_none p) by done.
    clear -Hp Hpost. induction post as [|y post IH].
    + rewrite regex_match_unfold. by rewrite match_here_closes_none.
    + rewrite regex_match_unfold, match_here_closes_none by done.
      apply occurs_cons in Hpost as [_ Hpost]. auto.
  - rewrite (regex_match_unfold p (String x (t ++ post))),
      (regex_match_unfold p (String x t)).
    rewrite <- IHt.
    by rewrite <- (match_here_closes_app p post Hp Hpost (String x t)).
Qed.

(** Text without an opening brace, put before the subject, is skipped by a
    pattern that starts with the opening brace. *)
Lemma regex_match_skips p pre t :
  occurs open_brace pre = false ->
  regex_match (Lit open_brace :: p) (pre ++ t)
  = regex_match (Lit open_brace :: p) t.
Proof.
  induction pre as [|x pre IH]; [done|]. intros [Hx Hpre]%occurs_cons.
  rewrite append_cons, regex_match_unfold, match_here_lit, Hx. auto.
Qed.

Lemma files_pattern_shape :
  closes files_pattern = true
  /\ exists p, files_pattern = Lit open_brace :: p.
Proof. split; [reflexivity|]. eexists. reflexivity. Qed.

Lemma regex_match_files_around pre response post :
  occurs open_brace pre = false -> occurs close_brace post = false ->
  regex_match files_pattern (pre ++ response ++ post)
  = regex_match files_pattern response.
Proof.
  intros Hpre Hpost. destruct files_pattern_shape as [Hc [p Hp]].
  rewrite Hp, regex_match_skips by done. rewrite <- Hp.
  by apply regex_match_closes_app.
Qed.

(** X1: text around the answer is ignored.  Whatever stands before the
    response, as long as it has no opening brace, and whatever stands after
    it, as long as it has no closing brace (a sentence of introduction, a
    Markdown fence), the parser returns what it returns on the response
    alone: the same files, or the same error. *)
Theorem parse_ignores_surrounding_text (pre response post : string) :
  occurs open_brace pre = false ->
  occurs close_brace post = false ->
  parseCodeGenerationResponse (pre ++ response ++ post)
  = parseCodeGenerationResponse response.
Proof.
  intros Hpre Hpost. unfold parseCodeGenerationResponse, parse_try.
  by rewrite regex_match_files_around.
Qed.

(** An answer wrapped in a sentence and a Markdown fence. *)
Lemma parse_fenced_answer :
  parseCodeGenerationResponse
    ("Here is the project:
```json
" ++ empty_files_response ++ "
```
Let me know if you need changes.")
  = Ok [].
Proof.
  rewrite (parse_ignores_surrounding_text _ empty_files_response _)
    by reflexivity.
  vm_compute. reflexivity.
Defined.

(** X2: the entries of the files array are not validated.  When the text
    the pattern matched parses to an object whose files member is an
    array, the parser returns one entry per item, in order, each with the
    path and content members of the item or undefined where the item has
    none (a number, a string or an object without these keys all give an
    entry); only a null item makes the whole call fail. *)
Theorem parse_maps_every_item (response jsonMatch : string) (parsed : json)
    (items : list json) :
  regex_match files_pattern response = Some jsonMatch ->
  JSON_parse jsonMatch = Some parsed ->
  get_property parsed "files" = Some (JArray items) ->
  parseCodeGenerationResponse response
  = if existsb is_null items then Throw (Error parse_failure_message)
    else Ok (map entry_of items).
Proof.
  intros Hm Hp Hf. unfold parseCodeGenerationResponse, parse_try.
  rewrite Hm, Hp, Hf. clear. induction items as [|file items IH]; [done|].
  cbn [map_files existsb map]. destruct file; cbn [map_file is_null orb]; try done.
  all: destruct (map_files items) as [fs|e|]; destruct (existsb is_null items);
    try done; by injection IH as ->.
Qed.

(** An answer whose files are a number and an object without a path. *)
Lemma parse_unvalidated_items :
  parseCodeGenerationResponse
    ("{" ++ quoted "files" ++ ":[1,{" ++ quoted "content" ++ ":"
       ++ quoted "x" ++ "}]}")
  = Ok [ {| path := None; content := None |};
         {| path := None; content := Some (JString "x") |} ].
Proof.
  apply (parse_maps_every_item _
           ("{" ++ quoted "files" ++ ":[1,{" ++ quoted "content" ++ ":"
              ++ quoted "x" ++ "}]}")
           (JObject [("files", JArray [JNumber "1";
                                        JObject [("content", JString "x")]])])
           [JNumber "1"; JObject [("content", JString "x")]]);
    vm_compute; reflexivity.
Defined.

End RegexFacts.

(** ** Provider selection *)

Module AIFacts.
Import Js Parser Flow FlowFacts AI AIConfig.

Lemma truthy_Some o s : truthy o = Some s -> o = Some s /\ s <> "".
Proof. destruct o as [[|c r]|]; simpl; intros [= <-]; done. Qed.

(** The three ways a run of [generate] can go. *)
Lemma generate_run (prompt : string)
    (provider model : option string) (env : Env) (w : World) :
  let name := chosen_provider env provider in
  let run := generate prompt provider model env w in
  match credential_variable name with
  | None =>
      fst run = Throw (Error ("Unknown LLM provider: " ++ name)) /\ snd run = w
  | Some variable =>
      if is_truthy (getenv env variable) then
        snd run = record_call env (EvLlm name model prompt)
                    (fault env (tick w) (EvLlm name model prompt)) w
        /\ fst run = match fault env (tick w) (EvLlm name model prompt) with
                     | Some e => Throw e
                     | None => Ok (llm_result env (tick w))
                     end
      else
        fst run = Throw (Error ("Provider " ++ name ++ " is not configured"))
        /\ snd run = w
  end.
Proof.
  cbv zeta. unfold chosen_provider, generate, getDefaultProvider, getLLMProvider.
  unfold mbind, M_bind, bind, process_env, mret, M_ret, ret, throw, ask, call.
  destruct (truthy provider) as [p|]; simpl.
  - destruct (credential_variable p) as [v|]; simpl; [|done].
    destruct (is_truthy (getenv env v)); simpl; [|done].
    destruct (fault env (tick w) (EvLlm p model prompt)); done.
  - destruct (credential_variable _) as [v|]; simpl; [|done].
    destruct (is_truthy (getenv env v)); simpl; [|done].
    destruct (fault env (tick w) (EvLlm _ model prompt)); done.
Qed.

(** X3: which provider [generate] calls, and when it calls none.  The
    provider is the one named in the options, or else the one named by
    DEFAULT_LLM_PROVIDER, or else anthropic (an empty name counts as
    absent).  A name that is none of anthropic, openai, gemini throws
    "Unknown LLM provider", and a provider whose API key is unset or empty
    throws "Provider ... is not configured"; in both cases nothing at all
    has happened.  Otherwise the run is exactly one call of that provider
    with the prompt and model given, whose result or exception is the
    outcome. *)
Theorem generate_calls_the_configured_provider (prompt : string)
    (provider model : option string) (env : Env) (w : World) :
  let name := chosen_provider env provider in
  let run := generate prompt provider model env w in
  match credential_variable name with
  | None =>
      fst run = Throw (Error ("Unknown LLM provider: " ++ name)) /\ snd run = w
  | Some variable =>
      if is_truthy (getenv env variable) then
        snd run = record_call env (EvLlm name model prompt)
                    (fault env (tick w) (EvLlm name model prompt)) w
        /\ fst run = match fault env (tick w) (EvLlm name model prompt) with
                     | Some e => Throw e
                     | None => Ok (llm_result env (tick w))
                     end
      else
        fst run = Throw (Error ("Provider " ++ name ++ " is not configured"))
        /\ snd run = w
  end.
Proof. apply generate_run. Qed.

Lemma In_configured name env w :
  In name (match fst (getConfiguredProviders env w) with
           | Ok l => l
           | _ => []
           end)
  <-> exists variable, credential_variable name = Some variable
                       /\ is_truthy (getenv env variable) = true.
Proof.
  unfold getConfiguredProviders, mbind, M_bind, bind, process_env, mret, M_ret, ret.
  simpl. unfold credential_variable. split.
  - intros H. repeat (apply in_app_or in H as [H|H]).
    + destruct (is_truthy (getenv env "ANTHROPIC_API_KEY")) eqn:E; [|done].
      destruct H as [<-|[]]. eauto.
    + destruct (is_truthy (getenv env "OPENAI_API_KEY")) eqn:E; [|done].
      destruct H as [<-|[]]. eauto.
    + destruct (is_truthy (getenv env "GOOGLE_AI_API_KEY")) eqn:E; [|done].
      destruct H as [<-|[]]. eauto.
  - intros (v & Hv & Ht).
    destruct (String.eqb_spec name "anthropic") as [->|_].
    { injection Hv as <-. rewrite Ht. simpl. auto. }
    destruct (String.eqb_spec name "openai") as [->|_].
    { injection Hv as <-. rewrite Ht. apply in_or_app. right.
      apply in_or_app. left. simpl. auto. }
    destruct (String.eqb_spec name "gemini") as [->|_]; [|done].
    injection Hv as <-. rewrite Ht. apply in_or_app. right.
    apply in_or_app. right. simpl. auto.
Qed.

(** X4: [getConfiguredProviders] and [generate] agree.  The list holds
    anthropic, openai and gemini in this order, each exactly when its API
    key is set and not empty, and a provider named in the options of
    [generate] is called exactly when it is in the list. *)
Theorem configured_providers_are_the_callable_ones (prompt name : string)
    (model : option string) (env : Env) (w : World) :
  name <> "" ->
  (exists l, getConfiguredProviders env w = (Ok l, w)
     /\ sublist l ["anthropic"; "openai"; "gemini"]
     /\ (In name l <->
         tick (snd (generate prompt (Some name) model env w)) = S (tick w))).
Proof.
  intros Hname.
  pose proof (In_configured name env w) as Hin.
  pose proof (generate_run prompt (Some name) model env w)
    as Hgen.
  cbv zeta in Hgen. unfold chosen_provider in Hgen.
  assert (Ht : truthy (Some name) = Some name) by (by destruct name).
  rewrite Ht in Hgen. simpl default in Hgen.
  unfold getConfiguredProviders, mbind, M_bind, bind, process_env, mret, M_ret, ret
    in *.
  simpl in *. eexists. split; [reflexivity|]. split.
  - destruct (is_truthy (getenv env "ANTHROPIC_API_KEY")),
      (is_truthy (getenv env "OPENAI_API_KEY")),
      (is_truthy (getenv env "GOOGLE_AI_API_KEY")); simpl;
      repeat first [apply sublist_skip | apply sublist_cons | apply sublist_nil].
  - rewrite Hin. destruct (credential_variable name) as [v|].
    + destruct (is_truthy (getenv env v)) eqn:Hv.
      * destruct Hgen as [-> _]. simpl. split; [done|]. eauto.
      * destruct Hgen as [_ ->]. split; [|lia].
        intros (v' & [= <-] & Hv'). congruence.
    + destruct Hgen as [_ ->]. split; [|lia]. intros (v' & [=] & _).
Qed.

(** With only the OpenAI key set, openai is the one callable provider. *)
Lemma only_openai_configured :
  exists l,
    getConfiguredProviders
      (Samples.with_env [("OPENAI_API_KEY", "sk")] Samples.no_tokens)
      Samples.empty_world
    = (Ok l, Samples.empty_world)
    /\ sublist l ["anthropic"; "openai"; "gemini"]
    /\ (In "openai" l <->
        tick (snd (generate "hello" (Some "openai") None
                     (Samples.with_env [("OPENAI_API_KEY", "sk")] Samples.no_tokens)
                     Samples.empty_world))
        = S (tick Samples.empty_world)).
Proof.
  apply (configured_providers_are_the_callable_ones "hello" "openai" None).
  discriminate.
Defined.

End AIFacts.

(** ** More on the source host adapter *)

Module PathFacts.
Import Js Parser Flow GitHub Text.








End PathFacts.

Module GitHubRuns.
Import Js Parser Flow FlowFacts GitHub GitHubFacts Observe TraceFacts.

Lemma write_files_fs tempDir files env w :
  wp (write_files tempDir files) env w (fun r w' =>
    r <> OutOfFuel /\ db w' = db w /\ grows fs_event (trace w) (trace w')).
Proof.
  revert w. induction files as [|file rest IH]; intros w; simpl.
  - wp_go. split; [done|]. split; [done|apply grows_refl].
  - unfold write_file, mkdir, writeFile.
    wp_go_with ltac:(idtac; lazymatch goal with
                     | |- wp (write_files _ _) _ _ _ =>
                         eapply wp_mono; [apply IH|]; intros ? ? (? & ? & ?)
                     end);
      (split; [done|]); wp_simpl_in_all; (split; [congruence|]);
      grows_with ltac:(exact I).
Qed.

Lemma removal_thrown_rev_cons e es :
  removal_thrown (rev (e :: es))
  = match call_event e with
    | EvFs (Rm _) => call_thrown e
    | _ => None
    end.
Proof. unfold removal_thrown. simpl rev. by rewrite last_snoc. Qed.

Lemma pushFiles_run self owner repo branch files msg env w :
  wp (pushFiles self owner repo branch files msg) env w (fun r w' =>
    exists es, trace w' = (es ++ trace w)%list
      /\ db w' = db w
      /\ Forall local_event es
      /\ r <> OutOfFuel
      /\ push_shape (default "main" branch) r (removal_thrown (rev es))
           (push_attempts es)
      /\ (forall x, r = Ok x ->
            pr_url x = "https://github.com/" ++ owner ++ "/" ++ repo)).
Proof.
  unfold pushFiles, mkdir, git, rm.
  wp_go_with ltac:(idtac; lazymatch goal with
                   | |- wp (write_files _ _) _ _ _ =>
                       eapply wp_mono; [apply write_files_fs|];
                       intros ? ? (? & ? & (? & ? & ?))
                   end).
  all: wp_simpl_in_all.
  all: repeat match goal with
              | H : trace ?w1 = _ |- context [trace ?w1] => rewrite H
              end.
  all: eexists; split; [trace_split|].
  all: split; [first [done | congruence]|].
  all: split.
  all: try (repeat first [ apply Forall_cons_2 | apply Forall_app_2
                         | apply Forall_nil_2
                         | eapply Forall_impl; [eassumption|apply fs_is_local]
                         | exact I ]; fail).
  all: split; [done|].
  all: split; [|by intros ? [= <-]].
  all: unfold push_shape;
    rewrite ?removal_thrown_rev_cons, ?push_attempts_cons, ?push_attempts_app;
    repeat match goal with
           | H : Forall fs_event ?es |- context [push_attempts ?es] =>
               rewrite (push_attempts_fs es H)
           end;
    cbn [push_attempts omap list_omap push_attempt call_event call_thrown app
         default].
  all: pick ltac:(repeat first [ done | eexists | split ]).
Qed.


(** X6: a branch is pushed at most twice.  The first push is plain; a
    second push follows exactly when the first one threw, it is forced,
    and it goes to the same branch (main unless the configuration names
    one).  When the forced push throws too, [pushFiles] throws its
    exception, unless the removal of the temporary directory that follows
    throws as well: then the exception of the removal takes its place.  A
    run without any push has thrown. *)
Theorem pushFiles_retries_with_force (self : GitHubService)
    (owner repo : string) (branch : option string)
    (files : list GeneratedFile) (commitMessage : string)
    (env : Env) (w : World) :
  let run := pushFiles self owner repo branch files commitMessage env w in
  let pushes := push_attempts (entries_since w (snd run)) in
  let removal := removal_thrown (entries_since w (snd run)) in
  let b := default "main" branch in
  (pushes = [] /\ exists e, fst run = Throw e)
  \/ pushes = [(b, ["--set-upstream"], None)]
  \/ (exists e1, pushes = [(b, ["--set-upstream"], Some e1);
                           (b, ["--set-upstream"; "--force"], None)])
  \/ (exists e1 e2, pushes = [(b, ["--set-upstream"], Some e1);
                              (b, ["--set-upstream"; "--force"], Some e2)]
                    /\ fst run = Throw (default e2 removal)).
Proof.
  cbv zeta.
  pose proof (pushFiles_run self owner repo branch files commitMessage env w)
    as (es & Htr & _ & _ & _ & Hshape & _).
  rewrite (entries_since_app _ _ _ Htr). unfold push_attempts at 1 2 3 4.
  rewrite omap_rev. fold (push_attempts es).
  destruct Hshape as [[-> He]|[->|[[e1 ->]|(e1 & e2 & -> & He)]]]; simpl; eauto 10.
Qed.

Lemma createAndPushToGitHub_run repoName description files isPrivate env w :
  wp (createAndPushToGitHub repoName description files isPrivate) env w
     (fun r w' =>
        exists x es, r = Ok x
          /\ trace w' = (es ++ trace w)%list
          /\ db w' = db w
          /\ github_shape repoName description isPrivate x (octokit_calls es)).
Proof.
  unfold createAndPushToGitHub, new_GitHubService, getAuthenticatedUser,
    repoExists, createRepository.
  wp_go_with ltac:(idtac; lazymatch goal with
                   | |- wp (pushFiles _ _ _ _ _ _) _ _ _ =>
                       eapply wp_mono; [apply pushFiles_run|];
                       intros ? ? (? & ? & ? & ? & ? & _ & ?)
                   end).
  all: wp_simpl_in_all.
  all: try congruence.
  all: repeat match goal with
              | H : trace ?w1 = _ |- context [trace ?w1] => rewrite H
              end.
  all: eexists _, _; split; [reflexivity|]; split; [trace_split|].
  all: split; [first [done | congruence | idtac]|].
  all: unfold github_shape; rewrite ?octokit_calls_cons, ?octokit_calls_app;
    repeat match goal with
           | H : Forall local_event ?es |- context [octokit_calls ?es] =>
               rewrite (octokit_calls_local es H)
           end;
    cbn [octokit_calls omap list_omap octokit_attempt call_event call_thrown app].
  all: repeat match goal with
              | H : forall x, Ok ?a = Ok x -> _ |- _ =>
                  specialize (H a eq_refl); rewrite H
              end.
  all: pick ltac:(repeat first [ done | eexists | split | left; done | right; done
                               | right; eexists; done ]).
Qed.

End GitHubRuns.

Module GitHubResults.
Import Js Parser Flow FlowFacts GitHub Observe TraceFacts GitHubRuns.

Lemma In_rev_iff {A} (x : A) l : In x (rev l) <-> In x l.
Proof. split; intros H; [by apply in_rev|by apply in_rev in H]. Qed.

(** X7: the source host phase always returns a result, it never throws,
    and it leaves the datastore alone.  A success carries no error and the
    URL https://github.com/LOGIN/REPO, where LOGIN is the login of the
    authenticated user, the one under which the repository was looked up;
    a failure carries an error message and no URL. *)
Theorem createAndPushToGitHub_always_returns (repoName : string)
    (description : option string) (files : list GeneratedFile)
    (isPrivate : option bool) (env : Env) (w : World) :
  let run := createAndPushToGitHub repoName description files isPrivate env w in
  let calls := octokit_calls (entries_since w (snd run)) in
  exists x,
    fst run = Ok x
    /\ db (snd run) = db w
    /\ ((exists login t,
           In (ReposGet login repoName, t) calls
           /\ x = {| ghr_success := true;
                     ghr_repoUrl :=
                       Some ("https://github.com/" ++ login ++ "/" ++ repoName);
                     ghr_error := None |})
        \/ (exists m, x = {| ghr_success := false; ghr_repoUrl := None;
                             ghr_error := Some m |})).
Proof.
  cbv zeta.
  pose proof (createAndPushToGitHub_run repoName description files isPrivate env w)
    as (x & es & Hx & Htr & Hdb & Hshape).
  exists x. split; [done|]. split; [done|].
  rewrite (entries_since_app _ _ _ Htr). unfold octokit_calls at 1.
  rewrite omap_rev. fold (octokit_calls es).
  unfold github_shape, pushed, github_failure in Hshape.
  destruct Hshape as [[_ ->]|[(e & _ & ->)|[(login & Hc & [->| [m ->]])
    |[(login & e & _ & ->)|[(login & m & Hc & [->|[m' ->]])
    |(login & m & e & _ & ->)]]]]]; eauto.
  - left. exists login, None. split; [|done]. apply In_rev_iff. rewrite Hc.
    simpl. auto.
  - left. exists login, (Some (RequestError 404 m)). split; [|done].
    apply In_rev_iff. rewrite Hc. simpl. auto.
Qed.

(** X8: a repository is created only when it is missing.  If a run calls
    [repos.createForAuthenticatedUser], then its lookup of the repository
    under the login of the user threw an error of status 404; and the
    repository is created under the name asked for, private unless the
    caller said otherwise, and never auto-initialised. *)
Theorem repository_created_only_when_missing (repoName : string)
    (description : option string) (files : list GeneratedFile)
    (isPrivate : option bool) (env : Env) (w : World)
    (name : string) (desc : option string) (private auto_init : bool)
    (t : option exn) :
  let run := createAndPushToGitHub repoName description files isPrivate env w in
  let calls := octokit_calls (entries_since w (snd run)) in
  In (ReposCreateForAuthenticatedUser name desc private auto_init, t) calls ->
  name = repoName /\ desc = description
  /\ private = default true isPrivate /\ auto_init = false
  /\ exists login m,
       In (ReposGet login repoName, Some (RequestError 404 m)) calls.
Proof.
  cbv zeta.
  pose proof (createAndPushToGitHub_run repoName description files isPrivate env w)
    as (x & es & Hx & Htr & Hdb & Hshape).
  rewrite (entries_since_app _ _ _ Htr). unfold octokit_calls at 1 2.
  rewrite omap_rev. fold (octokit_calls es). rewrite In_rev_iff.
  unfold github_shape in Hshape.
  destruct Hshape as [[-> _]|[(e & -> & _)|[(login & -> & _)
    |[(login & e & -> & _)|[(login & m & -> & _)
    |(login & m & e & -> & _)]]]]]; simpl;
    intros H; repeat (destruct H as [H|H]; try discriminate H); try done.
  all: injection H as <- <- <- <- <-; repeat (split; [done|]).
  all: exists login, m; simpl; auto.
Qed.

End GitHubResults.

Module GitHubExamples.
Import Js Parser Flow FlowFacts GitHub Observe Samples Scenarios GitHubResults.

(** A run against an account that does not have the repository yet. *)
Lemma repository_created_after_404 :
  exists login m,
    In (ReposGet login "app", Some (RequestError 404 m))
       (octokit_calls
          (entries_since empty_world
             (snd (createAndPushToGitHub "app" None [] None repo_missing_env
                     empty_world)))).
Proof.
  assert (H : In (ReposCreateForAuthenticatedUser "app" None true false, None)
                (octokit_calls
                   (entries_since empty_world
                      (snd (createAndPushToGitHub "app" None [] None
                              repo_missing_env empty_world))))).
  { vm_compute. tauto. }
  destruct (repository_created_only_when_missing "app" None [] None
              repo_missing_env empty_world "app" None true false None H)
    as (_ & _ & _ & _ & Hex).
  exact Hex.
Defined.

End GitHubExamples.

(** ** More on the deploy target adapter *)

Module VercelResults.
Import Js Parser Flow FlowFacts Vercel VercelFacts Observe TraceFacts Samples.

Lemma includes_status_404 json :
  includes ("Vercel API error: " ++ pretty 404%N ++ " - " ++ json) "404" = true.
Proof. vm_compute. reflexivity. Qed.

(** X9: how [getProject] tells a missing project from a failure.  A
    response that is ok gives the project.  Any failed exchange whose
    error message contains the text 404 gives [null]: a response of
    status 404, and also a response of another status whose payload
    mentions 404, or a rejected [fetch] whose message does.  Every other
    failure is rethrown as it is. *)
Theorem getProject_reads_404_as_missing (self : VercelService)
    (nameOrId : string) (env : Env) (w : World) :
  let response := http_response env (tick w) in
  let message := "Vercel API error: " ++ pretty (resp_status response)
                   ++ " - " ++ resp_error_json response in
  fst (getProject self nameOrId env w)
  = match fault env (tick w) (EvFetch "GET" ("/v9/projects/" ++ nameOrId)) with
    | Some e => if message_includes e "404" then Ok None else Throw e
    | None =>
        if resp_ok response then Ok (Some (resp_project response))
        else if includes message "404" then Ok None
        else Throw (Error message)
    end
  /\ (resp_status response = 404%N -> includes message "404" = true).
Proof.
  cbv zeta. split.
  - unfold getProject, request, try_catch, mbind, M_bind, bind, call, ask,
      mret, M_ret, ret, throw.
    destruct (fault env (tick w) _) as [e|]; simpl.
    + by destruct (message_includes e "404").
    + destruct (resp_ok (http_response env (tick w))); simpl; [done|].
      unfold message_includes, message_or.
      by destruct (includes _ "404").
  - intros ->. apply includes_status_404.
Qed.

(** X10: without a Vercel token nothing is sent.  When VERCEL_TOKEN is
    unset or empty, [deployToVercel] returns the failure "Vercel token not
    configured" and has made no external call: the log, the clock, the
    file system and the datastore are as before. *)
Theorem deployToVercel_needs_token (config : DeploymentConfig) (env : Env)
    (w : World) :
  truthy (getenv env "VERCEL_TOKEN") = None ->
  let run := deployToVercel config env w in
  fst run = Ok (failure_result "Vercel token not configured")
  /\ trace (snd run) = trace w /\ tick (snd run) = tick w
  /\ now (snd run) = now w /\ fs (snd run) = fs w /\ db (snd run) = db w.
Proof.
  intros H. cbv zeta.
  unfold deployToVercel, new_VercelService, mbind, M_bind, bind, try_catch,
    enter, process_env, or_string. simpl. rewrite H. done.
Qed.

Lemma deployToVercel_with_empty_token :
  fst (deployToVercel
         {| dc_provider := "vercel"; dc_projectName := "app";
            dc_envVariables := None; dc_buildCommand := None;
            dc_outputDirectory := None |}
         (with_env [("VERCEL_TOKEN", "")] no_tokens) empty_world)
  = Ok (failure_result "Vercel token not configured")
  /\ trace (snd (deployToVercel
                   {| dc_provider := "vercel"; dc_projectName := "app";
                      dc_envVariables := None; dc_buildCommand := None;
                      dc_outputDirectory := None |}
                   (with_env [("VERCEL_TOKEN", "")] no_tokens) empty_world))
     = trace empty_world.
Proof.
  destruct (deployToVercel_needs_token
              {| dc_provider := "vercel"; dc_projectName := "app";
                 dc_envVariables := None; dc_buildCommand := None;
                 dc_outputDirectory := None |}
              (with_env [("VERCEL_TOKEN", "")] no_tokens) empty_world eq_refl)
    as (Hr & Ht & _).
  split; [exact Hr | exact Ht].
Defined.

(** X11: a timeout that is zero or negative.  [waitForDeployment] then
    throws "Deployment timed out" at once: it does not ask for the state
    of the deployment even once, does not sleep, and leaves the world as
    it was. *)
Theorem waitForDeployment_without_time (self : VercelService)
    (deploymentId : string) (timeout : Z) (env : Env) (w : World) :
  timeout <= 0 ->
  waitForDeployment self deploymentId (Some timeout) env w
  = (Throw (Error "Deployment timed out"), w).
Proof.
  intros Ht. unfold waitForDeployment, wait_fuel.
  change (default default_timeout (Some timeout)) with timeout.
  replace (Z.to_nat (timeout / 5000) + 2)%nat
    with (S (Z.to_nat (timeout / 5000) + 1)) by lia.
  assert (Hlt : (now w - now w <? timeout) = false) by (apply Z.ltb_ge; lia).
  cbn [wait_loop]. unfold mbind, M_bind, bind, Date_now.
  rewrite Hlt. reflexivity.
Qed.

Lemma waitForDeployment_zero_timeout :
  waitForDeployment {| vs_token := "t" |} "dpl_1" (Some 0) vercel_env empty_world
  = (Throw (Error "Deployment timed out"), empty_world).
Proof.
  apply (waitForDeployment_without_time _ "dpl_1" 0 vercel_env empty_world).
  lia.
Defined.

End VercelResults.

Module VercelRuns.
Import Js Parser Flow FlowFacts Vercel VercelFacts Observe TraceFacts Samples.

Lemma wait_loop_polls fuel self id startTime timeout env w :
  wp (wait_loop fuel self id startTime timeout) env w (fun r w' =>
    grows poll_or_sleep (trace w) (trace w')).
Proof.
  revert w. induction fuel as [|fuel IH]; intros w; simpl.
  - apply grows_refl.
  - unfold getDeployment, request, sleep.
    wp_go_with ltac:(idtac; lazymatch goal with
                     | |- wp (wait_loop _ _ _ _ _) _ _ _ =>
                         eapply wp_mono; [apply IH|]; intros ? ? ?
                     end);
      grows_with ltac:(first [exact I | reflexivity]).
Qed.

Lemma exchanges_cons env e es :
  exchanges env (e :: es)
  = match exchange env e with
    | Some x => x :: exchanges env es
    | None => exchanges env es
    end.
Proof. reflexivity. Qed.

Lemma exchanges_app env es es' :
  exchanges env (es ++ es') = (exchanges env es ++ exchanges env es')%list.
Proof. apply omap_app. Qed.

Lemma polls_are_gets env es method endpoint ok :
  Forall poll_or_sleep es ->
  In (method, endpoint, ok) (exchanges env es) -> method = "GET".
Proof.
  induction 1 as [|e es He _ IH]; [done|]. rewrite exchanges_cons.
  unfold exchange, poll_or_sleep in *.
  destruct (call_event e); try done.
  intros [[= <- _ _]|H]; [done|auto].
Qed.


Lemma waitForDeployment_polls self id timeout env w :
  wp (waitForDeployment self id timeout) env w (fun r w' =>
    r <> OutOfFuel /\ grows poll_or_sleep (trace w) (trace w')).
Proof.
  pose proof (waitForDeployment_spec self id timeout env w) as [Hfuel _].
  assert (Hpolls : wp (waitForDeployment self id timeout) env w (fun r w' =>
                     grows poll_or_sleep (trace w) (trace w'))).
  { unfold waitForDeployment. apply wp_bind, wp_Date_now. cbn beta iota.
    apply wait_loop_polls. }
  split; [exact Hfuel | exact Hpolls].
Qed.

(** Decide a membership in the exchanges of a leaf. *)
Ltac exchange_cases :=
  repeat match goal with
         | H : In _ (_ ++ _)%list |- _ => apply in_app_or in H as [H|H]
         | H : In _ (exchanges _ ?es), Hes : Forall poll_or_sleep ?es |- _ =>
             apply (polls_are_gets _ _ _ _ _ Hes) in H; discriminate H
         | H : In _ (_ :: _) |- _ => destruct H as [H|H]
         | H : In _ [] |- _ => destruct H
         | H : (_, _, _) = (_, _, _) |- _ => simplify_eq
         end.

Lemma deployToVercel_exchanges config env w :
  wp (deployToVercel config) env w (fun r w' =>
    exists es, trace w' = (es ++ trace w)%list
               /\ vercel_calls config (exchanges env es)).
Proof.
  unfold deployToVercel, new_VercelService, getProject, createProject,
    setEnvironmentVariables, Vercel.deploy, request.
  wp_go_with ltac:(idtac; lazymatch goal with
                   | |- wp (waitForDeployment _ _ _) _ _ _ =>
                       eapply wp_mono; [apply waitForDeployment_polls|];
                       intros ? ? (? & ? & ? & ?)
                   end).
  all: wp_simpl_in_all.
  all: try congruence.
  all: repeat match goal with
              | H : trace ?w1 = _ |- context [trace ?w1] => rewrite H
              end.
  all: eexists; split; [trace_split|].
  all: unfold vercel_calls; rewrite ?exchanges_cons, ?exchanges_app;
    cbn [exchanges omap list_omap exchange call_event call_thrown call_no app];
    repeat match goal with
           | H : resp_ok _ = _ |- _ => rewrite H
           end.
  all: split; [intros ok Hin|intros endpoint ok Hin]; exchange_cases;
    subst; try discriminate.
  all: try (apply in_or_app; right); simpl; eauto 10.
  all: right; right; eexists; split; [reflexivity|congruence].
Qed.

(** X12: what [deployToVercel] sends.  A project is created only when its
    lookup gave none: a run with a request POST /v10/projects has a lookup
    GET /v9/projects/NAME that gave no project.  And every POST of a run
    is one of three: the creation of the project, the deployment, or the
    setting of environment variables, the last only when the configuration
    has environment variables. *)
Theorem deployToVercel_creates_only_missing_project
    (config : DeploymentConfig) (env : Env) (w : World) :
  let run := deployToVercel config env w in
  let sent := exchanges env (entries_since w (snd run)) in
  (forall ok, In ("POST", "/v10/projects", ok) sent ->
     In ("GET", "/v9/projects/" ++ dc_projectName config, false) sent)
  /\ (forall endpoint ok, In ("POST", endpoint, ok) sent ->
        endpoint = "/v10/projects" \/ endpoint = "/v13/deployments"
        \/ (exists id, endpoint = "/v10/projects/" ++ id ++ "/env"
                       /\ dc_envVariables config <> None)).
Proof.
  cbv zeta.
  destruct (deployToVercel_exchanges config env w) as (es & Htr & H1 & H2).
  rewrite (entries_since_app _ _ _ Htr). unfold exchanges at 1 2 3.
  rewrite omap_rev. fold (exchanges env es).
  split.
  - intros ok Hin. apply in_rev in Hin. apply -> in_rev. eauto.
  - intros endpoint ok Hin. apply in_rev in Hin. eauto.
Qed.

End VercelRuns.

(** ** More on the pipeline *)

Module PipelineResults.
Import Js Parser Flow FlowFacts GitHub Vercel VercelFacts Deploy Observe
  TraceFacts GitHubRuns Samples.

(** What [deploy] returns, with the calls of the run, most recent first:
    a failure, or the success built from the deployment that its last
    call, a poll, found READY. *)
Lemma deploy_run options env w :
  wp (Deploy.deploy options) env w (fun r w' =>
    exists x es, r = Ok x
      /\ trace w' = (es ++ trace w)%list
      /\ db w' = db w
      /\ ((exists m, x = failure_result m)
          \/ (exists e pre d,
                es = e :: pre /\ is_status_poll e
                /\ poll_answer env e = Some d /\ vd_state d = READY
                /\ x = success_result d))).
Proof.
  unfold Deploy.deploy. apply wp_bind, wp_enter. cbn beta iota.
  destruct (String.eqb (do_provider options) "vercel").
  { eapply wp_mono; [apply deployToVercel_run|].
    intros r w' (x & es & -> & Htr & Hdb & Hshape).
    exists x, es. split; [done|]. split; [done|]. split; [done|].
    destruct Hshape as [[_ ->]|(e & pre & -> & _ & Hend)]; [eauto|].
    destruct Hend as [(err & _ & _ & ->)
                     |[(Hpoll & d & Hd & [[Hready ->]|[_ ->]])|[_ ->]]];
      eauto 10. }
  repeat (lazymatch goal with
          | |- wp (if ?b then _ else _) _ _ _ => destruct b
          end);
    apply wp_ret; eexists _, []; (split; [done|]); (split; [done|]);
    (split; [done|]); left; eauto.
Qed.

Lemma fullDeploymentPipeline_result options env w :
  wp (fullDeploymentPipeline options) env w (fun r w' =>
    db w' = db w
    /\ exists x es, r = Ok x
         /\ trace w' = (es ++ trace w)%list
         /\ ((exists login t e d,
                In (ReposGet login (po_projectName options), t)
                   (octokit_calls (rev es))
                /\ last (rev es) = Some e /\ is_status_poll e
                /\ poll_answer env e = Some d /\ vd_state d = READY
                /\ x = {| success := true;
                          githubUrl := Some ("https://github.com/" ++ login ++ "/"
                                               ++ po_projectName options);
                          deploymentUrl := Some ("https://" ++ vd_url d);
                          error := None |})
             \/ (exists g m, x = {| success := false; githubUrl := g;
                                    deploymentUrl := None;
                                    error := Some m |}))).
Proof.
  unfold fullDeploymentPipeline.
  apply wp_bind. eapply wp_mono; [apply createAndPushToGitHub_run|].
  intros r w1 (gh & es1 & -> & Htr1 & Hdb1 & Hshape). cbn beta iota.
  assert (Hgh : (exists login t,
                   In (ReposGet login (po_projectName options), t)
                      (octokit_calls es1)
                   /\ gh = {| ghr_success := true;
                              ghr_repoUrl :=
                                Some ("https://github.com/" ++ login ++ "/"
                                        ++ po_projectName options);
                              ghr_error := None |})
                \/ exists m, gh = github_failure m).
  { unfold github_shape, pushed in Hshape.
    destruct Hshape as [[_ ->]|[(e & _ & ->)|[(login & Hc & [->| [m ->]])
      |[(login & e & _ & ->)|[(login & m & Hc & [->|[m' ->]])
      |(login & m & e & _ & ->)]]]]]; eauto.
    all: left; eexists login, _; (split; [|reflexivity]); rewrite Hc;
      simpl; eauto. }
  destruct Hgh as [(login & t & Hin & ->)|[m ->]]; simpl.
  - apply wp_bind. eapply wp_mono; [apply deploy_run|].
    intros r w2 (x & es2 & -> & Htr2 & Hdb2 & Hx). cbn beta iota. apply wp_ret.
    split; [congruence|]. eexists _, (es2 ++ es1)%list. split; [done|].
    split. { rewrite Htr2, Htr1. by rewrite app_assoc. }
    destruct Hx as [[m ->]|(e & pre & d & -> & Hpoll & Hd & Hready & ->)];
      [simpl; eauto 10|].
    left. exists login, t, e, d. split.
    { unfold octokit_calls. rewrite omap_rev. apply -> in_rev.
      fold (octokit_calls ((e :: pre) ++ es1)).
      rewrite octokit_calls_app. apply in_or_app. by right. }
    split.
    { rewrite rev_app_distr. simpl rev. by rewrite app_assoc, last_snoc. }
    done.
  - apply wp_ret. split; [done|]. eexists _, es1. split; [done|].
    split; [done|]. right. eauto.
Qed.

(** X13: the pipeline always returns a result: it never throws, and it
    leaves the datastore alone.  A successful result carries both URLs and
    no error: the repository URL https://github.com/LOGIN/NAME, for the
    login under which the run looked the repository up, and the https URL
    of the deployment that the last call of the run, a poll of the
    deployment state, found READY.  A failed result carries an error
    message and no deployment URL. *)
Theorem pipeline_result_is_complete (options : PipelineOptions) (env : Env)
    (w : World) :
  let run := fullDeploymentPipeline options env w in
  let es := entries_since w (snd run) in
  db (snd run) = db w
  /\ exists x, fst run = Ok x
       /\ ((exists login t e d,
              In (ReposGet login (po_projectName options), t)
                 (octokit_calls es)
              /\ last es = Some e /\ is_status_poll e
              /\ poll_answer env e = Some d /\ vd_state d = READY
              /\ x = {| success := true;
                        githubUrl := Some ("https://github.com/" ++ login ++ "/"
                                             ++ po_projectName options);
                        deploymentUrl := Some ("https://" ++ vd_url d);
                        error := None |})
           \/ (exists g m, x = {| success := false; githubUrl := g;
                                  deploymentUrl := None;
                                  error := Some m |})).
Proof.
  cbv zeta.
  pose proof (fullDeploymentPipeline_result options env w)
    as (Hdb & x & es & Hx & Htr & H).
  split; [done|]. exists x. split; [done|].
  by rewrite (entries_since_app _ _ _ Htr).
Qed.

(** X14: without a GitHub token the pipeline stops before any external
    call, whatever the deploy provider and whether or not its own token is
    set: the result is the failure "GitHub setup failed: GitHub token not
    configured", and the log, the clock, the file system and the datastore
    are as before. *)
Theorem pipeline_needs_github_token (options : PipelineOptions) (env : Env)
    (w : World) :
  truthy (getenv env "GITHUB_TOKEN") = None ->
  let run := fullDeploymentPipeline options env w in
  fst run = Ok {| success := false; githubUrl := None; deploymentUrl := None;
                  error := Some "GitHub setup failed: GitHub token not configured" |}
  /\ trace (snd run) = trace w /\ tick (snd run) = tick w
  /\ now (snd run) = now w /\ fs (snd run) = fs w /\ db (snd run) = db w.
Proof.
  intros H. cbv zeta.
  unfold fullDeploymentPipeline, createAndPushToGitHub, new_GitHubService,
    mbind, M_bind, bind, try_catch, enter, process_env, or_string.
  simpl. rewrite H. done.
Qed.

(** The Vercel token alone is not enough to deploy to Vercel. *)
Lemma pipeline_with_vercel_token_only :
  fst (fullDeploymentPipeline sample_options vercel_env empty_world)
  = Ok {| success := false; githubUrl := None; deploymentUrl := None;
          error := Some "GitHub setup failed: GitHub token not configured" |}
  /\ trace (snd (fullDeploymentPipeline sample_options vercel_env empty_world))
     = trace empty_world.
Proof.
  destruct (pipeline_needs_github_token sample_options vercel_env empty_world
              eq_refl) as (Hr & Ht & _).
  split; [exact Hr | exact Ht].
Defined.

End PipelineResults.

(** ** More on the route handlers *)

Module AccessFacts.
Import Js Parser Flow FlowFacts GitHub Vercel Deploy DeployFacts Routes
  RoutesFacts RouteObs Samples.

Lemma forbidden_false p user :
  forbidden p user = false ->
  p_ownerId p = su_id user \/ su_role user <> "USER".
Proof.
  unfold forbidden. intros [H|H]%andb_false_iff.
  - left. apply negb_false_iff in H. by apply String.eqb_eq.
  - right. by apply String.eqb_neq.
Qed.

Ltac parser_ends := idtac;
  lazymatch goal with
  | H : parseCodeGenerationResponse ?r = OutOfFuel |- _ =>
      exfalso; exact (ParserFacts.parse_returns r H)
  end.

(** Close a leaf of an access lemma: the answer has a known status, and
    either the run only read, or the requester passed the checks. *)
Ltac access_leaf :=
  eexists; (split; [reflexivity|]);
  (split; [unfold known_status; simpl; tauto|]);
  first [ left; split; [done|]; split;
          [ solve [grows_with ltac:(unfold before_guard; simpl; auto)]
          | simpl; lia ]
        | right; eexists _, _; split; [reflexivity|]; split; [reflexivity|];
          apply forbidden_false; assumption ].

Lemma POST_generate_access request env w :
  wp (POST_generate request) env w (fun r w' =>
    exists resp, r = Ok resp
      /\ known_status (status_code resp)
      /\ ((db w' = db w
           /\ grows (before_guard (gb_projectId (req_body request)))
                (trace w) (trace w')
           /\ status_code resp <> 200%nat)
          \/ may_access request w (gb_projectId (req_body request)))).
Proof.
  unfold may_access, POST_generate, generateSchema_parse, db_project_findUnique,
    db_project_update, db_codeGeneration_create, db_codeGeneration_update,
    audit_create, audit_error, createAuditLog, db_auditLog_create,
    AI.generate, AI.getDefaultProvider, AI.getLLMProvider.
  wp_go_with parser_ends.
  all: access_leaf.
Qed.


Lemma fresh_lookup {A} (m : gmap string A) : m !! fresh (dom m) = None.
Proof. apply not_elem_of_dom, is_fresh. Qed.

Ltac handler_write_ok Hprot := idtac;
  lazymatch goal with
  | H : fault _ _ (EvDb ?q) = Some _ |- _ =>
      rewrite (Hprot _ q) in H by (vm_compute; reflexivity); discriminate
  end.

Lemma POST_generate_effect request env w :
  wp (POST_generate request) env w (fun r w' =>
    let id := gb_projectId (req_body request) in
    deployments (db w') = deployments (db w)
    /\ (forall id', id' <> id ->
          projects (db w') !! id' = projects (db w) !! id')
    /\ match projects (db w) !! id, projects (db w') !! id with
       | Some p, Some p' => kept_by_generate p p'
       | None, None => True
       | _, _ => False
       end
    /\ forall resp, r = Ok resp ->
         (status_code resp = 200%nat -> generation_stored id w w' resp)
         /\ (status_code resp <> 200%nat -> handler_writes_succeed env ->
             db w' = db w \/ generation_failure_recorded id w w' resp)).
Proof.
  unfold POST_generate, generateSchema_parse, db_project_findUnique,
    db_project_update, db_codeGeneration_create, db_codeGeneration_update,
    audit_create, audit_error, createAuditLog, db_auditLog_create,
    AI.generate, AI.getDefaultProvider, AI.getLLMProvider.
  wp_go_with parser_ends.
  all: cbv zeta; wp_simpl.
  all: split; [reflexivity|].
  all: split; [intros id' Hne; by rewrite ?lookup_insert_ne by done|].
  all: split;
    [ rewrite ?lookup_insert_eq;
      repeat match goal with
             | H : projects (db _) !! _ = _ |- _ => rewrite H
             end;
      first [ by destruct (projects (db _) !! gb_projectId (req_body request))
            | unfold kept_by_generate; simpl; repeat split; lia ] |].
  all: intros resp [= <-]; split;
    [ simpl; try (intros; discriminate)
    | simpl; try (intros Hne; exfalso; apply Hne; reflexivity) ].
  all: try (intros _ Hprot; try handler_write_ok Hprot).
  all: try (left; reflexivity).
  all: try (right; unfold generation_failure_recorded; wp_simpl;
            eexists _, _, _, _;
            repeat (split; [first [ reflexivity | apply fresh_lookup
                                  | apply lookup_insert_eq ]|]);
            first [ left; reflexivity | right; left; reflexivity
                  | right; right; reflexivity ]).
  all: intros _; unfold generation_stored; wp_simpl;
    eexists _, _, _, _, _, _, _;
    repeat (split; [first [ reflexivity | apply fresh_lookup
                          | apply lookup_insert_eq ]|]); reflexivity.
Qed.

End AccessFacts.

Module DeployRouteFacts.
Import Js Parser Flow FlowFacts GitHub Vercel Deploy DeployFacts Routes
  RoutesFacts RouteObs Observe PipelineResults AccessFacts Samples.

(** The pipeline, seen from the handler: its result in full. *)
Ltac known_result := idtac;
  lazymatch goal with
  | |- wp (fullDeploymentPipeline _) _ _ _ =>
      eapply wp_mono; [apply fullDeploymentPipeline_result|];
      intros ? ? (? & ? & ? & -> & _
                  & [(? & ? & ? & ? & _ & _ & _ & _ & ? & ->)|(? & ? & ->)])
  | |- wp (if Deploy.success _ then _ else _) _ _ _ =>
      progress cbn [Deploy.success Deploy.githubUrl Deploy.deploymentUrl
                      Deploy.error]
  | H : db ?w' = _ |- context [db ?w'] => rewrite H
  end.

Ltac known_frame := idtac;
  lazymatch goal with
  | |- wp (fullDeploymentPipeline _) _ _ _ =>
      eapply wp_mono; [apply fullDeploymentPipeline_frame|];
      intros ? ? ((? & ->) & ? & ?)
  | H : db ?w' = _ |- context [db ?w'] => rewrite H
  end.

Lemma POST_deploy_access request env w :
  wp (POST_deploy request) env w (fun r w' =>
    exists resp, r = Ok resp
      /\ known_status (status_code resp)
      /\ ((db w' = db w
           /\ grows (before_guard (dpb_projectId (req_body request)))
                (trace w) (trace w')
           /\ status_code resp <> 200%nat)
          \/ may_access request w (dpb_projectId (req_body request)))).
Proof.
  unfold may_access, POST_deploy, deploySchema_parse, getConfiguredProviders,
    db_project_findUnique, db_project_update, db_deployment_create,
    db_deployment_update, audit_create, audit_error, createAuditLog,
    db_auditLog_create.
  wp_go_with known_frame.
  all: access_leaf.
Qed.


Lemma POST_deploy_effect request env w :
  wp (POST_deploy request) env w (fun r w' =>
    let id := dpb_projectId (req_body request) in
    codeGenerations (db w') = codeGenerations (db w)
    /\ (forall id', id' <> id ->
          projects (db w') !! id' = projects (db w) !! id')
    /\ match projects (db w) !! id, projects (db w') !! id with
       | Some p, Some p' => kept_by_deploy p p'
       | None, None => True
       | _, _ => False
       end
    /\ forall resp, r = Ok resp ->
         (status_code resp = 200%nat -> deployment_stored id w w' resp)
         /\ (status_code resp <> 200%nat -> handler_writes_succeed env ->
             db w' = db w \/ deployment_failure_recorded id w w' resp)).
Proof.
  unfold POST_deploy, deploySchema_parse, getConfiguredProviders,
    db_project_findUnique, db_project_update, db_deployment_create,
    db_deployment_update, audit_create, audit_error, createAuditLog,
    db_auditLog_create.
  wp_go_with known_result.
  all: cbv zeta; wp_simpl.
  all: repeat match goal with
              | H : db ?w' = _ |- context [db ?w'] => rewrite H
              end; wp_simpl.
  all: split; [reflexivity|].
  all: split; [intros id' Hne; by rewrite ?lookup_insert_ne by done|].
  all: split;
    [ rewrite ?lookup_insert_eq;
      repeat match goal with
             | H : projects (db _) !! _ = _ |- _ => rewrite H
             end;
      first [ by destruct (projects (db _) !! dpb_projectId (req_body request))
            | unfold kept_by_deploy; simpl; repeat split; lia ] |].
  all: intros resp [= <-]; split;
    [ simpl; try (intros; discriminate)
    | simpl; try (intros Hne; exfalso; apply Hne; reflexivity) ].
  all: try (intros _ Hprot; try handler_write_ok Hprot).
  all: try (left; reflexivity).
  all: try (right; unfold deployment_failure_recorded; wp_simpl;
            repeat match goal with
                   | H : db ?w' = _ |- context [db ?w'] => rewrite H
                   end; wp_simpl;
            eexists _, _, _, _, _;
            repeat (split; [first [ reflexivity | apply fresh_lookup
                                  | apply lookup_insert_eq ]|]);
            first [ left; reflexivity | right; left; reflexivity
                  | right; right; reflexivity ]).
  all: intros _; unfold deployment_stored; wp_simpl;
    repeat match goal with
           | H : db ?w' = _ |- context [db ?w'] => rewrite H
           end; wp_simpl;
    eexists _, _, _, _, _, _, _;
    repeat (split; [first [ reflexivity | apply fresh_lookup
                          | apply lookup_insert_eq ]|]); reflexivity.
Qed.

End DeployRouteFacts.

Module RouteResults.
Import Js Parser Flow FlowFacts GitHub Vercel Deploy Routes RouteObs
  AccessFacts DeployRouteFacts Samples.

(** X15: the generation handler always answers, and it checks access
    before it does anything.  Every run returns a response, with one of
    the status codes 200, 400, 401, 403, 404, 500.  Unless the requester
    is signed in, the project exists, and the requester owns it or has a
    role other than USER, the answer is not a 200, the datastore is left
    as it was, and the only external calls are the session lookup, the
    reading of the body and the lookup of the project: no write is
    attempted and no LLM is called. *)
Theorem generate_checks_access (request : Request GenerateBody) (env : Env)
    (w : World) :
  let run := POST_generate request env w in
  let id := gb_projectId (req_body request) in
  exists resp,
    fst run = Ok resp
    /\ known_status (status_code resp)
    /\ (may_access request w id
        \/ (status_code resp <> 200%nat
            /\ db (snd run) = db w
            /\ Forall (before_guard id) (entries_since w (snd run)))).
Proof.
  cbv zeta.
  destruct (POST_generate_access request env w) as (resp & Hr & Hs & H).
  exists resp. split; [done|]. split; [done|].
  destruct H as [(Hdb & Htr & Hne)|H]; [right|by left].
  split; [done|]. split; [done|]. by apply grows_entries_since.
Qed.

(** X16: the deployment handler always answers, and it checks access
    before it does anything, in the same sense: without a signed-in
    requester who owns the existing project or has a role other than
    USER, the answer is not a 200, the datastore is as it was, and no call
    was made besides the session lookup, the reading of the body and the
    lookup of the project. *)
Theorem deploy_checks_access (request : Request DeployBody) (env : Env)
    (w : World) :
  let run := POST_deploy request env w in
  let id := dpb_projectId (req_body request) in
  exists resp,
    fst run = Ok resp
    /\ known_status (status_code resp)
    /\ (may_access request w id
        \/ (status_code resp <> 200%nat
            /\ db (snd run) = db w
            /\ Forall (before_guard id) (entries_since w (snd run)))).
Proof.
  cbv zeta.
  destruct (POST_deploy_access request env w) as (resp & Hr & Hs & H).
  exists resp. split; [done|]. split; [done|].
  destruct H as [(Hdb & Htr & Hne)|H]; [right|by left].
  split; [done|]. split; [done|]. by apply grows_entries_since.
Qed.

(** X17: what a 200 of the generation handler means.  The answer carries
    the id of a CodeGeneration row that did not exist before and the files
    parsed from the LLM output; that row belongs to the project, is
    COMPLETED, holds these files as its output together with the token
    usage and the duration of the answer, and has no error message; and
    the project is GENERATED with these files as its generated files. *)
Theorem generate_success_is_stored (request : Request GenerateBody)
    (env : Env) (w : World) (resp : Response) :
  fst (POST_generate request env w) = Ok resp ->
  status_code resp = 200%nat ->
  generation_stored (gb_projectId (req_body request)) w
    (snd (POST_generate request env w)) resp.
Proof.
  intros Hr Hs.
  destruct (POST_generate_effect request env w) as (_ & _ & _ & H).
  by apply (H resp Hr).
Qed.

Lemma todo_app_generation_is_stored :
  generation_stored "p1" draft_world
    (snd (POST_generate generate_request anthropic_env draft_world))
    {| status_code := 200;
       body := RespGenerated "0"
                 [ {| path := Some (JString "index.js");
                      content := Some (JString "...") |} ]
                 120 30 900 |}.
Proof.
  apply (generate_success_is_stored generate_request anthropic_env draft_world).
  - vm_compute. reflexivity.
  - reflexivity.
Defined.

(** X18: the generation handler touches one project only, and of it only
    the status and the generated files.  No project row appears or
    disappears; the rows of all other projects are as before; the row of
    the project of the request keeps its owner, name, description, tech
    stack, prompt, repository, deployment URL, deployment time and
    version; and no Deployment row is touched. *)
Theorem generate_touches_only_its_project (request : Request GenerateBody)
    (env : Env) (w : World) (id' : string) :
  let w' := snd (POST_generate request env w) in
  deployments (db w') = deployments (db w)
  /\ match projects (db w) !! id', projects (db w') !! id' with
     | Some p, Some p' =>
         kept_by_generate p p'
         /\ (id' <> gb_projectId (req_body request) -> p' = p)
     | None, None => True
     | _, _ => False
     end.
Proof.
  cbv zeta.
  destruct (POST_generate_effect request env w) as (Hd & Hother & Hsame & _).
  split; [done|].
  destruct (decide (id' = gb_projectId (req_body request))) as [->|Hne].
  - destruct (projects (db w) !! _), (projects (db _) !! _); try done.
  - rewrite (Hother id' Hne).
    destruct (projects (db w) !! id'); [|done].
    split; [by repeat split|done].
Qed.

(** X19: a failed generation is recorded.  Provided the datastore accepts
    the writes the failure handling consists of, a run that does not
    answer 200 either left the datastore as it was, or left the project
    FAILED and a new CodeGeneration row of the project FAILED with an
    error message; that message is the one in the 500 answer, unless the
    answer is the 400 of a validation error or the audit entry of the
    failure could not be written. *)
Theorem generate_failure_is_recorded (request : Request GenerateBody)
    (env : Env) (w : World) (resp : Response) :
  handler_writes_succeed env ->
  fst (POST_generate request env w) = Ok resp ->
  status_code resp <> 200%nat ->
  db (snd (POST_generate request env w)) = db w
  \/ generation_failure_recorded (gb_projectId (req_body request)) w
       (snd (POST_generate request env w)) resp.
Proof.
  intros Hprot Hr Hs.
  destruct (POST_generate_effect request env w) as (_ & _ & _ & H).
  by apply (H resp Hr).
Qed.

Lemma overloaded_llm_is_recorded :
  db (snd (POST_generate generate_request llm_fails_env draft_world))
  = db draft_world
  \/ generation_failure_recorded "p1" draft_world
       (snd (POST_generate generate_request llm_fails_env draft_world))
       {| status_code := 500;
          body := RespError "Failed to generate code"
                    (Some "529 overloaded_error") |}.
Proof.
  apply (generate_failure_is_recorded generate_request llm_fails_env draft_world).
  - intros n q _. reflexivity.
  - vm_compute. reflexivity.
  - simpl. lia.
Defined.

(** X20: what a 200 of the deployment handler means.  The answer carries
    the id of a Deployment row that did not exist before, a deployment URL
    and a repository URL; that row belongs to the project, is in SUCCESS
    with this deployment URL, a completion time and no error message; and
    the project is DEPLOYED with these two URLs and a time of last
    deployment. *)
Theorem deploy_success_is_stored (request : Request DeployBody)
    (env : Env) (w : World) (resp : Response) :
  fst (POST_deploy request env w) = Ok resp ->
  status_code resp = 200%nat ->
  deployment_stored (dpb_projectId (req_body request)) w
    (snd (POST_deploy request env w)) resp.
Proof.
  intros Hr Hs.
  destruct (POST_deploy_effect request env w) as (_ & _ & _ & H).
  by apply (H resp Hr).
Qed.

Lemma todo_app_deployment_is_stored :
  deployment_stored "p1" generated_world
    (snd (POST_deploy deploy_request ready_after_two_polls generated_world))
    {| status_code := 200;
       body := RespDeployed "0" (Some "https://todo-app.vercel.app")
                 (Some "https://github.com/octocat/todo-app") |}.
Proof.
  apply (deploy_success_is_stored deploy_request ready_after_two_polls
           generated_world).
  - vm_compute. reflexivity.
  - reflexivity.
Defined.

(** X21: the deployment handler touches one project only, and of it only
    the status, the two URLs and the time of the last deployment.  No
    project row appears or disappears; the rows of all other projects are
    as before; the row of the project of the request keeps its owner,
    name, description, tech stack, prompt, generated files and version;
    and no CodeGeneration row is touched. *)
Theorem deploy_touches_only_its_project (request : Request DeployBody)
    (env : Env) (w : World) (id' : string) :
  let w' := snd (POST_deploy request env w) in
  codeGenerations (db w') = codeGenerations (db w)
  /\ match projects (db w) !! id', projects (db w') !! id' with
     | Some p, Some p' =>
         kept_by_deploy p p'
         /\ (id' <> dpb_projectId (req_body request) -> p' = p)
     | None, None => True
     | _, _ => False
     end.
Proof.
  cbv zeta.
  destruct (POST_deploy_effect request env w) as (Hd & Hother & Hsame & _).
  split; [done|].
  destruct (decide (id' = dpb_projectId (req_body request))) as [->|Hne].
  - destruct (projects (db w) !! _), (projects (db _) !! _); try done.
  - rewrite (Hother id' Hne).
    destruct (projects (db w) !! id'); [|done].
    split; [by repeat split|done].
Qed.

(** X22: a failed deployment is recorded.  Provided the datastore accepts
    the writes the failure handling consists of, a run that does not
    answer 200 either left the datastore as it was, or left the project
    FAILED and a new Deployment row of the project FAILED with a
    completion time and an error message; that message is the one in the
    500 answer (the error of the pipeline, or of the call that threw),
    unless the answer is the 400 of a validation error or the audit entry
    of the failure could not be written. *)
Theorem deploy_failure_is_recorded (request : Request DeployBody)
    (env : Env) (w : World) (resp : Response) :
  handler_writes_succeed env ->
  fst (POST_deploy request env w) = Ok resp ->
  status_code resp <> 200%nat ->
  db (snd (POST_deploy request env w)) = db w
  \/ deployment_failure_recorded (dpb_projectId (req_body request)) w
       (snd (POST_deploy request env w)) resp.
Proof.
  intros Hprot Hr Hs.
  destruct (POST_deploy_effect request env w) as (_ & _ & _ & H).
  by apply (H resp Hr).
Qed.

(** A deployment to Vercel with the Vercel token set and no GitHub token:
    the handler lets the request through, and the pipeline fails. *)
Lemma deploy_without_github_token_is_recorded :
  db (snd (POST_deploy deploy_request vercel_env generated_world))
  = db generated_world
  \/ deployment_failure_recorded "p1" generated_world
       (snd (POST_deploy deploy_request vercel_env generated_world))
       {| status_code := 500;
          body := RespError "Failed to deploy"
                    (Some "GitHub setup failed: GitHub token not configured") |}.
Proof.
  apply (deploy_failure_is_recorded deploy_request vercel_env generated_world).
  - intros n q _. reflexivity.
  - vm_compute. reflexivity.
  - simpl. lia.
Defined.

End RouteResults.

Module RequestFacts.
Import Js Parser Flow FlowFacts GitHub Vercel Deploy Routes RouteObs Samples.

Lemma slug_char_is_name_char c : is_name_char (slug_char c) = true.
Proof. destruct c as [[] [] [] [] [] [] [] []]; reflexivity. Qed.

Lemma slug_char_fixes_name_char c :
  is_name_char c = true -> slug_char c = c.
Proof. destruct c as [[] [] [] [] [] [] [] []]; (reflexivity || discriminate). Qed.

(** X23: the name under which a project is pushed and deployed.  The
    handler derives it from the project name by lowering the case and
    replacing every character outside a-z, 0-9 and the hyphen by a hyphen.
    The result has only these characters, whatever the project name; a
    name that has only these characters is kept as it is; so deriving a
    name from a derived name changes nothing. *)
Theorem slug_is_a_plain_name (name : string) :
  all_chars is_name_char (slug name) = true
  /\ (all_chars is_name_char name = true -> slug name = name)
  /\ slug (slug name) = slug name.
Proof.
  assert (H1 : forall s, all_chars is_name_char (slug s) = true).
  { induction s as [|c r IH]; [done|]. simpl.
    by rewrite slug_char_is_name_char, IH. }
  assert (H2 : forall s, all_chars is_name_char s = true -> slug s = s).
  { induction s as [|c r IH]; [done|]. simpl.
    intros [Hc Hr]%andb_true_iff.
    by rewrite (slug_char_fixes_name_char c Hc), (IH Hr). }
  split; [apply H1|]. split; [apply H2|]. apply H2, H1.
Qed.

(** X24: a provider that is not configured is refused before the project is
    looked up.  For a signed-in requester and a deploy provider whose token
    variable (VERCEL_TOKEN, NETLIFY_TOKEN, GITHUB_TOKEN for vercel, netlify,
    github-pages) is unset or empty, the handler answers 400 "Provider ...
    is not configured" after the session lookup and the reading of the
    body: it makes no call to the datastore, so the answer is the same
    whether or not the project exists and whoever owns it. *)
Theorem unconfigured_provider_is_refused (request : Request DeployBody)
    (env : Env) (w : World) (user : SessionUser) (variable : string) :
  req_session request = Some user ->
  fault env (tick w) EvSession = None ->
  fault env (S (tick w)) EvRequestJson = None ->
  token_variable (dpb_provider (req_body request)) = Some variable ->
  is_truthy (getenv env variable) = false ->
  let run := POST_deploy request env w in
  fst run = Ok (json_error ("Provider " ++ dpb_provider (req_body request)
                              ++ " is not configured") 400)
  /\ map call_event (entries_since w (snd run)) = [EvSession; EvRequestJson]
  /\ db (snd run) = db w.
Proof.
  intros Hs Hf1 Hf2 Hv Ht. cbv zeta.
  assert (Hrun : POST_deploy request env w
                 = (Ok (json_error ("Provider " ++ dpb_provider (req_body request)
                                      ++ " is not configured") 400),
                    record_call env EvRequestJson None
                      (record_call env EvSession None w))).
  { unfold POST_deploy, try_catch, mbind, M_bind, bind, call.
    rewrite Hf1, Hs. cbn [tick record_call]. rewrite Hf2.
    unfold deploySchema_parse, token_variable in *.
    unfold getConfiguredProviders, mbind, M_bind, bind, process_env, mret,
      M_ret, ret, throw.
    destruct (String.eqb_spec (dpb_provider (req_body request)) "vercel")
      as [Hp|_].
    { injection Hv as <-. rewrite Hp. simpl. rewrite Ht. simpl.
      destruct (is_truthy (getenv env "NETLIFY_TOKEN")),
        (is_truthy (getenv env "GITHUB_TOKEN")); reflexivity. }
    destruct (String.eqb_spec (dpb_provider (req_body request)) "netlify")
      as [Hp|_].
    { injection Hv as <-. rewrite Hp. simpl. rewrite Ht. simpl.
      destruct (is_truthy (getenv env "VERCEL_TOKEN")),
        (is_truthy (getenv env "GITHUB_TOKEN")); reflexivity. }
    destruct (String.eqb_spec (dpb_provider (req_body request)) "github-pages")
      as [Hp|_]; [|done].
    injection Hv as <-. rewrite Hp. simpl. rewrite Ht. simpl.
    destruct (is_truthy (getenv env "VERCEL_TOKEN")),
      (is_truthy (getenv env "NETLIFY_TOKEN")); reflexivity. }
  rewrite Hrun. cbn [fst snd]. split; [done|]. split; [|done].
  erewrite entries_since_app; [|cbn [trace record_call];
    instantiate (1 := [_; _]); reflexivity].
  reflexivity.
Qed.

Lemma netlify_is_refused_without_token :
  fst (POST_deploy
         {| req_session := Some owner;
            req_body := {| dpb_projectId := "p1"; dpb_provider := "netlify";
                           dpb_envVariables := None;
                           dpb_createGitHubRepo := None;
                           dpb_isPrivate := None |} |}
         vercel_env generated_world)
  = Ok (json_error "Provider netlify is not configured" 400)
  /\ db (snd (POST_deploy
                {| req_session := Some owner;
                   req_body := {| dpb_projectId := "p1";
                                  dpb_provider := "netlify";
                                  dpb_envVariables := None;
                                  dpb_createGitHubRepo := None;
                                  dpb_isPrivate := None |} |}
                vercel_env generated_world))
     = db generated_world.
Proof.
  destruct (unconfigured_provider_is_refused
              {| req_session := Some owner;
                 req_body := {| dpb_projectId := "p1"; dpb_provider := "netlify";
                                dpb_envVariables := None;
                                dpb_createGitHubRepo := None;
                                dpb_isPrivate := None |} |}
              vercel_env generated_world owner "NETLIFY_TOKEN"
              eq_refl eq_refl eq_refl eq_refl eq_refl) as (Hr & _ & Hdb).
  split; [exact Hr | exact Hdb].
Defined.

End RequestFacts.

(** ** The completion triggers against the status guard *)

Module TriggerFacts.
Import Status Flow Triggers.

(** X25: the project update of the generation completion trigger and the
    status guard.  The update the trigger makes is itself subject to
    [trigger_validate_project_status].  The guard accepts it in every case
    but one: a generation that completes for a project that is neither
    GENERATING nor GENERATED.  The guard then raises "Invalid project
    status transition from ... to GENERATED" (so a completed generation
    cannot revive a project that is DRAFT, FAILED, DEPLOYING or DEPLOYED).
    The move to FAILED is always accepted, since the trigger makes it only
    from GENERATING. *)
Theorem generation_completed_meets_guard (OLD NEW : generation_row)
    (p : project_row) :
  trigger_validate_project_status p (trigger_generation_completed OLD NEW p)
  = if completes OLD NEW p
       && negb (bool_decide (row_status p = GENERATING)
                || bool_decide (row_status p = GENERATED))
    then RaiseException ("Invalid project status transition from "
                           ++ status_text (row_status p) ++ " to GENERATED")
    else Return (trigger_generation_completed OLD NEW p).
Proof.
  unfold trigger_validate_project_status, trigger_generation_completed,
    completes, invalid_transition_message.
  destruct p as [id st files url v]. simpl.
  destruct (String.eqb id (gen_project_id NEW)) eqn:E;
    destruct (gen_status OLD), (gen_status NEW), st;
    cbv -[String.eqb append gen_project_id gen_output coalesce Z.add];
    rewrite ?E; reflexivity.
Qed.

(** X26: the project update of the deployment completion trigger and the
    status guard.  A deployment that goes to SUCCESS sets its project to
    DEPLOYED, with the URL of the deployment if it has one and the old URL
    otherwise, and stamps both timestamps; the guard accepts this exactly
    when the project was DEPLOYING or DEPLOYED, and otherwise raises
    "Invalid project status transition from ... to DEPLOYED".  A deployment
    that goes to FAILED moves the project to FAILED only from DEPLOYING,
    which the guard accepts: a project that is DEPLOYING goes to FAILED
    with a new [updated_at] and nothing else changed, and in every other
    case that is not a success the project row is left exactly as it was.
    The version and the generated files of the project are never
    changed. *)
Theorem deployment_completed_meets_guard (NOW : Z) (OLD NEW : deployment_row)
    (p : project_times) :
  let p' := trigger_deployment_completed NOW OLD NEW p in
  trigger_validate_project_status (pt_row p) (pt_row p')
  = (if succeeds OLD NEW (pt_row p)
        && negb (bool_decide (row_status (pt_row p) = DEPLOYING)
                 || bool_decide (row_status (pt_row p) = DEPLOYED))
     then RaiseException ("Invalid project status transition from "
                            ++ status_text (row_status (pt_row p))
                            ++ " to DEPLOYED")
     else Return (pt_row p'))
  /\ (succeeds OLD NEW (pt_row p) = true ->
      row_status (pt_row p') = DEPLOYED
      /\ row_deployment_url (pt_row p')
         = coalesce (dep_url NEW) (row_deployment_url (pt_row p))
      /\ pt_last_deployed_at p' = Some NOW /\ pt_updated_at p' = NOW)
  /\ (fails OLD NEW (pt_row p) = true ->
      row_status (pt_row p) = DEPLOYING ->
      row_status (pt_row p') = FAILED
      /\ row_deployment_url (pt_row p') = row_deployment_url (pt_row p)
      /\ pt_last_deployed_at p' = pt_last_deployed_at p
      /\ pt_updated_at p' = NOW)
  /\ (succeeds OLD NEW (pt_row p) = false ->
      fails OLD NEW (pt_row p) = false \/ row_status (pt_row p) <> DEPLOYING ->
      p' = p)
  /\ row_version (pt_row p') = row_version (pt_row p)
  /\ row_generated_files (pt_row p') = row_generated_files (pt_row p).
Proof.
  cbv zeta.
  unfold trigger_validate_project_status, trigger_deployment_completed,
    succeeds, fails, invalid_transition_message.
  destruct p as [[id st files url v] deployed updated]. simpl.
  destruct (String.eqb id (dep_project_id NEW)) eqn:E;
    destruct (dep_status OLD), (dep_status NEW), st;
    cbv -[String.eqb append dep_project_id dep_url coalesce Z.add];
    rewrite ?E; repeat split; try reflexivity; intros; try discriminate;
    match goal with
    | H : _ \/ _ |- _ => destruct H; congruence
    end.
Qed.

End TriggerFacts.

(** ** Request metadata and paging of the audit log *)

Module AuditFacts.
Import Js Flow Audit.





End AuditFacts.

(** ** What the providers send *)

Module ProviderFacts.
Import Js Flow Providers.

Lemma gemini_loop_spec messages history systemInstruction :
  gemini_loop messages history systemInstruction
  = ((history ++ map gemini_content (conversation messages))%list,
     match last (List.filter is_system messages) with
     | Some m => Some (m_content m)
     | None => systemInstruction
     end).
Proof.
  revert history systemInstruction.
  induction messages as [|msg rest IH]; intros history systemInstruction.
  - simpl. by rewrite app_nil_r.
  - cbn [gemini_loop conversation List.filter].
    destruct (is_system msg) eqn:Hs; cbn [negb].
    + rewrite IH. fold (conversation rest). f_equal.
      rewrite last_cons. by destruct (last (List.filter is_system rest)).
    + rewrite IH. fold (conversation rest). cbn [map].
      by rewrite <- app_assoc.
Qed.

Lemma filter_user_conversation messages :
  List.filter is_user messages = List.filter is_user (conversation messages).
Proof.
  unfold conversation. induction messages as [|[[] c] rest IH]; [done| | |].
  all: change (List.filter is_user rest
               = List.filter is_user
                   (List.filter (fun m => negb (is_system m)) rest)) in IH.
  - change (List.filter is_user ({| m_role := RoleUser; m_content := c |} :: rest))
      with ({| m_role := RoleUser; m_content := c |} :: List.filter is_user rest).
    by rewrite IH.
  - exact IH.
  - exact IH.
Qed.

Lemma last_map {A B} (f : A -> B) l : last (map f l) = option_map f (last l).
Proof.
  induction l as [|x l IH]; [done|]. cbn [map]. rewrite !last_cons, IH.
  by destruct (last l).
Qed.

Lemma last_filter_snoc (l : list LLMMessage) m :
  is_user m = true -> last (List.filter is_user (l ++ [m])) = Some m.
Proof.
  intros Hm. rewrite List.filter_app. cbn [List.filter]. rewrite Hm.
  apply last_snoc.
Qed.

Lemma removelast_snoc_last {A} (l : list A) x :
  last l = Some x -> (removelast l ++ [x])%list = l.
Proof.
  intros H. destruct (decide (l = [])) as [->|Hne]; [done|].
  rewrite (app_removelast_last x Hne) at 2. f_equal. f_equal.
  clear Hne. induction l as [|a [|b l] IH]; [done| |].
  - by injection H as ->.
  - apply IH. exact H.
Qed.

(** X29: what the Gemini provider sends, and when that is the
    conversation as it is.  Without a client (no API key when the provider
    was built) every call is refused with "Google AI API key not
    configured".  With a client, a list without any user message is
    refused with "No user message provided"; every other list is
    accepted, the prompt is the last user message and the history is all
    messages but the system ones, without the last of them.  So the
    history followed by the prompt is the conversation exactly when the
    last message of the conversation is a user message; when it is an
    assistant message, that message is left out and the prompt repeats a
    user message the history already holds.  The single user message of
    [generate] gives an empty history and the prompt. *)
Theorem gemini_sends_the_conversation (self : GeminiProvider)
    (systemPrompt : option string) (messages : list LLMMessage) :
  match gp_client self, last (List.filter is_user messages) with
  | None, _ =>
      generateChat_request self systemPrompt messages
      = Throw (Error "Google AI API key not configured")
  | Some _, None =>
      List.filter is_user messages = []
      /\ generateChat_request self systemPrompt messages
         = Throw (Error "No user message provided")
  | Some _, Some u =>
      exists chat,
        generateChat_request self systemPrompt messages = Ok chat
        /\ chat_prompt chat = m_content u
        /\ chat_history chat
           = removelast (map gemini_content (conversation messages))
        /\ ((chat_history chat
               ++ [ {| c_role := "user"; c_text := chat_prompt chat |} ])%list
            = map gemini_content (conversation messages)
            <-> exists m, last (conversation messages) = Some m
                          /\ m_role m = RoleUser)
  end
  /\ (List.filter is_user messages = [] ->
      exists e, generateChat_request self systemPrompt messages = Throw e)
  /\ forall client prompt,
       generateChat_request {| gp_client := Some client |} systemPrompt
         [ {| m_role := RoleUser; m_content := prompt |} ]
       = Ok {| chat_history := []; chat_systemInstruction := systemPrompt;
               chat_prompt := prompt |}.
Proof.
  split; [|split; [|done]].
  2:{ intros H. unfold generateChat_request, getClient, gemini_chat.
      rewrite gemini_loop_spec. rewrite H.
      destruct (gp_client self); eauto. }
  unfold generateChat_request, getClient.
  destruct (gp_client self) as [client|]; [|done].
  unfold gemini_chat. rewrite gemini_loop_spec. cbn [app].
  destruct (last (List.filter is_user messages)) as [u|] eqn:Hu.
  - eexists. split; [reflexivity|]. cbn [chat_history chat_prompt].
    split; [done|]. split; [done|]. split.
    + intros H.
      destruct (last (conversation messages)) as [m|] eqn:Hm.
      * exists m. split; [done|].
        assert (Hl : last (map gemini_content (conversation messages))
                     = Some (gemini_content m)).
        { by rewrite last_map, Hm. }
        rewrite <- H, last_snoc in Hl. injection Hl as Hl.
        unfold gemini_content in Hl.
        assert (Hin : In m (conversation messages)).
        { apply list_elem_of_In. apply last_Some in Hm as [l' ->].
          set_solver. }
        apply filter_In in Hin as [_ Hns]. unfold is_system in Hns.
        destruct (m_role m); [done|discriminate|discriminate].
      * apply last_None in Hm. rewrite filter_user_conversation, Hm in Hu.
        discriminate.
    + intros (m & Hm & Hrole).
      assert (Hum : u = m).
      { rewrite filter_user_conversation in Hu.
        apply last_Some in Hm as [l' Hl']. rewrite Hl' in Hu.
        rewrite last_filter_snoc in Hu; [by injection Hu|].
        unfold is_user. by rewrite Hrole. }
      subst u.
      replace {| c_role := "user"; c_text := m_content m |}
        with (gemini_content m)
        by (unfold gemini_content; by rewrite Hrole).
      apply removelast_snoc_last. by rewrite last_map, Hm.
  - split; [by apply last_None|done].
Qed.

Lemma find_filter_head (messages : list LLMMessage) :
  List.find is_system messages = head (List.filter is_system messages).
Proof.
  induction messages as [|m rest IH]; [done|]. simpl.
  by destruct (is_system m).
Qed.

(** X30: the providers do not agree on the system prompt.  With a system
    prompt in the options (not empty) and system messages in the list,
    Anthropic sends the prompt of the options and none of the system
    messages, Gemini sends the content of the last system message as
    system instruction and drops the prompt of the options, and OpenAI
    sends both: the prompt of the options first, then every message, the
    system ones included.  Without a prompt in the options, Anthropic
    sends the first system message and Gemini the last. *)
Theorem system_prompt_precedence (systemPrompt : option string)
    (messages : list LLMMessage) (first last_ : LLMMessage) :
  head (List.filter is_system messages) = Some first ->
  last (List.filter is_system messages) = Some last_ ->
  anthropic_system systemPrompt messages
  = Some (default (m_content first) (truthy systemPrompt))
    :> option string
  /\ Forall (fun m => m_role m <> RoleSystem) (anthropic_messages messages)
  /\ (forall chat, gemini_chat systemPrompt messages = Ok chat ->
        chat_systemInstruction chat = Some (m_content last_))
  /\ openai_messages systemPrompt messages
     = (match truthy systemPrompt with
        | Some prompt => [ {| m_role := RoleSystem; m_content := prompt |} ]
        | None => []
        end ++ messages)%list.
Proof.
  intros Hfirst Hlast. split; [|split; [|split]].
  - unfold anthropic_system, or_string, systemMessage.
    rewrite find_filter_head, Hfirst.
    by destruct (truthy systemPrompt).
  - unfold anthropic_messages. apply Forall_forall. intros m Hm.
    apply list_elem_of_In, in_map_iff in Hm as (m' & <- & Hm').
    apply filter_In in Hm' as [_ Hns]. unfold is_system in Hns. simpl.
    by destruct (m_role m').
  - intros chat. unfold gemini_chat. rewrite gemini_loop_spec, Hlast.
    destruct (last (List.filter is_user messages)); [|done].
    by intros [= <-].
  - unfold openai_messages. f_equal.
    induction messages as [|[r c] rest IH]; [done|].
    simpl.
    assert (Hrest : map (fun m => {| m_role := m_role m;
                                     m_content := m_content m |}) rest = rest).
    { clear. induction rest as [|[r c] rest IH]; [done|]. simpl. by rewrite IH. }
    by rewrite Hrest.
Qed.

Lemma two_system_messages :
  anthropic_system (Some "Be brief.")
    [ {| m_role := RoleSystem; m_content := "You write Go." |};
      {| m_role := RoleUser; m_content := "Hello" |};
      {| m_role := RoleSystem; m_content := "You write Rust." |} ]
  = Some "Be brief."
  /\ (forall chat,
        gemini_chat (Some "Be brief.")
          [ {| m_role := RoleSystem; m_content := "You write Go." |};
            {| m_role := RoleUser; m_content := "Hello" |};
            {| m_role := RoleSystem; m_content := "You write Rust." |} ]
        = Ok chat ->
        chat_systemInstruction chat = Some "You write Rust.").
Proof.
  destruct (system_prompt_precedence (Some "Be brief.")
              [ {| m_role := RoleSystem; m_content := "You write Go." |};
                {| m_role := RoleUser; m_content := "Hello" |};
                {| m_role := RoleSystem; m_content := "You write Rust." |} ]
              {| m_role := RoleSystem; m_content := "You write Go." |}
              {| m_role := RoleSystem; m_content := "You write Rust." |}
              eq_refl eq_refl) as (Ha & _ & Hg & _).
  split; [exact Ha | exact Hg].
Defined.

End ProviderFacts.
